(** * ThreatEye: the file-analysis engine and the scan-history store

    A shallow embedding of the two TypeScript classes that carry the
    scan-session lifecycle: [FileAnalysisEngine] (the session tracker) and
    [ScanHistoryManager] (the history store), together with the interfaces
    of [shared/fileAnalysis.ts] they work on.  Beside them: the upload
    callback of the two analysis pages with its [generateFileHash], and
    the class [ThreatEyeEngine] with the interfaces of
    [shared/threateye.ts], whose update simulations run in the monad [ME]
    over the state of that engine.

    Conventions of the embedding.
    - A JavaScript [number] that the code only ever uses as an integer
      (sizes, counters, confidences, scores after [Math.round]) is a [Z];
      the two places where fractions matter (the running risk sum and the
      values of [Math.random()]) are exact rationals [Q].
    - A [Date] is its [getTime()] value, a [Z] of milliseconds.
    - A string is a Rocq [string]; file names are taken to be ASCII, where
      [toLowerCase] and the substring tests work character by character.
    - An identifier built by a template string from [Date.now()] and
      [Math.random()] is kept as the structured value [Ident].
    - The JavaScript runtime the classes talk to (clock, random source,
      [localStorage], [console], the registered listeners) is the record
      [World]; the methods are functions in the state monad [M] over it.
      One call runs at a time, and the clock moves only in [delay]; nothing
      proved below depends on what the clock shows.
    - A listener is a callback of the page; what the model keeps of it is
      the value it is called with, as that object is at the time of the
      call (the engine passes the same object again after updating it). *)

From Stdlib Require Import ZArith QArith Qround String Ascii List Lia Lqa.
From stdpp Require Import base list strings pretty.

Local Open Scope string_scope.

(* ================================================================== *)
(** ** JavaScript strings *)
(* ================================================================== *)

(** [String.prototype.toLowerCase] on the ASCII range. *)
Definition lowerAscii (c : ascii) : ascii :=
  let n := nat_of_ascii c in
  if (65 <=? n)%nat && (n <=? 90)%nat then ascii_of_nat (n + 32) else c.

Fixpoint toLowerCase (s : string) : string :=
  match s with
  | EmptyString => EmptyString
  | String c s' => String (lowerAscii c) (toLowerCase s')
  end.

Fixpoint startsWith (s p : string) : bool :=
  match p with
  | EmptyString => true
  | String a p' =>
      match s with
      | EmptyString => false
      | String b s' => if Ascii.eqb a b then startsWith s' p' else false
      end
  end.

(** [s.includes(p)]: [p] occurs somewhere in [s]. *)
Fixpoint includes (s p : string) : bool :=
  startsWith s p ||
  match s with
  | EmptyString => false
  | String _ s' => includes s' p
  end.

Definition endsWith (s p : string) : bool :=
  let n := String.length s in
  let m := String.length p in
  if (m <=? n)%nat then String.eqb (substring (n - m) m s) p else false.

(** [s.split(sep)] for a one-character separator; never the empty list. *)
Fixpoint split (sep : ascii) (s : string) : list string :=
  match s with
  | EmptyString => [EmptyString]
  | String c s' =>
      let parts := split sep s' in
      if Ascii.eqb c sep then EmptyString :: parts
      else match parts with
           | p :: ps => String c p :: ps
           | [] => [String c EmptyString]
           end
  end.

(** [Array.prototype.includes] on an array of strings. *)
Definition arrayIncludes (l : list string) (x : string) : bool :=
  existsb (String.eqb x) l.

(** A string is truthy when it is not empty. *)
Definition truthy (s : string) : bool := negb (String.eqb s "").

(** [Math.round]: the nearest integer, a tie going up. *)
Definition mathRound (x : Q) : Z := Qfloor (x + (1 # 2)).

Definition mathFloor (x : Q) : Z := Qfloor x.

(** [x > t] on numbers. *)
Definition gtQ (x t : Q) : bool := negb (Qle_bool x t).

(** [Number.prototype.toFixed(d)]: [n / 10^d] nearest to [x], a tie going to
    the larger [n], printed with [d] digits after the point. *)
Definition padStart (n : nat) (s : string) : string :=
  string_of_list_ascii (replicate (n - String.length s) "0"%char) ++ s.

Definition toFixed (d : nat) (x : Q) : string :=
  let neg := negb (Qle_bool 0 x) in
  let a := if neg then Qopp x else x in
  let n := Qfloor (a * inject_Z (10 ^ Z.of_nat d) + (1 # 2)) in
  let whole := (n / 10 ^ Z.of_nat d)%Z in
  let frac := (n mod 10 ^ Z.of_nat d)%Z in
  (if neg then "-" else "") ++ pretty whole ++
  match d with
  | O => ""
  | _ => "." ++ padStart d (pretty frac)
  end.

(** [new Set(...)] keeps its members in insertion order, each once. *)
Definition setAdd (x : string) (s : list string) : list string :=
  if bool_decide (x ∈ s) then s else s ++ [x].

(** [new Set(l)], read back with the spread operator or [Array.from]. *)
Definition setOf (l : list string) : list string :=
  fold_left (fun s x => setAdd x s) l [].

(* ================================================================== *)
(** ** The data model of [shared/fileAnalysis.ts] *)
(* ================================================================== *)

(** Identifiers.  [IdLit] is a string supplied from outside; the two others
    are the template strings [`${prefix}_${Date.now()}`] and
    [`${prefix}_${Date.now()}_${Math.random()}`] (for a history entry the
    random number is printed in base 36 and cut to nine digits; the model
    keeps the number). *)
Inductive Ident : Type :=
  | IdLit (s : string)
  | IdStamp (prefix : string) (time : Z)
  | IdSalted (prefix : string) (time : Z) (salt : Q).

#[global] Instance Q_eq_dec : EqDecision Q.
Proof. solve_decision. Defined.

#[global] Instance Ident_eq_dec : EqDecision Ident.
Proof. solve_decision. Defined.

Module UploadedFile.
Record t : Type := mk {
  id : Ident;
  name : string;
  size : Z;
  type : string;
  uploadedAt : Z;
  content : option (list Byte.byte);
  hash : string
}.
End UploadedFile.

Inductive Status : Type := SCANNING | COMPLETED | FAILED.

Inductive ThreatLevel : Type := CLEAN | SUSPICIOUS | MALICIOUS | CRITICAL.

Inductive Severity : Type := SevLOW | SevMEDIUM | SevHIGH | SevCRITICAL.

Inductive Prevalence : Type := RARE | UNCOMMON | COMMON | WIDESPREAD.

#[global] Instance ThreatLevel_eq_dec : EqDecision ThreatLevel.
Proof. solve_decision. Defined.

#[global] Instance Severity_eq_dec : EqDecision Severity.
Proof. solve_decision. Defined.

(** The string a threat level is in the program text. *)
Definition threatName (t : ThreatLevel) : string :=
  match t with
  | CLEAN => "CLEAN"
  | SUSPICIOUS => "SUSPICIOUS"
  | MALICIOUS => "MALICIOUS"
  | CRITICAL => "CRITICAL"
  end.

Module DetectionResult.
Record t : Type := mk {
  id : Ident;
  category : string;
  severity : Severity;
  description : string;
  evidence : string;
  confidence : Z
}.
End DetectionResult.

Module Detections.
Record t : Type := mk {
  malwareSignatures : list DetectionResult.t;
  suspiciousPatterns : list DetectionResult.t;
  fileIntegrity : list DetectionResult.t;
  behaviorAnalysis : list DetectionResult.t
}.
End Detections.

Module FileProperties.
Record t : Type := mk {
  fileType : string;
  actualType : string;
  size : Z;
  entropy : Q;
  isEncrypted : bool;
  hasExecutableCode : bool;
  suspiciousNames : list string
}.
End FileProperties.

Module ThreatIntelligence.
Record t : Type := mk {
  knownMalware : bool;
  familyName : option string;
  firstSeen : option Z;
  prevalence : Prevalence
}.
End ThreatIntelligence.

Module FileAnalysisResult.
Record t : Type := mk {
  id : Ident;
  file : UploadedFile.t;
  status : Status;
  overallThreat : ThreatLevel;
  riskScore : Z;
  scanProgress : Z;
  startTime : Z;
  endTime : option Z;
  detections : Detections.t;
  fileProperties : FileProperties.t;
  recommendations : list string;
  threatIntelligence : ThreatIntelligence.t
}.
End FileAnalysisResult.

Module ScanSession.
Record t : Type := mk {
  id : Ident;
  files : list FileAnalysisResult.t;
  startTime : Z;
  totalFiles : Z;
  completedFiles : Z;
  threatsFound : Z;
  cleanFiles : Z
}.
End ScanSession.

(** [HistoricalScan], the interface of the history store. *)
Module HistoricalScan.
Record t : Type := mk {
  id : Ident;
  sessionId : Ident;
  timestamp : Z;
  totalFiles : Z;
  threatsFound : Z;
  cleanFiles : Z;
  avgRiskScore : Z;
  duration : Z;
  results : list FileAnalysisResult.t;
  tags : list string;
  notes : option string
}.
End HistoricalScan.


(** *** Field assignments

    [result.scanProgress = v] and the like, one function per field the code
    assigns. *)

Definition pushMalwareSignature (d : DetectionResult.t) (ds : Detections.t)
  : Detections.t :=
  Detections.mk (Detections.malwareSignatures ds ++ [d])
    (Detections.suspiciousPatterns ds) (Detections.fileIntegrity ds)
    (Detections.behaviorAnalysis ds).

Definition pushSuspiciousPattern (d : DetectionResult.t) (ds : Detections.t)
  : Detections.t :=
  Detections.mk (Detections.malwareSignatures ds)
    (Detections.suspiciousPatterns ds ++ [d]) (Detections.fileIntegrity ds)
    (Detections.behaviorAnalysis ds).

Definition pushFileIntegrity (d : DetectionResult.t) (ds : Detections.t)
  : Detections.t :=
  Detections.mk (Detections.malwareSignatures ds)
    (Detections.suspiciousPatterns ds) (Detections.fileIntegrity ds ++ [d])
    (Detections.behaviorAnalysis ds).

Definition pushBehaviorAnalysis (d : DetectionResult.t) (ds : Detections.t)
  : Detections.t :=
  Detections.mk (Detections.malwareSignatures ds)
    (Detections.suspiciousPatterns ds) (Detections.fileIntegrity ds)
    (Detections.behaviorAnalysis ds ++ [d]).

Definition setIsEncrypted (v : bool) (p : FileProperties.t) : FileProperties.t :=
  FileProperties.mk (FileProperties.fileType p) (FileProperties.actualType p)
    (FileProperties.size p) (FileProperties.entropy p) v
    (FileProperties.hasExecutableCode p) (FileProperties.suspiciousNames p).

Definition setHasExecutableCode (v : bool) (p : FileProperties.t)
  : FileProperties.t :=
  FileProperties.mk (FileProperties.fileType p) (FileProperties.actualType p)
    (FileProperties.size p) (FileProperties.entropy p)
    (FileProperties.isEncrypted p) v (FileProperties.suspiciousNames p).

Definition setKnownMalware (v : bool) (ti : ThreatIntelligence.t)
  : ThreatIntelligence.t :=
  ThreatIntelligence.mk v (ThreatIntelligence.familyName ti)
    (ThreatIntelligence.firstSeen ti) (ThreatIntelligence.prevalence ti).

Definition setFamilyName (v : string) (ti : ThreatIntelligence.t)
  : ThreatIntelligence.t :=
  ThreatIntelligence.mk (ThreatIntelligence.knownMalware ti) (Some v)
    (ThreatIntelligence.firstSeen ti) (ThreatIntelligence.prevalence ti).

Section ResultFields.
Import FileAnalysisResult.

Definition setStatus (v : Status) (r : t) : t :=
  mk (id r) (file r) v (overallThreat r) (riskScore r) (scanProgress r)
    (startTime r) (endTime r) (detections r) (fileProperties r)
    (recommendations r) (threatIntelligence r).

Definition setOverallThreat (v : ThreatLevel) (r : t) : t :=
  mk (id r) (file r) (status r) v (riskScore r) (scanProgress r)
    (startTime r) (endTime r) (detections r) (fileProperties r)
    (recommendations r) (threatIntelligence r).

Definition setRiskScore (v : Z) (r : t) : t :=
  mk (id r) (file r) (status r) (overallThreat r) v (scanProgress r)
    (startTime r) (endTime r) (detections r) (fileProperties r)
    (recommendations r) (threatIntelligence r).

Definition setScanProgress (v : Z) (r : t) : t :=
  mk (id r) (file r) (status r) (overallThreat r) (riskScore r) v
    (startTime r) (endTime r) (detections r) (fileProperties r)
    (recommendations r) (threatIntelligence r).

Definition setEndTime (v : Z) (r : t) : t :=
  mk (id r) (file r) (status r) (overallThreat r) (riskScore r)
    (scanProgress r) (startTime r) (Some v) (detections r) (fileProperties r)
    (recommendations r) (threatIntelligence r).

Definition setDetections (v : Detections.t) (r : t) : t :=
  mk (id r) (file r) (status r) (overallThreat r) (riskScore r)
    (scanProgress r) (startTime r) (endTime r) v (fileProperties r)
    (recommendations r) (threatIntelligence r).

Definition setFileProperties (v : FileProperties.t) (r : t) : t :=
  mk (id r) (file r) (status r) (overallThreat r) (riskScore r)
    (scanProgress r) (startTime r) (endTime r) (detections r) v
    (recommendations r) (threatIntelligence r).

Definition setThreatIntelligence (v : ThreatIntelligence.t) (r : t) : t :=
  mk (id r) (file r) (status r) (overallThreat r) (riskScore r)
    (scanProgress r) (startTime r) (endTime r) (detections r)
    (fileProperties r) (recommendations r) v.

(** [result.recommendations.push(s)] *)
Definition pushRecommendation (s : string) (r : t) : t :=
  mk (id r) (file r) (status r) (overallThreat r) (riskScore r)
    (scanProgress r) (startTime r) (endTime r) (detections r)
    (fileProperties r) (recommendations r ++ [s]) (threatIntelligence r).

(** [file: { ...r.file, content: undefined }] *)
Definition stripContent (r : t) : t :=
  mk (id r)
    (UploadedFile.mk (UploadedFile.id (file r)) (UploadedFile.name (file r))
       (UploadedFile.size (file r)) (UploadedFile.type (file r))
       (UploadedFile.uploadedAt (file r)) None (UploadedFile.hash (file r)))
    (status r) (overallThreat r) (riskScore r) (scanProgress r) (startTime r)
    (endTime r) (detections r) (fileProperties r) (recommendations r)
    (threatIntelligence r).

End ResultFields.

(* ================================================================== *)
(** ** The runtime and the monad of the methods *)
(* ================================================================== *)

(** What a [catch] clause sees of a thrown error: its [name].  The errors of
    [localStorage] are [DOMException]s, which are instances of [Error]. *)
Record JsError : Type := mkError { errorName : string }.

(** The value under the history key of [localStorage]: nothing, a text that
    cannot be read back as a history ([getItem], [JSON.parse] or the revival
    of the dates throws on it), or the JSON text of a history.  A history
    text is kept as the list it encodes: [JSON.stringify] followed by
    [JSON.parse] and the revival of the [Date] fields in [getHistory] gives
    the fields of the model back unchanged (dates are milliseconds, the
    numbers are finite, the stripped [content] is absent on both sides). *)
Inductive Item : Type :=
  | NoItem
  | BadItem
  | ItemDoc (doc : list HistoricalScan.t).

Record World : Type := mkWorld {
  (** the successive values of [Math.random()], and how many were drawn *)
  randoms : nat -> Q;
  drawn : nat;
  (** [Date.now()] *)
  clock : Z;
  (** [localStorage]: the stored item, and for each history text whether
      [setItem] would throw on it (and what) *)
  item : Item;
  setItemError : list HistoricalScan.t -> option JsError;
  (** lines written by [console.error] *)
  console : list string;
  (** what the registered listeners were called with, oldest first *)
  analysisUpdates : list FileAnalysisResult.t;
  sessionUpdates : list ScanSession.t
}.

Definition M (A : Type) : Type := World -> A * World.

Definition ret {A : Type} (a : A) : M A := fun w => (a, w).

Definition bind {A B : Type} (m : M A) (k : A -> M B) : M B :=
  fun w => let r := m w in k (fst r) (snd r).

Declare Scope js_scope.
Delimit Scope js_scope with js.
Notation "x <- m ;; k" := (bind m (fun x => k))
  (at level 100, m at next level, right associativity) : js_scope.
Notation "m ;;; k" := (bind m (fun _ => k))
  (at level 100, right associativity) : js_scope.
Local Open Scope js_scope.

(** [for (const x of l) body], the loop state passed along. *)
Fixpoint forOf {A S : Type} (l : list A) (body : S -> A -> M S) (s : S) : M S :=
  match l with
  | [] => ret s
  | x :: l' => s' <- body s x ;; forOf l' body s'
  end.

Definition dateNow : M Z := fun w => (clock w, w).

Definition mathRandom : M Q := fun w =>
  (randoms w (drawn w),
   mkWorld (randoms w) (S (drawn w)) (clock w) (item w) (setItemError w)
     (console w) (analysisUpdates w) (sessionUpdates w)).

(** [await this.delay(ms)]: the clock moves on by [ms]. *)
Definition delay (ms : Z) : M unit := fun w =>
  (tt,
   mkWorld (randoms w) (drawn w) (clock w + ms)%Z (item w) (setItemError w)
     (console w) (analysisUpdates w) (sessionUpdates w)).

Definition consoleError (msg : string) : M unit := fun w =>
  (tt,
   mkWorld (randoms w) (drawn w) (clock w) (item w) (setItemError w)
     (console w ++ [msg]) (analysisUpdates w) (sessionUpdates w)).

(** The listeners are called with the object as it is at that moment. *)
Definition notifyListeners (result : FileAnalysisResult.t) : M unit := fun w =>
  (tt,
   mkWorld (randoms w) (drawn w) (clock w) (item w) (setItemError w)
     (console w) (analysisUpdates w ++ [result]) (sessionUpdates w)).

Definition notifySessionListeners (session : ScanSession.t) : M unit := fun w =>
  (tt,
   mkWorld (randoms w) (drawn w) (clock w) (item w) (setItemError w)
     (console w) (analysisUpdates w) (sessionUpdates w ++ [session])).

Definition setStored (it : Item) : M unit := fun w =>
  (tt,
   mkWorld (randoms w) (drawn w) (clock w) it (setItemError w)
     (console w) (analysisUpdates w) (sessionUpdates w)).

(* ================================================================== *)
(** ** [FileAnalysisEngine] *)
(* ================================================================== *)

Definition maliciousPatterns : list string :=
  ["backdoor"; "trojan"; "virus"; "malware"; "keylogger"; "ransomware";
   "cryptominer"; "rootkit"; "spyware"; "adware"; "exploit"].

Definition suspiciousExtensions : list string :=
  [".exe"; ".scr"; ".bat"; ".cmd"; ".com"; ".pif"; ".vbs"; ".js";
   ".jar"; ".zip"; ".rar"; ".7z"].

Definition maliciousHashes : list string :=
  ["a1b2c3d4e5f6789"; "malware123456789"; "trojan987654321";
   "backdoor111111111"].

(** [array.pop()] read as an expression: the last element, if any. *)
Definition pop (l : list string) : option string := last l.

(** An optional string inside a template string ([undefined] prints as
    such; the arrays indexed in this class are never read out of range when
    [Math.random()] is in its range, from 0 up and below 1). *)
Definition tpl (o : option string) : string := default "undefined" o.

Definition typeMap : list (string * string) :=
  [("exe", "application/x-executable");
   ("pdf", "application/pdf");
   ("doc", "application/msword");
   ("docx", "application/vnd.openxmlformats-officedocument.wordprocessingml.document");
   ("zip", "application/zip");
   ("rar", "application/x-rar-compressed");
   ("jpg", "image/jpeg");
   ("png", "image/png");
   ("txt", "text/plain")].

Fixpoint lookupType (m : list (string * string)) (k : string) : option string :=
  match m with
  | [] => None
  | (k', v) :: m' => if String.eqb k k' then Some v else lookupType m' k
  end.

(** [typeMap[ext || ''] || 'application/octet-stream'], for the keys the
    object literal itself has. *)
Definition detectFileType (filename : string) : string :=
  let ext := pop (split "." (toLowerCase filename)) in
  default "application/octet-stream" (lookupType typeMap (default "" ext)).

Section Engine.
Import FileAnalysisResult.

Definition addMalwareSignature (d : DetectionResult.t) (r : t) : t :=
  setDetections (pushMalwareSignature d (detections r)) r.

Definition addSuspiciousPattern (d : DetectionResult.t) (r : t) : t :=
  setDetections (pushSuspiciousPattern d (detections r)) r.

Definition addFileIntegrity (d : DetectionResult.t) (r : t) : t :=
  setDetections (pushFileIntegrity d (detections r)) r.

Definition addBehaviorAnalysis (d : DetectionResult.t) (r : t) : t :=
  setDetections (pushBehaviorAnalysis d (detections r)) r.

Definition scanForMalwareSignatures (result : t) : M t :=
  let file := file result in
  (* Check against known malicious hashes *)
  result <-
    (if arrayIncludes maliciousHashes (UploadedFile.hash file) then
       now <- dateNow ;;
       let result := addMalwareSignature
         (DetectionResult.mk (IdStamp "sig" now) "Known Malware Hash"
            SevCRITICAL "File hash matches known malware signature"
            ("Hash: " ++ UploadedFile.hash file) 98) result in
       let result := setThreatIntelligence
         (setKnownMalware true (threatIntelligence result)) result in
       ret (setThreatIntelligence
              (setFamilyName "Generic.Malware" (threatIntelligence result))
              result)
     else ret result) ;;
  (* Check filename for malicious patterns *)
  let fileName := toLowerCase (UploadedFile.name file) in
  result <-
    forOf maliciousPatterns (fun result pattern =>
      if includes fileName pattern then
        now <- dateNow ;;
        salt <- mathRandom ;;
        ret (addMalwareSignature
               (DetectionResult.mk (IdSalted "sig" now salt)
                  "Malicious Filename Pattern" SevHIGH
                  ("Filename contains suspicious pattern: " ++ pattern)
                  ("Filename: " ++ UploadedFile.name file) 85) result)
      else ret result) result ;;
  (* Simulate signature-based detection for executables *)
  if existsb (fun ext => endsWith fileName ext) suspiciousExtensions then
    let result := setFileProperties
      (setHasExecutableCode true (fileProperties result)) result in
    chance <- mathRandom ;;
    if gtQ chance (7 # 10) then
      now <- dateNow ;;
      salt <- mathRandom ;;
      ret (addMalwareSignature
             (DetectionResult.mk (IdSalted "sig" now salt) "Malware Signature"
                SevCRITICAL "File contains known malware signature"
                "Binary pattern match at offset 0x1234" 95) result)
    else ret result
  else ret result.

Definition scanForSuspiciousPatterns (result : t) : M t :=
  let file := file result in
  (* Check for suspicious file extensions *)
  let fileExt := pop (split "." (toLowerCase (UploadedFile.name file))) in
  result <-
    (if arrayIncludes suspiciousExtensions ("." ++ tpl fileExt) then
       now <- dateNow ;;
       ret (addSuspiciousPattern
              (DetectionResult.mk (IdStamp "pat" now)
                 "Suspicious File Extension" SevMEDIUM
                 ("File has potentially dangerous extension: ." ++ tpl fileExt)
                 ("Extension: ." ++ tpl fileExt) 70) result)
     else ret result) ;;
  (* Check for double extensions *)
  let parts := split "." (UploadedFile.name file) in
  result <-
    (if (2 <? length parts)%nat then
       now <- dateNow ;;
       salt <- mathRandom ;;
       ret (addSuspiciousPattern
              (DetectionResult.mk (IdSalted "pat" now salt) "Double Extension"
                 SevHIGH "File uses double extension, common in malware"
                 ("Filename: " ++ UploadedFile.name file) 80) result)
     else ret result) ;;
  (* Check file size anomalies *)
  result <-
    (if (UploadedFile.size file <? 1024)%Z
        && endsWith (UploadedFile.name file) ".exe" then
       now <- dateNow ;;
       salt <- mathRandom ;;
       ret (addSuspiciousPattern
              (DetectionResult.mk (IdSalted "pat" now salt) "Size Anomaly"
                 SevMEDIUM "Executable file unusually small"
                 ("Size: " ++ pretty (UploadedFile.size file) ++ " bytes") 65)
              result)
     else ret result) ;;
  if (100 * 1024 * 1024 <? UploadedFile.size file)%Z then
    now <- dateNow ;;
    salt <- mathRandom ;;
    ret (addSuspiciousPattern
           (DetectionResult.mk (IdSalted "pat" now salt) "Size Anomaly" SevLOW
              "File unusually large, may contain hidden payload"
              ("Size: " ++
               toFixed 1 (inject_Z (UploadedFile.size file) / 1024 / 1024) ++
               " MB") 50) result)
  else ret result.

Definition analyzeFileIntegrity (result : t) : M t :=
  let file := file result in
  (* Simulate entropy analysis *)
  let entropy := FileProperties.entropy (fileProperties result) in
  result <-
    (if gtQ entropy (15 # 2) then
       let result := setFileProperties
         (setIsEncrypted true (fileProperties result)) result in
       now <- dateNow ;;
       ret (addFileIntegrity
              (DetectionResult.mk (IdStamp "int" now) "High Entropy" SevMEDIUM
                 "File has high entropy, may be encrypted or packed"
                 ("Entropy: " ++ toFixed 2 entropy) 75) result)
     else ret result) ;;
  (* Check for file type mismatch *)
  let declaredType := UploadedFile.type file in
  let actualType := FileProperties.actualType (fileProperties result) in
  if truthy declaredType && truthy actualType
     && negb (String.eqb declaredType actualType) then
    now <- dateNow ;;
    salt <- mathRandom ;;
    ret (addFileIntegrity
           (DetectionResult.mk (IdSalted "int" now salt) "Type Mismatch"
              SevHIGH "File extension does not match actual file type"
              ("Declared: " ++ declaredType ++ ", Actual: " ++ actualType) 90)
           result)
  else ret result.

Definition behaviors : list string :=
  ["Network communication to suspicious domains";
   "Registry modification attempts";
   "File system monitoring";
   "Process injection techniques";
   "Anti-debugging mechanisms"].

Definition performBehaviorAnalysis (result : t) : M t :=
  (* Simulate behavior analysis for executables *)
  result <-
    (if FileProperties.hasExecutableCode (fileProperties result) then
       chance <- mathRandom ;;
       if gtQ chance (6 # 10) then
         pick <- mathRandom ;;
         let behavior :=
           behaviors !!
             Z.to_nat (mathFloor (pick * inject_Z (Z.of_nat (length behaviors)))) in
         now <- dateNow ;;
         ret (addBehaviorAnalysis
                (DetectionResult.mk (IdStamp "beh" now) "Suspicious Behavior"
                   SevHIGH (tpl behavior)
                   "Static analysis of executable code" 82) result)
       else ret result
     else ret result) ;;
  (* Check for suspicious strings or patterns *)
  chance <- mathRandom ;;
  if gtQ chance (8 # 10) then
    now <- dateNow ;;
    salt <- mathRandom ;;
    ret (addBehaviorAnalysis
           (DetectionResult.mk (IdSalted "beh" now salt) "Suspicious Strings"
              SevMEDIUM "File contains suspicious text patterns"
              "Encrypted strings, API calls, network URLs" 70) result)
  else ret result.

Definition generateRecommendations (result : t) : t :=
  match overallThreat result with
  | CRITICAL | MALICIOUS =>
      pushRecommendation "🛡️ Update antivirus signatures"
        (pushRecommendation "🔍 Scan your system for infections"
           (pushRecommendation "🗑️ Delete the file immediately"
              (pushRecommendation
                 "🚫 DO NOT EXECUTE this file - it contains malware" result)))
  | SUSPICIOUS =>
      pushRecommendation "📋 Verify file source and authenticity"
        (pushRecommendation "🏝️ Consider running in a sandboxed environment"
           (pushRecommendation
              "🔍 Perform additional analysis before execution"
              (pushRecommendation "⚠️ Exercise caution with this file" result)))
  | CLEAN =>
      pushRecommendation "📊 Continue monitoring file behavior"
        (pushRecommendation "🔄 Regular scans recommended"
           (pushRecommendation "✅ File appears to be clean" result))
  end.

Definition severityScore (s : Severity) : Z :=
  match s with
  | SevLOW => 10
  | SevMEDIUM => 25
  | SevHIGH => 50
  | SevCRITICAL => 80
  end.

(** One turn of the loop over [allDetections]: the running [riskScore] and
    [maxSeverity] (which the method computes and never reads).  The sum is
    kept exact.  On the detections the stages of this class create, whose
    confidences are the integer literals of the code, the double-precision
    sum rounds to the same integer: the only product that is not exact in
    binary is 80 * 0.98, and no sum that contains it comes within 0.1 of a
    half. *)
Definition riskStep (acc : Q * ThreatLevel) (detection : DetectionResult.t)
  : Q * ThreatLevel :=
  let (riskScore, maxSeverity) := acc in
  let riskScore :=
    (riskScore +
     inject_Z (severityScore (DetectionResult.severity detection)) *
     (inject_Z (DetectionResult.confidence detection) / 100))%Q in
  let maxSeverity :=
    match DetectionResult.severity detection with
    | SevCRITICAL => CRITICAL
    | SevHIGH =>
        if bool_decide (maxSeverity ≠ CRITICAL) then MALICIOUS else maxSeverity
    | SevMEDIUM =>
        if negb (bool_decide (maxSeverity ∈ [CRITICAL; MALICIOUS]))
        then SUSPICIOUS else maxSeverity
    | SevLOW => maxSeverity
    end in
  (riskScore, maxSeverity).

Definition allDetections (result : t) : list DetectionResult.t :=
  Detections.malwareSignatures (detections result) ++
  Detections.suspiciousPatterns (detections result) ++
  Detections.fileIntegrity (detections result) ++
  Detections.behaviorAnalysis (detections result).

Definition calculateFinalRisk (result : t) : t :=
  (* Calculate risk from all detections *)
  let (riskScore, maxSeverity) :=
    fold_left riskStep (allDetections result) (0%Q, CLEAN) in
  let result := setRiskScore (Z.min (mathRound riskScore) 100) result in
  (* Determine overall threat level *)
  let result :=
    if (80 <=? FileAnalysisResult.riskScore result)%Z then
      setOverallThreat CRITICAL result
    else if (60 <=? FileAnalysisResult.riskScore result)%Z then
      setOverallThreat MALICIOUS result
    else if (30 <=? FileAnalysisResult.riskScore result)%Z then
      setOverallThreat SUSPICIOUS result
    else setOverallThreat CLEAN result in
  (* Generate recommendations *)
  generateRecommendations result.

(** One pass through the body of
    [for (let progress = 10; progress <= 100; progress += 20)]. *)
Definition scanStage (progress : Z) (result : t) : M t :=
  delay 300 ;;;
  let result := setScanProgress progress result in
  (* Perform different scan stages *)
  result <-
    (if (progress =? 30)%Z then scanForMalwareSignatures result
     else if (progress =? 50)%Z then scanForSuspiciousPatterns result
     else if (progress =? 70)%Z then analyzeFileIntegrity result
     else if (progress =? 90)%Z then performBehaviorAnalysis result
     else ret result) ;;
  notifyListeners result ;;;
  ret result.

(** The loop itself; [fuel] bounds the number of passes. *)
Fixpoint scanLoop (fuel : nat) (progress : Z) (result : t) : M t :=
  match fuel with
  | O => ret result
  | S fuel' =>
      if (progress <=? 100)%Z then
        result <- scanStage progress result ;;
        scanLoop fuel' (progress + 20)%Z result
      else ret result
  end.

(** More passes than the loop can make from 10 in steps of 20
    (see [scanLoop_fuel]). *)
Definition scanFuel : nat := 100.

Definition analyzeFile (file : UploadedFile.t) : M t :=
  now <- dateNow ;;
  salt <- mathRandom ;;
  startTime <- dateNow ;;
  draw <- mathRandom ;;
  let result :=
    mk (IdSalted "analysis" now salt) file SCANNING CLEAN 0 0 startTime None
      (Detections.mk [] [] [] [])
      (FileProperties.mk
         (if truthy (UploadedFile.type file) then UploadedFile.type file
          else "unknown")
         (detectFileType (UploadedFile.name file))
         (UploadedFile.size file) (draw * 8)%Q false false [])
      []
      (ThreatIntelligence.mk false None None COMMON) in
  notifyListeners result ;;;
  (* Simulate scanning progress *)
  result <- scanLoop scanFuel 10 result ;;
  (* Calculate final risk score and threat level *)
  let result := calculateFinalRisk result in
  let result := setStatus COMPLETED result in
  endTime <- dateNow ;;
  let result := setEndTime endTime result in
  notifyListeners result ;;;
  ret result.

End Engine.

Section Sessions.
Import ScanSession.

(** The body of the loop of [analyzeFiles] after [analyzeFile] returned. *)
Definition recordResult (session : t) (result : FileAnalysisResult.t) : t :=
  let session :=
    mk (id session) (files session ++ [result]) (startTime session)
      (totalFiles session) (completedFiles session) (threatsFound session)
      (cleanFiles session) in
  let session :=
    if bool_decide (FileAnalysisResult.overallThreat result ≠ CLEAN) then
      mk (id session) (files session) (startTime session)
        (totalFiles session) (completedFiles session)
        (threatsFound session + 1)%Z (cleanFiles session)
    else
      mk (id session) (files session) (startTime session)
        (totalFiles session) (completedFiles session)
        (threatsFound session) (cleanFiles session + 1)%Z in
  mk (id session) (files session) (startTime session)
    (totalFiles session) (completedFiles session + 1)%Z
    (threatsFound session) (cleanFiles session).

(** [analyzeFiles].  The session object is also put in [activeSessions]
    for [getSession]; that second handle to the same object is not part of
    the model. *)
Definition analyzeFiles (files : list UploadedFile.t) : M Ident :=
  now <- dateNow ;;
  let sessionId := IdStamp "session" now in
  startTime <- dateNow ;;
  let session :=
    mk sessionId [] startTime (Z.of_nat (length files)) 0 0 0 in
  notifySessionListeners session ;;;
  (* Analyze each file *)
  forOf files (fun session file =>
    result <- analyzeFile file ;;
    let session := recordResult session result in
    notifySessionListeners session ;;;
    ret session) session ;;;
  ret sessionId.

End Sessions.

(* ================================================================== *)
(** ** [ScanHistoryManager] *)
(* ================================================================== *)

Definition MAX_HISTORY_ITEMS : nat := 1000.

(** How a method that may throw ends. *)
Inductive Completion : Type :=
  | Returns
  | Throws (error : JsError).

Section History.
Import HistoricalScan.

Definition setTags (v : list string) (scan : t) : t :=
  mk (id scan) (sessionId scan) (timestamp scan) (totalFiles scan)
    (threatsFound scan) (cleanFiles scan) (avgRiskScore scan) (duration scan)
    (results scan) v (notes scan).

(** The risk-level tag of one result. *)
Definition riskTag (riskScore : Z) : string :=
  if (80 <=? riskScore)%Z then "critical-risk"
  else if (60 <=? riskScore)%Z then "high-risk"
  else if (30 <=? riskScore)%Z then "medium-risk"
  else "low-risk".

(** The body of the loop of [generateAutoTags], on the set built so far. *)
Definition autoTagsOf (tags : list string) (result : FileAnalysisResult.t)
  : list string :=
  (* Add threat level tag *)
  let tags :=
    setAdd (toLowerCase (threatName (FileAnalysisResult.overallThreat result)))
      tags in
  (* Add file type tags *)
  let extension :=
    toLowerCase <$>
      pop (split "." (UploadedFile.name (FileAnalysisResult.file result))) in
  let tags :=
    match extension with
    | Some ext => if truthy ext then setAdd ("file-" ++ ext) tags else tags
    | None => tags
    end in
  (* Add risk level tags *)
  let tags := setAdd (riskTag (FileAnalysisResult.riskScore result)) tags in
  (* Add detection type tags *)
  let ds := FileAnalysisResult.detections result in
  let tags :=
    if (0 <? length (Detections.malwareSignatures ds))%nat
    then setAdd "malware-detected" tags else tags in
  let tags :=
    if (0 <? length (Detections.suspiciousPatterns ds))%nat
    then setAdd "suspicious-patterns" tags else tags in
  let tags :=
    if (0 <? length (Detections.fileIntegrity ds))%nat
    then setAdd "integrity-issues" tags else tags in
  if (0 <? length (Detections.behaviorAnalysis ds))%nat
  then setAdd "behavioral-threats" tags else tags.

Definition generateAutoTags (results : list FileAnalysisResult.t)
  : list string :=
  fold_left autoTagsOf results [].

Definition getHistory : M (list t) := fun w =>
  match item w with
  | NoItem => ret [] w
  | BadItem => (consoleError "Error loading scan history:" ;;; ret []) w
  | ItemDoc doc => ret doc w
  end.

(** [localStorage.setItem(this.STORAGE_KEY, JSON.stringify(history))]:
    throws what [setItemError] says, stores the text otherwise. *)
Definition setItem (history : list t) : M Completion := fun w =>
  match setItemError w history with
  | Some error => (Throws error, w)
  | None => (setStored (ItemDoc history) ;;; ret Returns) w
  end.

Definition saveHistory (history : list t) : M Completion :=
  attempt <- setItem history ;;
  match attempt with
  | Returns => ret Returns
  | Throws error =>
      consoleError "Error saving scan history:" ;;;
      (* If storage is full, try to make space by removing oldest entries *)
      if String.eqb (errorName error) "QuotaExceededError" then
        let reduced := take (length history / 2) history in
        setItem reduced
      else ret Returns
  end.

(** The statistics [saveHistoricalScan] computes from [results].  The sum
    of the scores is an integer and the quotient is kept exact; for scores
    between 0 and 100 the double-precision quotient rounds to the same
    integer. *)
Definition countThreats (results : list FileAnalysisResult.t) : Z :=
  Z.of_nat
    (length (filter (fun r => FileAnalysisResult.overallThreat r ≠ CLEAN)
               results)).

Definition countClean (results : list FileAnalysisResult.t) : Z :=
  Z.of_nat
    (length (filter (fun r => FileAnalysisResult.overallThreat r = CLEAN)
               results)).

Definition averageRisk (results : list FileAnalysisResult.t) : Z :=
  if (0 <? length results)%nat then
    mathRound
      (inject_Z
         (fold_left (fun sum r => (sum + FileAnalysisResult.riskScore r)%Z)
            results 0%Z)
       / inject_Z (Z.of_nat (length results)))
  else 0%Z.

Definition scanDuration (session : ScanSession.t)
  (results : list FileAnalysisResult.t) : Z :=
  match results with
  | first :: _ =>
      match FileAnalysisResult.endTime first with
      | Some endTime =>
          mathRound (inject_Z (endTime - ScanSession.startTime session) / 1000)
      | None => 0%Z
      end
  | [] => 0%Z
  end.

(** The object [const historicalScan = { ... }] of [saveHistoricalScan];
    [now] and [salt] are the values of [Date.now()] and [Math.random()]
    that go into its [id]. *)
Definition historicalScan (session : ScanSession.t)
  (results : list FileAnalysisResult.t) (now : Z) (salt : Q) : t :=
  (* Calculate actual statistics from results *)
  let threatsFound := countThreats results in
  let cleanFiles := countClean results in
  let avgRiskScore := averageRisk results in
  mk (IdSalted "hist" now salt) (ScanSession.id session)
    (ScanSession.startTime session) (Z.of_nat (length results))
    threatsFound cleanFiles avgRiskScore (scanDuration session results)
    (map stripContent results) (generateAutoTags results) None.

Definition saveHistoricalScan (session : ScanSession.t)
  (results : list FileAnalysisResult.t) : M Completion :=
  now <- dateNow ;;
  salt <- mathRandom ;;
  let historicalScan := historicalScan session results now salt in
  history <- getHistory ;;
  let history := historicalScan :: history in
  (* Keep only the most recent items *)
  let history :=
    if (MAX_HISTORY_ITEMS <? length history)%nat
    then take MAX_HISTORY_ITEMS history else history in
  saveHistory history.

Definition filterHistoryByThreatLevel (threatLevel : string) : M (list t) :=
  history <- getHistory ;;
  if String.eqb threatLevel "ALL" then ret history
  else
    ret (filter (fun scan =>
           Exists (fun result =>
             threatName (FileAnalysisResult.overallThreat result) = threatLevel)
             (results scan)) history).

Definition addTagsToScan (scanId : Ident) (newTags : list string)
  : M Completion :=
  history <- getHistory ;;
  match list_find (fun scan => id scan = scanId) history with
  | Some (scanIndex, scan) =>
      saveHistory
        (<[scanIndex := setTags (setOf (tags scan ++ newTags)) scan]> history)
  | None => ret Returns
  end.

End History.

(* ================================================================== *)
(** ** [ScanHistoryManager], the other methods *)
(* ================================================================== *)

(** [ScanHistoryStats] and its two nested objects. *)
Module MostDangerousFile.
Record t : Type := mk {
  name : string;
  riskScore : Z;
  timestamp : Z
}.
End MostDangerousFile.

Module ScanFrequency.
Record t : Type := mk {
  today : Z;
  thisWeek : Z;
  thisMonth : Z
}.
End ScanFrequency.

Module ScanHistoryStats.
Record t : Type := mk {
  totalScans : Z;
  totalFilesScanned : Z;
  totalThreatsFound : Z;
  avgRiskScore : Z;
  mostDangerousFile : option MostDangerousFile.t;
  scanFrequency : ScanFrequency.t
}.
End ScanHistoryStats.

Section HistoryQueries.
Import HistoricalScan.

Definition setNotes (v : string) (scan : t) : t :=
  mk (id scan) (sessionId scan) (timestamp scan) (totalFiles scan)
    (threatsFound scan) (cleanFiles scan) (avgRiskScore scan) (duration scan)
    (results scan) (tags scan) (Some v).

(** [24 * 60 * 60 * 1000], the milliseconds of a day. *)
Definition dayMs : Z := 24 * 60 * 60 * 1000.

(** The body of the inner loop that looks for the most dangerous file:
    the pair is [mostDangerousFile] and [maxRiskScore]. *)
Definition dangerStep (scanTimestamp : Z)
  (acc : option MostDangerousFile.t * Z) (result : FileAnalysisResult.t)
  : option MostDangerousFile.t * Z :=
  let (mostDangerousFile, maxRiskScore) := acc in
  if (maxRiskScore <? FileAnalysisResult.riskScore result)%Z then
    (Some (MostDangerousFile.mk
             (UploadedFile.name (FileAnalysisResult.file result))
             (FileAnalysisResult.riskScore result) scanTimestamp),
     FileAnalysisResult.riskScore result)
  else (mostDangerousFile, maxRiskScore).

(** The two nested loops, over the scans and over their results. *)
Definition findMostDangerous (history : list t)
  : option MostDangerousFile.t * Z :=
  fold_left
    (fun acc scan => fold_left (dangerStep (timestamp scan)) (results scan) acc)
    history (None, 0%Z).

(** The loop that adds up [totalRiskSum] and [totalFileCount]. *)
Definition weightedStep (acc : Z * Z) (scan : t) : Z * Z :=
  let (totalRiskSum, totalFileCount) := acc in
  ((totalRiskSum + avgRiskScore scan * totalFiles scan)%Z,
   (totalFileCount + totalFiles scan)%Z).

(** [history.filter(scan => scan.timestamp >= since).length] *)
Definition scansSince (since : Z) (history : list t) : Z :=
  Z.of_nat (length (filter (fun scan => (since <= timestamp scan)%Z) history)).

(** [getHistoryStats].  [startOfDay now] stands for
    [new Date(now.getFullYear(), now.getMonth(), now.getDate())], the local
    midnight before [now], which depends on the time zone of the browser.
    The quotient of the weighted average is kept exact, as in
    [averageRisk]. *)
Definition getHistoryStats (startOfDay : Z -> Z) : M ScanHistoryStats.t :=
  history <- getHistory ;;
  now <- dateNow ;;
  let today := startOfDay now in
  let thisWeek := (today - 7 * dayMs)%Z in
  let thisMonth := (today - 30 * dayMs)%Z in
  let totalFilesScanned :=
    fold_left (fun sum scan => (sum + totalFiles scan)%Z) history 0%Z in
  let totalThreatsFound :=
    fold_left (fun sum scan => (sum + threatsFound scan)%Z) history 0%Z in
  (* Calculate weighted average risk score based on all files *)
  let (totalRiskSum, totalFileCount) :=
    fold_left weightedStep history (0%Z, 0%Z) in
  let overallAvgRiskScore :=
    if (0 <? totalFileCount)%Z
    then mathRound (inject_Z totalRiskSum / inject_Z totalFileCount)
    else 0%Z in
  (* Find most dangerous file *)
  let mostDangerousFile := fst (findMostDangerous history) in
  ret (ScanHistoryStats.mk (Z.of_nat (length history)) totalFilesScanned
         totalThreatsFound overallAvgRiskScore mostDangerousFile
         (ScanFrequency.mk (scansSince today history)
            (scansSince thisWeek history) (scansSince thisMonth history))).

(** The test of the filter of [searchHistory] on one scan. *)
Definition searchMatches (searchTerm : string) (scan : t) : bool :=
  existsb (fun result =>
      includes
        (toLowerCase (UploadedFile.name (FileAnalysisResult.file result)))
        searchTerm
      || includes
           (toLowerCase (threatName (FileAnalysisResult.overallThreat result)))
           searchTerm)
    (results scan)
  || existsb (fun tag => includes (toLowerCase tag) searchTerm) (tags scan)
  || match notes scan with
     | Some text => truthy text && includes (toLowerCase text) searchTerm
     | None => false
     end.

Definition searchHistory (query : string) : M (list t) :=
  history <- getHistory ;;
  let searchTerm := toLowerCase query in
  ret (filter (fun scan => searchMatches searchTerm scan = true) history).

Definition filterHistoryByDateRange (startDate endDate : Z) : M (list t) :=
  history <- getHistory ;;
  ret (filter (fun scan =>
         (startDate <= timestamp scan)%Z ∧ (timestamp scan <= endDate)%Z)
         history).

Definition deleteHistoricalScan (scanId : Ident) : M Completion :=
  history <- getHistory ;;
  let filtered := filter (fun scan => id scan ≠ scanId) history in
  saveHistory filtered.

(** [localStorage.removeItem(this.STORAGE_KEY)] *)
Definition clearAllHistory : M unit := setStored NoItem.

Definition addNotesToScan (scanId : Ident) (text : string) : M Completion :=
  history <- getHistory ;;
  match list_find (fun scan => id scan = scanId) history with
  | Some (scanIndex, scan) =>
      saveHistory (<[scanIndex := setNotes text scan]> history)
  | None => ret Returns
  end.

End HistoryQueries.


(* ================================================================== *)
(** ** Predicates used in the statements *)
(* ================================================================== *)

(** [m], run in [w], returns a value and leaves a world that satisfy [Q]. *)
Definition post {A : Type} (m : M A) (w : World) (Q : A -> World -> Prop)
  : Prop :=
  Q (fst (m w)) (snd (m w)).

(** A confidence that is a percentage from 0 up. *)
Definition confidenceOK (d : DetectionResult.t) : Prop :=
  (0 <= DetectionResult.confidence d)%Z.

(** What a scan stage leaves alone: it calls no listener, and it keeps the
    file, the status, the progress, the score and the classification of the
    result; the detections it adds carry confidences from 0 up. *)
Definition stageKeeps (r0 : FileAnalysisResult.t) (w0 : World)
  (r : FileAnalysisResult.t) (w : World) : Prop :=
  analysisUpdates w = analysisUpdates w0 ∧
  sessionUpdates w = sessionUpdates w0 ∧
  FileAnalysisResult.file r = FileAnalysisResult.file r0 ∧
  FileAnalysisResult.status r = FileAnalysisResult.status r0 ∧
  FileAnalysisResult.overallThreat r = FileAnalysisResult.overallThreat r0 ∧
  FileAnalysisResult.riskScore r = FileAnalysisResult.riskScore r0 ∧
  FileAnalysisResult.scanProgress r = FileAnalysisResult.scanProgress r0 ∧
  (Forall confidenceOK (allDetections r0) →
   Forall confidenceOK (allDetections r)).

(** A result as the listeners see it while the scan of [f] runs, at
    progress [p]: not yet classified, not yet scored. *)
Definition scanning (f : UploadedFile.t) (p : Z) (r : FileAnalysisResult.t)
  : Prop :=
  FileAnalysisResult.file r = f ∧
  FileAnalysisResult.status r = SCANNING ∧
  FileAnalysisResult.overallThreat r = CLEAN ∧
  FileAnalysisResult.riskScore r = 0%Z ∧
  FileAnalysisResult.scanProgress r = p ∧
  Forall confidenceOK (allDetections r).

(** The breakpoints of the classification, in the words of the
    specification: "score ≥ 80 → critical; ≥ 60 → malicious; ≥ 30 →
    suspicious; else clean". *)
Definition classify (score : Z) : ThreatLevel :=
  if decide (80 <= score)%Z then CRITICAL
  else if decide (60 <= score)%Z then MALICIOUS
  else if decide (30 <= score)%Z then SUSPICIOUS
  else CLEAN.

(** The severity scale "clean < suspicious < malicious < critical". *)
Definition severityRank (t : ThreatLevel) : nat :=
  match t with
  | CLEAN => 0
  | SUSPICIOUS => 1
  | MALICIOUS => 2
  | CRITICAL => 3
  end.

(** The relation between the counters that the specification states of
    every published session. *)
Definition countersOK (s : ScanSession.t) : Prop :=
  (ScanSession.threatsFound s + ScanSession.cleanFiles s
     <= ScanSession.completedFiles s)%Z ∧
  (ScanSession.completedFiles s <= ScanSession.totalFiles s)%Z ∧
  (ScanSession.completedFiles s = ScanSession.totalFiles s →
   (ScanSession.threatsFound s + ScanSession.cleanFiles s)%Z
     = ScanSession.completedFiles s).

(* ================================================================== *)
(** ** The statistics of an entry, in the words of the specification *)
(* ================================================================== *)

(** "count(classification ≠ clean)" and the count of clean outcomes. *)
Definition isClean (c : ThreatLevel) : bool :=
  match c with CLEAN => true | _ => false end.

Fixpoint countOutcomes (p : ThreatLevel -> bool)
  (outcomes : list FileAnalysisResult.t) : Z :=
  match outcomes with
  | [] => 0
  | o :: rest =>
      ((if p (FileAnalysisResult.overallThreat o) then 1 else 0)
       + countOutcomes p rest)%Z
  end.

(** "arithmetic mean of per-file risk scores" *)
Fixpoint riskSum (outcomes : list FileAnalysisResult.t) : Z :=
  match outcomes with
  | [] => 0
  | o :: rest => (FileAnalysisResult.riskScore o + riskSum rest)%Z
  end.

Definition meanRisk (outcomes : list FileAnalysisResult.t) : Q :=
  inject_Z (riskSum outcomes) / inject_Z (Z.of_nat (length outcomes)).

(** "rounded": [n] is the integer nearest to [x], a half going up. *)
Definition roundedTo (x : Q) (n : Z) : Prop :=
  (inject_Z n - (1 # 2) <= x)%Q ∧ (x < inject_Z n + (1 # 2))%Q.

(* ================================================================== *)
(** ** Sample inputs *)
(* ================================================================== *)

(** The session and the results of the "Add Test Data" button of
    [LiveFileAnalysis.tsx]; the click is taken to happen at [testTime]. *)
Definition testTime : Z := 1700000000000.

Definition testSession : ScanSession.t :=
  ScanSession.mk (IdLit "test_session") [] testTime 3 3 1 2.

Definition testResults : list FileAnalysisResult.t :=
  [FileAnalysisResult.mk (IdLit "test1")
     (UploadedFile.mk (IdLit "1") "document.pdf" 1024 "pdf" testTime None
        "abc123")
     COMPLETED CLEAN 15 100 testTime (Some testTime)
     (Detections.mk [] [] [] [])
     (FileProperties.mk "pdf" "pdf" 1024 (32 # 10) false false [])
     ["File appears clean"]
     (ThreatIntelligence.mk false None None COMMON);
   FileAnalysisResult.mk (IdLit "test2")
     (UploadedFile.mk (IdLit "2") "suspicious.exe" 2048 "exe" testTime None
        "def456")
     COMPLETED MALICIOUS 85 100 testTime (Some testTime)
     (Detections.mk [] [] [] [])
     (FileProperties.mk "exe" "exe" 2048 (78 # 10) false true [])
     ["Do not execute"]
     (ThreatIntelligence.mk true None None RARE)].

(** A browser whose storage takes every write, with a given stored item. *)
Definition roomyWorld (stored : Item) : World :=
  mkWorld (fun _ => 1 # 2) 0 testTime stored (fun _ => None) [] [] [].

(** A browser whose storage quota is used up: only an empty history still
    fits. *)
Definition fullWorld (stored : Item) : World :=
  mkWorld (fun _ => 1 # 2) 0 testTime stored
    (fun doc =>
       match doc with
       | [] => None
       | _ :: _ => Some (mkError "QuotaExceededError")
       end)
    [] [] [].

(** The entry the test button records, and an older one. *)
Definition testScan : HistoricalScan.t :=
  historicalScan testSession testResults testTime (1 # 2).

Definition olderScan : HistoricalScan.t :=
  historicalScan testSession [] (testTime - 1000) (1 # 4).

(** The three files of the scenario of the specification, with the type a
    browser reports for them and the hash the upload page computes (the
    first eight bytes in hexadecimal). *)
Definition docPdf : UploadedFile.t :=
  UploadedFile.mk (IdLit "file_1") "doc.pdf" 51200 "application/pdf" testTime
    None "255044462d312e34".

Definition noteTxt : UploadedFile.t :=
  UploadedFile.mk (IdLit "file_2") "note.txt" 10240 "text/plain" testTime
    None "68656c6c6f20776f".

Definition backdoorExe : UploadedFile.t :=
  UploadedFile.mk (IdLit "file_3") "backdoor.exe" 2048
    "application/x-msdownload" testTime None "4d5a900003000000".

Definition scenarioFiles : list UploadedFile.t :=
  [docPdf; noteTxt; backdoorExe].

(** A browser at the start of a scan, [Math.random()] giving [rand n] on
    its [n]-th call. *)
Definition freshWorld (rand : nat -> Q) : World :=
  mkWorld rand 0 testTime NoItem (fun _ => None) [] [] [].

(** A run in which every call of [Math.random()] gives 0.95. *)
Definition unluckyWorld : World := freshWorld (fun _ => 19 # 20).

(** The scenario as the specification words it, for the run from [w]. *)
Definition scenarioAsStated (w : World) : Prop :=
  ∃ s r1 r2 r3,
    last (sessionUpdates (snd (analyzeFiles scenarioFiles w))) = Some s ∧
    ScanSession.files s = [r1; r2; r3] ∧
    FileAnalysisResult.overallThreat r1 = CLEAN ∧
    FileAnalysisResult.overallThreat r2 = CLEAN ∧
    (severityRank CLEAN < severityRank (FileAnalysisResult.overallThreat r3))%nat ∧
    ScanSession.threatsFound s = 1%Z ∧
    ScanSession.cleanFiles s = 2%Z ∧
    ScanSession.completedFiles s = 3%Z.

(** What the two random detections do to a file that has nothing else
    against it. *)
Definition cleanUnlessBothRandom (r : FileAnalysisResult.t) : Prop :=
  let ds := FileAnalysisResult.detections r in
  (FileAnalysisResult.overallThreat r = CLEAN ∨
   FileAnalysisResult.overallThreat r = SUSPICIOUS) ∧
  (FileAnalysisResult.overallThreat r = SUSPICIOUS ↔
   Detections.fileIntegrity ds ≠ [] ∧ Detections.behaviorAnalysis ds ≠ []).

Definition aboveSuspicious (r : FileAnalysisResult.t) : Prop :=
  FileAnalysisResult.overallThreat r = MALICIOUS ∨
  FileAnalysisResult.overallThreat r = CRITICAL.

(** 1 for a result that counts as a threat, 0 for a clean one. *)
Definition flagged (r : FileAnalysisResult.t) : Z :=
  if bool_decide (FileAnalysisResult.overallThreat r = CLEAN) then 0 else 1.

(* ================================================================== *)
(** ** The history store and its clients *)
(* ================================================================== *)

(** The history the stored item stands for: what [getHistory] returns. *)
Definition storedHistory (w : World) : list HistoricalScan.t :=
  match item w with
  | ItemDoc doc => doc
  | NoItem | BadItem => []
  end.

(** The counters of an entry agree with the results kept in it. *)
Definition entryConsistent (scan : HistoricalScan.t) : Prop :=
  HistoricalScan.totalFiles scan
    = Z.of_nat (length (HistoricalScan.results scan)) ∧
  HistoricalScan.threatsFound scan
    = countThreats (HistoricalScan.results scan) ∧
  HistoricalScan.cleanFiles scan
    = countClean (HistoricalScan.results scan) ∧
  HistoricalScan.avgRiskScore scan
    = averageRisk (HistoricalScan.results scan).

Definition storeOK (w : World) : Prop :=
  Forall entryConsistent (storedHistory w) ∧
  (length (storedHistory w) <= MAX_HISTORY_ITEMS)%nat.

(** The calls a page can make that write to the store. *)
Inductive HistoryCall : Type :=
  | CallSave (session : ScanSession.t) (results : list FileAnalysisResult.t)
  | CallDelete (scanId : Ident)
  | CallClear
  | CallAddNotes (scanId : Ident) (text : string)
  | CallAddTags (scanId : Ident) (newTags : list string).

(** One call; a call that throws leaves the page with the store as the
    method left it. *)
Definition runCall (c : HistoryCall) : M unit :=
  match c with
  | CallSave session results => saveHistoricalScan session results ;;; ret tt
  | CallDelete scanId => deleteHistoricalScan scanId ;;; ret tt
  | CallClear => clearAllHistory
  | CallAddNotes scanId text => addNotesToScan scanId text ;;; ret tt
  | CallAddTags scanId newTags => addTagsToScan scanId newTags ;;; ret tt
  end.

Definition runCalls (cs : list HistoryCall) : M unit :=
  forOf cs (fun _ c => runCall c) tt.

(** Every result of a history has a score of at most [bound]. *)
Definition scoresAtMost (bound : Z) (history : list HistoricalScan.t) : Prop :=
  Forall (fun scan =>
            Forall (fun result =>
                      (FileAnalysisResult.riskScore result <= bound)%Z)
              (HistoricalScan.results scan))
    history.

(** The world in which [saveHistoricalScan] calls [saveHistory]. *)
Definition beforeWrite (w : World) : World :=
  snd (getHistory (snd (mathRandom w))).

(** The invariant of the two loops that look for the most dangerous
    file. *)
Definition dangerInv (seen : list HistoricalScan.t)
  (acc : option MostDangerousFile.t * Z) : Prop :=
  scoresAtMost (snd acc) seen ∧
  match fst acc with
  | None => snd acc = 0%Z
  | Some f =>
      MostDangerousFile.riskScore f = snd acc ∧ (0 < snd acc)%Z ∧
      ∃ scan result,
        scan ∈ seen ∧ result ∈ HistoricalScan.results scan ∧
        MostDangerousFile.name f
          = UploadedFile.name (FileAnalysisResult.file result) ∧
        MostDangerousFile.riskScore f = FileAnalysisResult.riskScore result ∧
        MostDangerousFile.timestamp f = HistoricalScan.timestamp scan
  end.

(** A browser that refuses every write to the storage with a
    [SecurityError]. *)
Definition lockedWorld (stored : Item) : World :=
  mkWorld (fun _ => 1 # 2) 0 testTime stored
    (fun _ => Some (mkError "SecurityError")) [] [] [].

(* ================================================================== *)
(** ** Invariants of the scan stages *)
(* ================================================================== *)

(** The object [const result: FileAnalysisResult = { ... }] that
    [analyzeFile] starts from. *)
Definition initialResult (file : UploadedFile.t) (ident : Ident)
  (startTime : Z) (entropy : Q) : FileAnalysisResult.t :=
  FileAnalysisResult.mk ident file SCANNING CLEAN 0 0 startTime None
    (Detections.mk [] [] [] [])
    (FileProperties.mk
       (if truthy (UploadedFile.type file) then UploadedFile.type file
        else "unknown")
       (detectFileType (UploadedFile.name file))
       (UploadedFile.size file) entropy false false [])
    []
    (ThreatIntelligence.mk false None None COMMON).

(** A property of a result that the four stages keep: it survives every
    detection they add, the two flags they raise in [fileProperties], and
    the progress the loop sets. *)
Record StageInvariant (I : FileAnalysisResult.t -> Prop) : Prop :=
  mkStageInvariant {
  inv_malwareSignature : ∀ d r, I r → I (addMalwareSignature d r);
  inv_suspiciousPattern : ∀ d r, I r → I (addSuspiciousPattern d r);
  inv_fileIntegrity : ∀ d r, I r → I (addFileIntegrity d r);
  inv_behaviorAnalysis : ∀ d r, I r → I (addBehaviorAnalysis d r);
  inv_hasExecutableCode : ∀ r,
    I r →
    I (setFileProperties
         (setHasExecutableCode true (FileAnalysisResult.fileProperties r)) r);
  inv_isEncrypted : ∀ r,
    I r →
    I (setFileProperties
         (setIsEncrypted true (FileAnalysisResult.fileProperties r)) r);
  inv_scanProgress : ∀ p r, I r → I (setScanProgress p r)
}.

(** The three statements of the branch of [scanForMalwareSignatures] for a
    known hash, at the time [now]. *)
Definition flagKnownMalware (now : Z) (result : FileAnalysisResult.t)
  : FileAnalysisResult.t :=
  let file := FileAnalysisResult.file result in
  let result := addMalwareSignature
    (DetectionResult.mk (IdStamp "sig" now) "Known Malware Hash"
       SevCRITICAL "File hash matches known malware signature"
       ("Hash: " ++ UploadedFile.hash file) 98) result in
  let result := setThreatIntelligence
    (setKnownMalware true (FileAnalysisResult.threatIntelligence result))
    result in
  setThreatIntelligence
    (setFamilyName "Generic.Malware"
       (FileAnalysisResult.threatIntelligence result))
    result.

(** The summand of one detection in [calculateFinalRisk]. *)
Definition detectionRisk (d : DetectionResult.t) : Q :=
  inject_Z (severityScore (DetectionResult.severity d)) *
  (inject_Z (DetectionResult.confidence d) / 100).

(** The result has a malware-signature detection of this category,
    severity and confidence. *)
Definition hasSignature (category : string) (severity : Severity)
  (confidence : Z) (r : FileAnalysisResult.t) : Prop :=
  ∃ d, d ∈ Detections.malwareSignatures (FileAnalysisResult.detections r) ∧
       DetectionResult.category d = category ∧
       DetectionResult.severity d = severity ∧
       DetectionResult.confidence d = confidence.

(** The threat intelligence of a file flagged for its hash. *)
Definition flaggedKnown (r : FileAnalysisResult.t) : Prop :=
  ThreatIntelligence.knownMalware (FileAnalysisResult.threatIntelligence r)
    = true ∧
  ThreatIntelligence.familyName (FileAnalysisResult.threatIntelligence r)
    = Some "Generic.Malware".

(** What [analyzeFile] copies from the file into the result and never
    changes, and the recommendations still to be made. *)
Definition describes (f : UploadedFile.t) (r : FileAnalysisResult.t) : Prop :=
  FileAnalysisResult.file r = f ∧
  FileProperties.size (FileAnalysisResult.fileProperties r)
    = UploadedFile.size f ∧
  FileProperties.actualType (FileAnalysisResult.fileProperties r)
    = detectFileType (UploadedFile.name f) ∧
  FileAnalysisResult.recommendations r = [].

(** The sum of the summands of a list of detections. *)
Definition riskTotal (l : list DetectionResult.t) : Q :=
  fold_right (fun d total => (detectionRisk d + total)%Q) 0%Q l.

(* ================================================================== *)
(** ** The upload of [FileAnalysis.tsx] and [LiveFileAnalysis.tsx] *)
(* ================================================================== *)

(** What the pages read of a [File] of the browser; [buffer] is the
    content [file.arrayBuffer()] resolves to. *)
Module BrowserFile.
Record t : Type := mk {
  name : string;
  size : Z;
  type : string;
  buffer : list Byte.byte
}.
End BrowserFile.

(** The digit of [n] below 16 in [Number.prototype.toString(16)]. *)
Definition hexDigit (n : N) : ascii :=
  default "0"%char (list_ascii_of_string "0123456789abcdef" !! N.to_nat n).

(** [bytes[i].toString(16)] for an element of a [Uint8Array]. *)
Definition toString16 (byte : Byte.byte) : string :=
  let n := Byte.to_N byte in
  if (n <? 16)%N then String (hexDigit n) ""
  else String (hexDigit (n / 16)) (String (hexDigit (n mod 16)) "").

(** [generateFileHash], the same in both pages; the loop runs over the
    first [Math.min(bytes.length, 32)] bytes. *)
Definition generateFileHash (buffer : list Byte.byte) : string :=
  let bytes := buffer in
  let hash :=
    fold_left (fun hash byte => hash ++ padStart 2 (toString16 byte))
      (take (Nat.min (length bytes) 32) bytes) "" in
  substring 0 16 hash.

(** The callback of [files.map] in [processFiles]. *)
Definition toUploadedFile (file : BrowserFile.t) : M UploadedFile.t :=
  let buffer := BrowserFile.buffer file in
  let hash := generateFileHash buffer in
  now <- dateNow ;;
  salt <- mathRandom ;;
  uploadedAt <- dateNow ;;
  ret (UploadedFile.mk (IdSalted "file" now salt) (BrowserFile.name file)
         (BrowserFile.size file) (BrowserFile.type file) uploadedAt
         (Some buffer) hash).

(** Every character of [s] is a digit of the lower-case hexadecimal
    notation. *)
Fixpoint allHex (s : string) : bool :=
  match s with
  | EmptyString => true
  | String c s' =>
      bool_decide (c ∈ list_ascii_of_string "0123456789abcdef") && allHex s'
  end.

(** A file as some other client of the engine could submit it, with the
    first of the known malicious hashes. *)
Definition knownSample : UploadedFile.t :=
  UploadedFile.mk (IdLit "file_4") "report.pdf" 4096 "application/pdf"
    testTime None "a1b2c3d4e5f6789".

(* ================================================================== *)
(** ** The data model of [shared/threateye.ts] *)
(* ================================================================== *)

Module Protocol.
Inductive t : Type := TCP | UDP | HTTP | HTTPS.
End Protocol.

Module FileAction.
Inductive t : Type := CREATE | MODIFY | DELETE | ACCESS.
End FileAction.

Module IndicatorType.
Inductive t : Type := IP | DOMAIN | PROCESS | FILE_HASH.
End IndicatorType.

Module AnomalyType.
Inductive t : Type := NETWORK | FILE | PROCESS.
End AnomalyType.

Module UpdateType.
Inductive t : Type := SAFE | MALICIOUS.
End UpdateType.

Module UpdateStatus.
Inductive t : Type := RUNNING | COMPLETED | BLOCKED.
End UpdateStatus.

Module ResponseType.
Inductive t : Type :=
  BLOCK_NETWORK | KILL_PROCESS | ROLLBACK_UPDATE | QUARANTINE_FILE.
End ResponseType.

#[global] Instance UpdateStatus_eq_dec : EqDecision UpdateStatus.t.
Proof. solve_decision. Defined.

#[global] Instance ResponseType_eq_dec : EqDecision ResponseType.t.
Proof. solve_decision. Defined.

#[global] Instance AnomalyType_eq_dec : EqDecision AnomalyType.t.
Proof. solve_decision. Defined.

(** The fields read from an array at a random index are optional: the
    index is in range whenever [Math.random()] is, from 0 up and below 1,
    and the element is [undefined] otherwise. *)
Module NetworkActivity.
Record t : Type := mk {
  id : Ident;
  timestamp : Z;
  sourceIp : string;
  destIp : option string;
  domain : option string;
  port : option Z;
  protocol : option Protocol.t;
  dataSize : Z;
  isSuspicious : bool
}.
End NetworkActivity.

Module FileActivity.
Record t : Type := mk {
  id : Ident;
  timestamp : Z;
  path : option string;
  action : option FileAction.t;
  size : Z;
  checksum : string;
  isSystemFile : bool;
  isSuspicious : bool
}.
End FileActivity.

Module ProcessActivity.
Record t : Type := mk {
  id : Ident;
  timestamp : Z;
  processName : option string;
  pid : Z;
  parentPid : Z;
  cpuUsage : Q;
  memoryUsage : Q;
  isHidden : bool;
  isSuspicious : bool
}.
End ProcessActivity.

Module ThreatIndicator.
Record t : Type := mk {
  type : IndicatorType.t;
  value : string;
  severity : Severity;
  description : string
}.
End ThreatIndicator.

(** [NetworkActivity | FileActivity | ProcessActivity] *)
Inductive Evidence : Type :=
  | NetworkEvidence (a : NetworkActivity.t)
  | FileEvidence (a : FileActivity.t)
  | ProcessEvidence (a : ProcessActivity.t).

Module Anomaly.
Record t : Type := mk {
  (** [`anomaly_${Date.now()}_network`]: the time and the last word *)
  id : Z * string;
  timestamp : Z;
  type : AnomalyType.t;
  severity : Severity;
  score : Z;
  description : string;
  evidence : list Evidence;
  isBlocked : bool
}.
End Anomaly.

Module ResponseAction.
Record t : Type := mk {
  id : Ident;
  timestamp : Z;
  type : ResponseType.t;
  target : string;
  success : bool;
  description : string
}.
End ResponseAction.

Module Activities.
Record t : Type := mk {
  network : list NetworkActivity.t;
  files : list FileActivity.t;
  processes : list ProcessActivity.t
}.
End Activities.

Module UpdateSimulation.
Record t : Type := mk {
  id : Ident;
  type : UpdateType.t;
  name : string;
  version : string;
  status : UpdateStatus.t;
  startTime : Z;
  endTime : option Z;
  riskScore : Z;
  activities : Activities.t;
  anomalies : list Anomaly.t;
  actionsTriggered : list ResponseAction.t
}.
End UpdateSimulation.

Section SimulationFields.
Import UpdateSimulation.

Definition setSimulationStatus (v : UpdateStatus.t) (s : t) : t :=
  mk (id s) (type s) (name s) (version s) v (startTime s) (endTime s)
    (riskScore s) (activities s) (anomalies s) (actionsTriggered s).

Definition setSimulationEndTime (v : Z) (s : t) : t :=
  mk (id s) (type s) (name s) (version s) (status s) (startTime s) (Some v)
    (riskScore s) (activities s) (anomalies s) (actionsTriggered s).

Definition setSimulationRiskScore (v : Z) (s : t) : t :=
  mk (id s) (type s) (name s) (version s) (status s) (startTime s) (endTime s)
    v (activities s) (anomalies s) (actionsTriggered s).

(** [simulation.activities.network.push(networkActivity)] *)
Definition pushNetwork (a : NetworkActivity.t) (s : t) : t :=
  mk (id s) (type s) (name s) (version s) (status s) (startTime s) (endTime s)
    (riskScore s)
    (Activities.mk (Activities.network (activities s) ++ [a])
       (Activities.files (activities s)) (Activities.processes (activities s)))
    (anomalies s) (actionsTriggered s).

Definition pushFile (a : FileActivity.t) (s : t) : t :=
  mk (id s) (type s) (name s) (version s) (status s) (startTime s) (endTime s)
    (riskScore s)
    (Activities.mk (Activities.network (activities s))
       (Activities.files (activities s) ++ [a])
       (Activities.processes (activities s)))
    (anomalies s) (actionsTriggered s).

Definition pushProcess (a : ProcessActivity.t) (s : t) : t :=
  mk (id s) (type s) (name s) (version s) (status s) (startTime s) (endTime s)
    (riskScore s)
    (Activities.mk (Activities.network (activities s))
       (Activities.files (activities s))
       (Activities.processes (activities s) ++ [a]))
    (anomalies s) (actionsTriggered s).

(** [simulation.anomalies.push(...newAnomalies)] *)
Definition pushAnomalies (l : list Anomaly.t) (s : t) : t :=
  mk (id s) (type s) (name s) (version s) (status s) (startTime s) (endTime s)
    (riskScore s) (activities s) (anomalies s ++ l) (actionsTriggered s).

(** [simulation.actionsTriggered.push(...actions)] *)
Definition pushActions (l : list ResponseAction.t) (s : t) : t :=
  mk (id s) (type s) (name s) (version s) (status s) (startTime s) (endTime s)
    (riskScore s) (activities s) (anomalies s) (actionsTriggered s ++ l).

End SimulationFields.

(* ================================================================== *)
(** ** [ThreatEyeEngine] *)
(* ================================================================== *)

Module ThreatEyeEngine.

Definition threatIntelligence : list ThreatIndicator.t :=
  [ThreatIndicator.mk IndicatorType.IP "185.220.101.47" SevCRITICAL
     "Known C2 server";
   ThreatIndicator.mk IndicatorType.IP "192.168.1.100" SevHIGH
     "Suspicious internal IP";
   ThreatIndicator.mk IndicatorType.DOMAIN "malware-c2.evil.com" SevCRITICAL
     "Malware command and control";
   ThreatIndicator.mk IndicatorType.DOMAIN "data-exfil.suspicious.net" SevHIGH
     "Data exfiltration domain";
   ThreatIndicator.mk IndicatorType.PROCESS "cryptominer.exe" SevHIGH
     "Cryptocurrency miner";
   ThreatIndicator.mk IndicatorType.PROCESS "backdoor.exe" SevCRITICAL
     "Known backdoor process";
   ThreatIndicator.mk IndicatorType.FILE_HASH "a1b2c3d4e5f6" SevCRITICAL
     "Malware hash signature"].

(** The state of the engine beside the browser: what its own listeners
    were called with, oldest first. *)
Record EngineWorld : Type := mkEngineWorld {
  browser : World;
  updates : list UpdateSimulation.t
}.

Definition ME (A : Type) : Type := EngineWorld -> A * EngineWorld.

Definition retE {A : Type} (a : A) : ME A := fun w => (a, w).

Definition bindE {A B : Type} (m : ME A) (k : A -> ME B) : ME B :=
  fun w => let r := m w in k (fst r) (snd r).

(** A step that only concerns the browser. *)
Definition liftM {A : Type} (m : M A) : ME A := fun w =>
  let r := m (browser w) in (fst r, mkEngineWorld (snd r) (updates w)).

(** The listeners are called with the object as it is at that moment. *)
Definition notifyListeners (update : UpdateSimulation.t) : ME unit := fun w =>
  (tt, mkEngineWorld (browser w) (updates w ++ [update])).

Fixpoint forOfE {A S : Type} (l : list A) (body : S -> A -> ME S) (s : S)
  : ME S :=
  match l with
  | [] => retE s
  | x :: l' => bindE (body s x) (forOfE l' body)
  end.

(** [array[Math.floor(Math.random() * array.length)]] *)
Definition pickFrom {A : Type} (array : list A) (random : Q) : option A :=
  let index := mathFloor (random * inject_Z (Z.of_nat (length array))) in
  if (index <? 0)%Z then None else array !! Z.to_nat index.

(** [t.value === x] for a field that may be [undefined]. *)
Definition valueIs (t : ThreatIndicator.t) (x : option string) : bool :=
  match x with
  | Some s => String.eqb (ThreatIndicator.value t) s
  | None => false
  end.

Definition isType (t : ThreatIndicator.t) (k : IndicatorType.t) : bool :=
  match ThreatIndicator.type t, k with
  | IndicatorType.IP, IndicatorType.IP
  | IndicatorType.DOMAIN, IndicatorType.DOMAIN
  | IndicatorType.PROCESS, IndicatorType.PROCESS
  | IndicatorType.FILE_HASH, IndicatorType.FILE_HASH => true
  | _, _ => false
  end.

Definition isCritical (t : ThreatIndicator.t) : bool :=
  match ThreatIndicator.severity t with SevCRITICAL => true | _ => false end.

Section Generators.

(** [base36 x] stands for [x.toString(36).substr(2, 12)], the first twelve
    digits of the fraction of [x] in base 36 as the browser prints them. *)
Variable base36 : Q -> string.

Definition generateSafeNetworkActivity : M NetworkActivity.t :=
  let safeIPs := ["8.8.8.8"; "1.1.1.1"; "208.67.222.222"; "76.76.76.76"] in
  let safeDomains :=
    ["google.com"; "microsoft.com"; "apple.com"; "ubuntu.com"] in
  now <- dateNow ;;
  salt <- mathRandom ;;
  timestamp <- dateNow ;;
  r1 <- mathRandom ;;
  r2 <- mathRandom ;;
  r3 <- mathRandom ;;
  r4 <- mathRandom ;;
  r5 <- mathRandom ;;
  ret (NetworkActivity.mk (IdSalted "net" now salt) timestamp "192.168.1.10"
         (pickFrom safeIPs r1) (pickFrom safeDomains r2)
         (pickFrom [80; 443; 53]%Z r3)
         (pickFrom [Protocol.HTTP; Protocol.HTTPS] r4)
         (mathFloor (r5 * 10000) + 1000)%Z false).

Definition generateMaliciousNetworkActivity : M NetworkActivity.t :=
  let maliciousIPs := ["185.220.101.47"; "192.168.1.100"; "45.33.32.156"] in
  let maliciousDomains :=
    ["malware-c2.evil.com"; "data-exfil.suspicious.net"; "botnet.dark.net"] in
  now <- dateNow ;;
  salt <- mathRandom ;;
  timestamp <- dateNow ;;
  r1 <- mathRandom ;;
  r2 <- mathRandom ;;
  r3 <- mathRandom ;;
  r4 <- mathRandom ;;
  r5 <- mathRandom ;;
  ret (NetworkActivity.mk (IdSalted "net" now salt) timestamp "192.168.1.10"
         (pickFrom maliciousIPs r1) (pickFrom maliciousDomains r2)
         (Some (mathFloor (r3 * 65535) + 1)%Z)
         (pickFrom [Protocol.TCP; Protocol.UDP] r4)
         (mathFloor (r5 * 100000) + 50000)%Z true).

Definition generateSafeFileActivity : M FileActivity.t :=
  let safePaths :=
    ["/tmp/update.log"; "/var/cache/app/data.tmp"; "/home/user/document.txt"] in
  let actions :=
    [FileAction.CREATE; FileAction.MODIFY; FileAction.ACCESS] in
  now <- dateNow ;;
  salt <- mathRandom ;;
  timestamp <- dateNow ;;
  r1 <- mathRandom ;;
  r2 <- mathRandom ;;
  r3 <- mathRandom ;;
  r4 <- mathRandom ;;
  ret (FileActivity.mk (IdSalted "file" now salt) timestamp
         (pickFrom safePaths r1) (pickFrom actions r2)
         (mathFloor (r3 * 10000) + 100)%Z (base36 r4) false false).

Definition generateMaliciousFileActivity : M FileActivity.t :=
  let maliciousPaths :=
    ["/System/Library/backdoor.so"; "/usr/bin/cryptominer";
     "/.hidden/payload.exe"] in
  let actions := [FileAction.CREATE; FileAction.MODIFY] in
  now <- dateNow ;;
  salt <- mathRandom ;;
  timestamp <- dateNow ;;
  r1 <- mathRandom ;;
  r2 <- mathRandom ;;
  r3 <- mathRandom ;;
  ret (FileActivity.mk (IdSalted "file" now salt) timestamp
         (pickFrom maliciousPaths r1) (pickFrom actions r2)
         (mathFloor (r3 * 100000) + 10000)%Z "a1b2c3d4e5f6" true true).

Definition generateSafeProcessActivity : M ProcessActivity.t :=
  let safeProcesses :=
    ["chrome.exe"; "firefox.exe"; "notepad.exe"; "explorer.exe"] in
  now <- dateNow ;;
  salt <- mathRandom ;;
  timestamp <- dateNow ;;
  r1 <- mathRandom ;;
  r2 <- mathRandom ;;
  r3 <- mathRandom ;;
  r4 <- mathRandom ;;
  r5 <- mathRandom ;;
  ret (ProcessActivity.mk (IdSalted "proc" now salt) timestamp
         (pickFrom safeProcesses r1)
         (mathFloor (r2 * 10000) + 1000)%Z (mathFloor (r3 * 1000) + 1)%Z
         (r4 * 20)%Q (r5 * 500 + 50)%Q false false).

Definition generateMaliciousProcessActivity : M ProcessActivity.t :=
  let maliciousProcesses :=
    ["cryptominer.exe"; "backdoor.exe"; "keylogger.exe"] in
  now <- dateNow ;;
  salt <- mathRandom ;;
  timestamp <- dateNow ;;
  r1 <- mathRandom ;;
  r2 <- mathRandom ;;
  r3 <- mathRandom ;;
  r4 <- mathRandom ;;
  r5 <- mathRandom ;;
  ret (ProcessActivity.mk (IdSalted "proc" now salt) timestamp
         (pickFrom maliciousProcesses r1)
         (mathFloor (r2 * 10000) + 1000)%Z (mathFloor (r3 * 1000) + 1)%Z
         (r4 * 80 + 20)%Q (r5 * 2000 + 500)%Q true true).

End Generators.

(** The three callbacks of [forEach] in [calculateRiskScore], on the pair
    of [score] and [totalActivities]. *)
Definition networkStep (acc : Z * Z) (activity : NetworkActivity.t) : Z * Z :=
  let (score, totalActivities) := acc in
  let totalActivities := (totalActivities + 1)%Z in
  let score :=
    if NetworkActivity.isSuspicious activity then (score + 25)%Z else score in
  (* Check against threat intelligence *)
  let threatMatch :=
    find (fun t =>
            (isType t IndicatorType.IP
             && valueIs t (NetworkActivity.destIp activity))
            || (isType t IndicatorType.DOMAIN
                && valueIs t (NetworkActivity.domain activity)))
      threatIntelligence in
  let score :=
    match threatMatch with
    | Some t => (score + (if isCritical t then 30 else 20))%Z
    | None => score
    end in
  (score, totalActivities).

Definition fileStep (acc : Z * Z) (activity : FileActivity.t) : Z * Z :=
  let (score, totalActivities) := acc in
  let totalActivities := (totalActivities + 1)%Z in
  let score :=
    if FileActivity.isSuspicious activity then (score + 20)%Z else score in
  let threatMatch :=
    find (fun t =>
            isType t IndicatorType.FILE_HASH
            && String.eqb (ThreatIndicator.value t)
                 (FileActivity.checksum activity))
      threatIntelligence in
  let score :=
    match threatMatch with
    | Some t => (score + (if isCritical t then 25 else 15))%Z
    | None => score
    end in
  (score, totalActivities).

Definition processStep (acc : Z * Z) (activity : ProcessActivity.t) : Z * Z :=
  let (score, totalActivities) := acc in
  let totalActivities := (totalActivities + 1)%Z in
  let score :=
    if ProcessActivity.isSuspicious activity then (score + 15)%Z else score in
  let score :=
    if ProcessActivity.isHidden activity then (score + 10)%Z else score in
  let threatMatch :=
    find (fun t =>
            isType t IndicatorType.PROCESS
            && valueIs t (ProcessActivity.processName activity))
      threatIntelligence in
  let score :=
    match threatMatch with
    | Some t => (score + (if isCritical t then 35 else 25))%Z
    | None => score
    end in
  (score, totalActivities).

(** [calculateRiskScore].  The score is an integer throughout; the ratio
    is kept exact, and a quotient of two counts of activities is above
    0.3 or 0.5 in double precision exactly when it is as a fraction. *)
Definition calculateRiskScore (simulation : UpdateSimulation.t) : Z :=
  let activities := UpdateSimulation.activities simulation in
  (* Check network activities *)
  let acc := fold_left networkStep (Activities.network activities) (0, 0)%Z in
  (* Check file activities *)
  let acc := fold_left fileStep (Activities.files activities) acc in
  (* Check process activities *)
  let (score, totalActivities) :=
    fold_left processStep (Activities.processes activities) acc in
  (* AI anomaly detection simulation (simple heuristic) *)
  let suspiciousRatio :=
    (inject_Z
       (Z.of_nat
          (length (filter (fun a => NetworkActivity.isSuspicious a = true)
                     (Activities.network activities))
           + length (filter (fun a => FileActivity.isSuspicious a = true)
                       (Activities.files activities))
           + length (filter (fun a => ProcessActivity.isSuspicious a = true)
                       (Activities.processes activities))))
     / inject_Z (Z.max totalActivities 1))%Q in
  let score := if gtQ suspiciousRatio (3 # 10) then (score + 20)%Z else score in
  let score := if gtQ suspiciousRatio (5 # 10) then (score + 30)%Z else score in
  Z.min (mathRound (inject_Z score)) 100.

Definition suspiciousNetwork (simulation : UpdateSimulation.t)
  : list NetworkActivity.t :=
  filter (fun a => NetworkActivity.isSuspicious a = true)
    (Activities.network (UpdateSimulation.activities simulation)).

Definition suspiciousFiles (simulation : UpdateSimulation.t)
  : list FileActivity.t :=
  filter (fun a => FileActivity.isSuspicious a = true)
    (Activities.files (UpdateSimulation.activities simulation)).

Definition suspiciousProcesses (simulation : UpdateSimulation.t)
  : list ProcessActivity.t :=
  filter (fun a => ProcessActivity.isSuspicious a = true)
    (Activities.processes (UpdateSimulation.activities simulation)).

Definition detectAnomalies (simulation : UpdateSimulation.t)
  : M (list Anomaly.t) :=
  let anomalies := [] in
  currentTime <- dateNow ;;
  (* Network anomalies *)
  let suspiciousNetworkActivities := suspiciousNetwork simulation in
  anomalies <-
    (if (0 <? length suspiciousNetworkActivities)%nat then
       now <- dateNow ;;
       ret (anomalies ++
            [Anomaly.mk (now, "network") currentTime AnomalyType.NETWORK
               (if (2 <? length suspiciousNetworkActivities)%nat
                then SevHIGH else SevMEDIUM)
               (Z.min (Z.of_nat (length suspiciousNetworkActivities) * 25) 100)
               ("Detected " ++ pretty (length suspiciousNetworkActivities)
                ++ " suspicious network connections")
               (map NetworkEvidence suspiciousNetworkActivities) false])%list
     else ret anomalies) ;;
  (* File anomalies *)
  let suspiciousFileActivities := suspiciousFiles simulation in
  anomalies <-
    (if (0 <? length suspiciousFileActivities)%nat then
       now <- dateNow ;;
       ret (anomalies ++
            [Anomaly.mk (now, "file") currentTime AnomalyType.FILE
               (if existsb FileActivity.isSystemFile suspiciousFileActivities
                then SevCRITICAL else SevHIGH)
               (Z.min (Z.of_nat (length suspiciousFileActivities) * 30) 100)
               ("Detected " ++ pretty (length suspiciousFileActivities)
                ++ " suspicious file operations")
               (map FileEvidence suspiciousFileActivities) false])%list
     else ret anomalies) ;;
  (* Process anomalies *)
  let suspiciousProcessActivities := suspiciousProcesses simulation in
  if (0 <? length suspiciousProcessActivities)%nat then
    now <- dateNow ;;
    ret (anomalies ++
         [Anomaly.mk (now, "process") currentTime AnomalyType.PROCESS
            (if existsb ProcessActivity.isHidden suspiciousProcessActivities
             then SevCRITICAL else SevHIGH)
            (Z.min (Z.of_nat (length suspiciousProcessActivities) * 35) 100)
            ("Detected " ++ pretty (length suspiciousProcessActivities)
             ++ " suspicious processes")
            (map ProcessEvidence suspiciousProcessActivities) false])%list
  else ret anomalies.

(** A number that may be [undefined], inside a template string. *)
Definition tplNumber (o : option Z) : string :=
  match o with
  | Some n => pretty n
  | None => "undefined"
  end.

Definition triggerAutoResponse (simulation : UpdateSimulation.t)
  : M (list ResponseAction.t) :=
  let actions := [] in
  currentTime <- dateNow ;;
  (* Block suspicious network connections *)
  let suspiciousConnections := suspiciousNetwork simulation in
  actions <-
    forOf suspiciousConnections (fun actions connection =>
      now <- dateNow ;;
      salt <- mathRandom ;;
      ret (actions ++
           [ResponseAction.mk (IdSalted "action" now salt) currentTime
              ResponseType.BLOCK_NETWORK
              (tpl (NetworkActivity.destIp connection) ++ ":"
               ++ tplNumber (NetworkActivity.port connection))
              true
              ("Blocked suspicious connection to "
               ++ tpl (NetworkActivity.destIp connection))])%list) actions ;;
  (* Kill malicious processes *)
  let maliciousProcesses := suspiciousProcesses simulation in
  actions <-
    forOf maliciousProcesses (fun actions process =>
      now <- dateNow ;;
      salt <- mathRandom ;;
      ret (actions ++
           [ResponseAction.mk (IdSalted "action" now salt) currentTime
              ResponseType.KILL_PROCESS
              (tpl (ProcessActivity.processName process) ++ " (PID: "
               ++ pretty (ProcessActivity.pid process) ++ ")")
              true
              ("Terminated malicious process "
               ++ tpl (ProcessActivity.processName process))])%list) actions ;;
  (* Rollback update if critical threat detected *)
  if (80 <? UpdateSimulation.riskScore simulation)%Z then
    now <- dateNow ;;
    salt <- mathRandom ;;
    ret (actions ++
         [ResponseAction.mk (IdSalted "action" now salt) currentTime
            ResponseType.ROLLBACK_UPDATE
            (UpdateSimulation.name simulation ++ " v"
             ++ UpdateSimulation.version simulation)
            true
            ("Rolled back malicious update "
             ++ UpdateSimulation.name simulation)])%list
  else ret actions.

Declare Scope engine_scope.
Delimit Scope engine_scope with engine.
Notation "x <- m ;; k" := (bindE m (fun x => k))
  (at level 100, m at next level, right associativity) : engine_scope.
Notation "m ;;; k" := (bindE m (fun _ => k))
  (at level 100, right associativity) : engine_scope.

Section Simulations.
Variable base36 : Q -> string.
Local Open Scope engine_scope.

Definition simulateSafeUpdate (name version : string)
  : ME UpdateSimulation.t :=
  now <- liftM dateNow ;;
  startTime <- liftM dateNow ;;
  let simulation :=
    UpdateSimulation.mk (IdStamp "safe" now) UpdateType.SAFE name version
      UpdateStatus.RUNNING startTime None 0 (Activities.mk [] [] []) [] [] in
  notifyListeners simulation ;;;
  (* Simulate normal update activities *)
  simulation <-
    forOfE (seq 0 10) (fun simulation (i : nat) =>
      liftM (delay 200) ;;;
      (* Normal network activity *)
      chance <- liftM mathRandom ;;
      simulation <-
        (if gtQ chance (3 # 10) then
           networkActivity <- liftM generateSafeNetworkActivity ;;
           retE (pushNetwork networkActivity simulation)
         else retE simulation) ;;
      (* Normal file changes *)
      chance <- liftM mathRandom ;;
      simulation <-
        (if gtQ chance (4 # 10) then
           fileActivity <- liftM (generateSafeFileActivity base36) ;;
           retE (pushFile fileActivity simulation)
         else retE simulation) ;;
      (* Normal process activity *)
      chance <- liftM mathRandom ;;
      simulation <-
        (if gtQ chance (6 # 10) then
           processActivity <- liftM generateSafeProcessActivity ;;
           retE (pushProcess processActivity simulation)
         else retE simulation) ;;
      (* Calculate risk score (should remain low) *)
      let simulation :=
        setSimulationRiskScore (calculateRiskScore simulation) simulation in
      notifyListeners simulation ;;;
      retE simulation) simulation ;;
  let simulation := setSimulationStatus UpdateStatus.COMPLETED simulation in
  endTime <- liftM dateNow ;;
  let simulation := setSimulationEndTime endTime simulation in
  notifyListeners simulation ;;;
  retE simulation.

(** One pass through the body of [for (let i = 0; i < 15; i++)] of
    [simulateMaliciousUpdate], up to the test for [break]. *)
Definition maliciousPass (i : Z) (simulation : UpdateSimulation.t)
  : ME UpdateSimulation.t :=
  liftM (delay 300) ;;;
  (* Mix of normal and suspicious activities *)
  chance <- liftM mathRandom ;;
  simulation <-
    (if gtQ chance (2 # 10) then
       networkActivity <-
         (if (5 <? i)%Z then
            chance <- liftM mathRandom ;;
            if gtQ chance (4 # 10)
            then liftM generateMaliciousNetworkActivity
            else liftM generateSafeNetworkActivity
          else liftM generateSafeNetworkActivity) ;;
       retE (pushNetwork networkActivity simulation)
     else retE simulation) ;;
  chance <- liftM mathRandom ;;
  simulation <-
    (if gtQ chance (3 # 10) then
       fileActivity <-
         (if (3 <? i)%Z then
            chance <- liftM mathRandom ;;
            if gtQ chance (5 # 10)
            then liftM generateMaliciousFileActivity
            else liftM (generateSafeFileActivity base36)
          else liftM (generateSafeFileActivity base36)) ;;
       retE (pushFile fileActivity simulation)
     else retE simulation) ;;
  chance <- liftM mathRandom ;;
  simulation <-
    (if gtQ chance (5 # 10) then
       processActivity <-
         (if (7 <? i)%Z then
            chance <- liftM mathRandom ;;
            if gtQ chance (6 # 10)
            then liftM generateMaliciousProcessActivity
            else liftM generateSafeProcessActivity
          else liftM generateSafeProcessActivity) ;;
       retE (pushProcess processActivity simulation)
     else retE simulation) ;;
  (* Calculate risk score and detect anomalies *)
  let simulation :=
    setSimulationRiskScore (calculateRiskScore simulation) simulation in
  newAnomalies <- liftM (detectAnomalies simulation) ;;
  let simulation := pushAnomalies newAnomalies simulation in
  (* Trigger auto-response if risk is high *)
  simulation <-
    (if (70 <? UpdateSimulation.riskScore simulation)%Z
        && bool_decide
             (UpdateSimulation.status simulation = UpdateStatus.RUNNING) then
       actions <- liftM (triggerAutoResponse simulation) ;;
       let simulation := pushActions actions simulation in
       retE (setSimulationStatus UpdateStatus.BLOCKED simulation)
     else retE simulation) ;;
  notifyListeners simulation ;;;
  retE simulation.

(** The loop itself; [fuel] bounds the number of passes. *)
Fixpoint maliciousLoop (fuel : nat) (i : Z) (simulation : UpdateSimulation.t)
  : ME UpdateSimulation.t :=
  match fuel with
  | O => retE simulation
  | S fuel' =>
      if (i <? 15)%Z then
        simulation <- maliciousPass i simulation ;;
        if bool_decide
             (UpdateSimulation.status simulation = UpdateStatus.BLOCKED)
        then retE simulation
        else maliciousLoop fuel' (i + 1)%Z simulation
      else retE simulation
  end.

(** More passes than the loop can make from 0 (see
    [maliciousLoop_fuel]). *)
Definition simulationFuel : nat := 100.

Definition simulateMaliciousUpdate (name version : string)
  : ME UpdateSimulation.t :=
  now <- liftM dateNow ;;
  startTime <- liftM dateNow ;;
  let simulation :=
    UpdateSimulation.mk (IdStamp "malicious" now) UpdateType.MALICIOUS name
      version UpdateStatus.RUNNING startTime None 0 (Activities.mk [] [] [])
      [] [] in
  notifyListeners simulation ;;;
  (* Simulate malicious update activities *)
  simulation <- maliciousLoop simulationFuel 0 simulation ;;
  let simulation :=
    if bool_decide
         (UpdateSimulation.status simulation = UpdateStatus.RUNNING)
    then setSimulationStatus UpdateStatus.COMPLETED simulation
    else simulation in
  endTime <- liftM dateNow ;;
  let simulation := setSimulationEndTime endTime simulation in
  notifyListeners simulation ;;;
  retE simulation.

End Simulations.

End ThreatEyeEngine.

(* ================================================================== *)
(** ** Predicates on the simulations *)
(* ================================================================== *)

(** The values of the threat indicators of one type. *)
Definition knownValues (k : IndicatorType.t) : list string :=
  map ThreatIndicator.value
    (filter (fun t => ThreatEyeEngine.isType t k = true)
       ThreatEyeEngine.threatIntelligence).

(** An optional field that holds none of the given values. *)
Definition noneOf (values : list string) (x : option string) : Prop :=
  ∀ s, x = Some s → s ∉ values.

(** Activities that add nothing to the risk score: not suspicious, not
    hidden, and matching no threat indicator. *)
Definition benignNetwork (a : NetworkActivity.t) : Prop :=
  NetworkActivity.isSuspicious a = false ∧
  noneOf (knownValues IndicatorType.IP) (NetworkActivity.destIp a) ∧
  noneOf (knownValues IndicatorType.DOMAIN) (NetworkActivity.domain a).

Definition benignFile (a : FileActivity.t) : Prop :=
  FileActivity.isSuspicious a = false ∧
  FileActivity.checksum a ∉ knownValues IndicatorType.FILE_HASH.

Definition benignProcess (a : ProcessActivity.t) : Prop :=
  ProcessActivity.isSuspicious a = false ∧
  ProcessActivity.isHidden a = false ∧
  noneOf (knownValues IndicatorType.PROCESS) (ProcessActivity.processName a).

Definition benignActivities (s : UpdateSimulation.t) : Prop :=
  Forall benignNetwork (Activities.network (UpdateSimulation.activities s)) ∧
  Forall benignFile (Activities.files (UpdateSimulation.activities s)) ∧
  Forall benignProcess (Activities.processes (UpdateSimulation.activities s)).

(** [postE m w Q]: the run of [m] from [w] ends with a value and a state
    of the engine that satisfy [Q]. *)
Definition postE {A : Type} (m : ThreatEyeEngine.ME A)
  (w : ThreatEyeEngine.EngineWorld)
  (Q : A -> ThreatEyeEngine.EngineWorld -> Prop) : Prop :=
  Q (fst (m w)) (snd (m w)).

(** A simulation of the given update that has found nothing: no risk, no
    anomaly, no action, and only benign activities. *)
Definition quietRun (name version : string) (s : UpdateSimulation.t) : Prop :=
  UpdateSimulation.name s = name ∧
  UpdateSimulation.version s = version ∧
  UpdateSimulation.riskScore s = 0%Z ∧
  UpdateSimulation.anomalies s = [] ∧
  UpdateSimulation.actionsTriggered s = [] ∧
  benignActivities s.

(** The malware hash that the threat indicators know. *)
Definition knownChecksum : string := "a1b2c3d4e5f6".

(** The state of the safe simulation after [n] calls of the listeners. *)
Definition quietSoFar (name version : string) (before : list UpdateSimulation.t)
  (n : nat) (s : UpdateSimulation.t) (w : ThreatEyeEngine.EngineWorld) : Prop :=
  UpdateSimulation.status s = UpdateStatus.RUNNING ∧
  quietRun name version s ∧
  ∃ trace,
    ThreatEyeEngine.updates w = (before ++ trace)%list ∧ length trace = S n ∧
    Forall (quietRun name version) trace.

(** The types of the actions [triggerAutoResponse] takes on [s]. *)
Definition responseTypes (s : UpdateSimulation.t) : list ResponseType.t :=
  replicate (length (ThreatEyeEngine.suspiciousNetwork s))
    ResponseType.BLOCK_NETWORK
  ++ replicate (length (ThreatEyeEngine.suspiciousProcesses s))
       ResponseType.KILL_PROCESS
  ++ (if (80 <? UpdateSimulation.riskScore s)%Z
      then [ResponseType.ROLLBACK_UPDATE] else []).

(** A simulation that is still running: scored, at 70 or below, with no
    action taken. *)
Definition unblocked (s : UpdateSimulation.t) : Prop :=
  UpdateSimulation.status s = UpdateStatus.RUNNING ∧
  UpdateSimulation.riskScore s = ThreatEyeEngine.calculateRiskScore s ∧
  (UpdateSimulation.riskScore s <= 70)%Z ∧
  UpdateSimulation.actionsTriggered s = [].

(** A simulation that was blocked: scored above 70, with the actions of
    [triggerAutoResponse]. *)
Definition blocked (s : UpdateSimulation.t) : Prop :=
  UpdateSimulation.status s = UpdateStatus.BLOCKED ∧
  UpdateSimulation.riskScore s = ThreatEyeEngine.calculateRiskScore s ∧
  (70 < UpdateSimulation.riskScore s)%Z ∧
  map ResponseAction.type (UpdateSimulation.actionsTriggered s)
    = responseTypes s.

(* ================================================================== *)
(** ** Insertion-ordered sets *)
(* ================================================================== *)

Section SetLemmas.
Implicit Types (x y : string) (s acc l : list string).

Lemma setAdd_elem x y s : y ∈ setAdd x s ↔ y = x ∨ y ∈ s.
Proof.
  unfold setAdd. case_bool_decide as Hin.
  - split; [auto | intros [-> | ?]; auto].
  - rewrite elem_of_app, list_elem_of_singleton. tauto.
Qed.

Lemma setAdd_NoDup x s : NoDup s → NoDup (setAdd x s).
Proof.
  intros Hs. unfold setAdd. case_bool_decide as Hin; [done |].
  apply NoDup_app. split_and!; [done | | apply NoDup_singleton].
  intros y Hy ->%list_elem_of_singleton. done.
Qed.

Lemma setFold_elem l acc y :
  y ∈ fold_left (fun s x => setAdd x s) l acc ↔ y ∈ acc ∨ y ∈ l.
Proof.
  revert acc. induction l as [| x l IH]; intros acc; simpl.
  - rewrite elem_of_nil. tauto.
  - rewrite IH, setAdd_elem, elem_of_cons. tauto.
Qed.

Lemma setFold_NoDup l acc :
  NoDup acc → NoDup (fold_left (fun s x => setAdd x s) l acc).
Proof.
  revert acc. induction l as [| x l IH]; intros acc Hacc; simpl; [done |].
  apply IH, setAdd_NoDup, Hacc.
Qed.

(** Adding members the set already has changes nothing. *)
Lemma setFold_absorb l acc :
  (∀ x, x ∈ l → x ∈ acc) → fold_left (fun s x => setAdd x s) l acc = acc.
Proof.
  induction l as [| x l IH]; intros Hsub; simpl; [done |].
  unfold setAdd at 2. rewrite bool_decide_eq_true_2.
  - apply IH. intros y Hy. apply Hsub. by right.
  - apply Hsub. by left.
Qed.

(** Adding fresh, pairwise different members appends them in order. *)
Lemma setFold_fresh l acc :
  NoDup (acc ++ l)%list →
  fold_left (fun s x => setAdd x s) l acc = (acc ++ l)%list.
Proof.
  revert acc. induction l as [| x l IH]; intros acc Hnd; simpl.
  - by rewrite app_nil_r.
  - assert (x ∉ acc) as Hx.
    { apply NoDup_app in Hnd as (_ & Hdisj & _). intros Hin.
      apply (Hdisj x Hin). by left. }
    unfold setAdd at 2. rewrite bool_decide_eq_false_2 by done.
    rewrite IH; rewrite <- app_assoc; done.
Qed.

Lemma setOf_elem l y : y ∈ setOf l ↔ y ∈ l.
Proof. unfold setOf. rewrite setFold_elem, elem_of_nil. tauto. Qed.

Lemma setOf_NoDup l : NoDup (setOf l).
Proof. apply setFold_NoDup, NoDup_nil_2. Qed.

Lemma setOf_fixed l : NoDup l → setOf l = l.
Proof. intros Hl. unfold setOf. by rewrite setFold_fresh. Qed.

(** Merging the same tags a second time gives the same set. *)
Lemma setOf_merge_again l1 l2 :
  setOf (setOf (l1 ++ l2) ++ l2)%list = setOf (l1 ++ l2)%list.
Proof.
  unfold setOf at 1. rewrite fold_left_app.
  fold (setOf (setOf (l1 ++ l2))).
  rewrite (setOf_fixed _ (setOf_NoDup _)).
  apply setFold_absorb. intros x Hx. apply setOf_elem, elem_of_app. by right.
Qed.

End SetLemmas.

(* ================================================================== *)
(** ** Reasoning about the methods *)
(* ================================================================== *)

(** The rules are applied, never unfolded: each step of a run then costs
    the kernel one application, whatever the size of the program left. *)
Lemma post_ret {A : Type} (a : A) w (Q : A → World → Prop) :
  Q a w → post (ret a) w Q.
Proof. done. Qed.

Lemma post_bind {A B : Type} (m : M A) (k : A → M B) w
    (Q : B → World → Prop) :
  post m w (fun a w' => post (k a) w' Q) → post (bind m k) w Q.
Proof. done. Qed.

Lemma post_mono {A : Type} (m : M A) w (Q Q' : A → World → Prop) :
  post m w Q → (∀ a w', Q a w' → Q' a w') → post m w Q'.
Proof. unfold post. auto. Qed.

(** The loop rule: an invariant of the body holds after the loop. *)
Lemma post_forOf {A B : Type} (l : list B) (body : A → B → M A)
    (I : A → World → Prop) :
  (∀ s x w, I s w → post (body s x) w I) →
  ∀ s w, I s w → post (forOf l body s) w I.
Proof.
  intros Hbody. induction l as [| x l IH]; intros s w Hs; [done |].
  cbn [forOf]. apply post_bind. eapply post_mono; [by apply Hbody |].
  intros s' w' Hs'. by apply IH.
Qed.

Lemma post_dateNow w (Q : Z → World → Prop) :
  Q (clock w) w → post dateNow w Q.
Proof. done. Qed.

Lemma post_mathRandom w (K : Q → World → Prop) :
  K (randoms w (drawn w))
    (mkWorld (randoms w) (S (drawn w)) (clock w) (item w) (setItemError w)
       (console w) (analysisUpdates w) (sessionUpdates w)) →
  post mathRandom w K.
Proof. done. Qed.

Lemma post_delay ms w (Q : unit → World → Prop) :
  Q tt
    (mkWorld (randoms w) (drawn w) (clock w + ms)%Z (item w) (setItemError w)
       (console w) (analysisUpdates w) (sessionUpdates w)) →
  post (delay ms) w Q.
Proof. done. Qed.

Lemma post_notifyListeners r w (Q : unit → World → Prop) :
  Q tt
    (mkWorld (randoms w) (drawn w) (clock w) (item w) (setItemError w)
       (console w) (analysisUpdates w ++ [r]) (sessionUpdates w)) →
  post (notifyListeners r) w Q.
Proof. done. Qed.

Lemma post_true {A} (m1 m2 : M A) b w (Q : A → World → Prop) :
  b = true → post m1 w Q → post (if b then m1 else m2) w Q.
Proof. by intros ->. Qed.

Lemma post_false {A} (m1 m2 : M A) b w (Q : A → World → Prop) :
  b = false → post m2 w Q → post (if b then m1 else m2) w Q.
Proof. by intros ->. Qed.

Lemma post_forOf_cons {A B} (x : B) (l : list B) (body : A → B → M A) s w
    (Q : A → World → Prop) :
  post (body s x) w (fun s' w' => post (forOf l body s') w' Q) →
  post (forOf (x :: l) body s) w Q.
Proof. done. Qed.

Lemma post_forOf_nil {A B} (body : A → B → M A) s w (Q : A → World → Prop) :
  Q s w → post (forOf [] body s) w Q.
Proof. done. Qed.

Section EngineFacts.
Import FileAnalysisResult.

Lemma stageKeeps_refl r w : stageKeeps r w r w.
Proof. unfold stageKeeps. tauto. Qed.

Lemma stageKeeps_trans r0 w0 r1 w1 r2 w2 :
  stageKeeps r0 w0 r1 w1 → stageKeeps r1 w1 r2 w2 → stageKeeps r0 w0 r2 w2.
Proof.
  unfold stageKeeps. intros (?&?&?&?&?&?&?&?) (?&?&?&?&?&?&?&?).
  split_and!; try congruence. auto.
Qed.

Lemma allDetections_addMalwareSignature (P : DetectionResult.t → Prop) d r :
  P d → Forall P (allDetections r) →
  Forall P (allDetections (addMalwareSignature d r)).
Proof.
  unfold allDetections. cbn. rewrite !Forall_app, Forall_singleton. tauto.
Qed.

Lemma allDetections_addSuspiciousPattern (P : DetectionResult.t → Prop) d r :
  P d → Forall P (allDetections r) →
  Forall P (allDetections (addSuspiciousPattern d r)).
Proof.
  unfold allDetections. cbn. rewrite !Forall_app, Forall_singleton. tauto.
Qed.

Lemma allDetections_addFileIntegrity (P : DetectionResult.t → Prop) d r :
  P d → Forall P (allDetections r) →
  Forall P (allDetections (addFileIntegrity d r)).
Proof.
  unfold allDetections. cbn. rewrite !Forall_app, Forall_singleton. tauto.
Qed.

Lemma allDetections_addBehaviorAnalysis (P : DetectionResult.t → Prop) d r :
  P d → Forall P (allDetections r) →
  Forall P (allDetections (addBehaviorAnalysis d r)).
Proof.
  unfold allDetections. cbn. rewrite !Forall_app, Forall_singleton. tauto.
Qed.

(** One statement of a stage, seen from the result it starts on. *)
Ltac keeps_leaf :=
  unfold stageKeeps; cbn;
  split_and!; try reflexivity;
  intros;
  repeat first
    [ assumption
    | apply allDetections_addMalwareSignature
    | apply allDetections_addSuspiciousPattern
    | apply allDetections_addFileIntegrity
    | apply allDetections_addBehaviorAnalysis
    | (unfold confidenceOK; cbn; lia) ].

Ltac keeps_from H :=
  eapply stageKeeps_trans; [exact H | keeps_leaf].

Ltac wp :=
  repeat match goal with
    | |- post (bind _ _) _ _ => apply post_bind
    | |- post (ret _) _ _ => apply post_ret
    | |- post (let _ := _ in _) _ _ => cbn zeta
    | |- post (if ?b then _ else _) _ _ => destruct b
    | |- post dateNow _ _ => apply post_dateNow; cbn beta
    | |- post mathRandom _ _ => apply post_mathRandom; cbn beta
    | |- post (delay _) _ _ => apply post_delay; cbn beta
    | |- post (notifyListeners _) _ _ => apply post_notifyListeners; cbn beta
    end.

(** [x <- block ;; rest] where [block] keeps what a stage keeps. *)
Lemma post_block {B : Type} (block : M t) (k : t → M B) r0 w0 w
    (Q : B → World → Prop) :
  post block w (stageKeeps r0 w0) →
  (∀ r1 w1, stageKeeps r0 w0 r1 w1 → post (k r1) w1 Q) →
  post (bind block k) w Q.
Proof.
  intros Hblock Hrest. apply post_bind.
  eapply post_mono; [exact Hblock | exact Hrest].
Qed.

Lemma scanForMalwareSignatures_keeps r w :
  post (scanForMalwareSignatures r) w (stageKeeps r w).
Proof.
  unfold scanForMalwareSignatures. cbn zeta.
  eapply post_block; [wp; keeps_leaf |]. intros r1 w1 H1.
  eapply post_block.
  { apply (post_forOf _ _ (stageKeeps r w)); [| exact H1].
    intros s x w' Hs. wp; [keeps_from Hs | exact Hs]. }
  intros r2 w2 H2. wp; keeps_from H2.
Qed.

Lemma scanForSuspiciousPatterns_keeps r w :
  post (scanForSuspiciousPatterns r) w (stageKeeps r w).
Proof.
  unfold scanForSuspiciousPatterns. cbn zeta.
  eapply post_block; [wp; keeps_leaf |]. intros r1 w1 H1.
  eapply post_block; [wp; keeps_from H1 |]. intros r2 w2 H2.
  eapply post_block; [wp; keeps_from H2 |]. intros r3 w3 H3.
  wp; keeps_from H3.
Qed.

Lemma analyzeFileIntegrity_keeps r w :
  post (analyzeFileIntegrity r) w (stageKeeps r w).
Proof.
  unfold analyzeFileIntegrity. cbn zeta.
  eapply post_block; [wp; keeps_leaf |]. intros r1 w1 H1.
  wp; keeps_from H1.
Qed.

Lemma performBehaviorAnalysis_keeps r w :
  post (performBehaviorAnalysis r) w (stageKeeps r w).
Proof.
  unfold performBehaviorAnalysis. cbn zeta.
  eapply post_block; [wp; keeps_leaf |]. intros r1 w1 H1.
  wp; keeps_from H1.
Qed.


Lemma scanStage_spec f p0 p r w :
  scanning f p0 r →
  post (scanStage p r) w (fun r' w' =>
    scanning f p r' ∧
    analysisUpdates w' = (analysisUpdates w ++ [r'])%list ∧
    sessionUpdates w' = sessionUpdates w).
Proof.
  intros (Hf & Hst & Hth & Hsc & _ & Hconf).
  unfold scanStage. apply post_bind, post_delay. cbn beta.
  set (w0 := mkWorld _ _ _ _ _ _ _ _).
  set (r0 := setScanProgress p r).
  assert (scanning f p r0) as (Hf0 & Hst0 & Hth0 & Hsc0 & Hp0 & Hconf0).
  { unfold scanning, r0. cbn. done. }
  eapply (post_block _ _ r0 w0).
  { destruct (p =? 30)%Z; [apply scanForMalwareSignatures_keeps |].
    destruct (p =? 50)%Z; [apply scanForSuspiciousPatterns_keeps |].
    destruct (p =? 70)%Z; [apply analyzeFileIntegrity_keeps |].
    destruct (p =? 90)%Z; [apply performBehaviorAnalysis_keeps |].
    apply post_ret, stageKeeps_refl. }
  intros r1 w1 (Hau & Hsu & Hf1 & Hst1 & Hth1 & Hsc1 & Hp1 & Hconf1).
  wp. cbn [analysisUpdates sessionUpdates].
  split_and!; [unfold scanning; split_and!; try congruence; auto | by rewrite Hau | by rewrite Hsu].
Qed.

Lemma scanLoop_step fuel p r :
  (p <=? 100)%Z = true →
  scanLoop (S fuel) p r = bind (scanStage p r) (scanLoop fuel (p + 20)%Z).
Proof. intros Hle. cbn [scanLoop]. by rewrite Hle. Qed.

Lemma scanLoop_stop fuel p r :
  (p <=? 100)%Z = false → scanLoop fuel p r = ret r.
Proof. intros Hgt. destruct fuel; cbn [scanLoop]; [done | by rewrite Hgt]. Qed.

(** The loop ends by its own test after five passes: any fuel from five
    on gives the same run. *)
Lemma scanLoop_fuel fuel r w :
  (5 <= fuel)%nat → scanLoop fuel 10 r w = scanLoop 5 10 r w.
Proof.
  intros Hfuel. do 5 (destruct fuel as [| fuel]; [lia |]).
  do 5 (rewrite !scanLoop_step by reflexivity; unfold bind; cbn beta zeta).
  by rewrite !scanLoop_stop by reflexivity.
Qed.


(** The five passes of the loop, each published once. *)
Lemma scanLoop_spec f p0 r w :
  scanning f p0 r →
  post (scanLoop scanFuel 10 r) w (fun r5 w' =>
    ∃ r1 r2 r3 r4,
      scanning f 10 r1 ∧ scanning f 30 r2 ∧ scanning f 50 r3 ∧
      scanning f 70 r4 ∧ scanning f 90 r5 ∧
      analysisUpdates w' = (analysisUpdates w ++ [r1; r2; r3; r4; r5])%list ∧
      sessionUpdates w' = sessionUpdates w).
Proof.
  intros H0. unfold scanFuel.
  rewrite scanLoop_step by reflexivity. apply post_bind.
  eapply post_mono; [exact (scanStage_spec f p0 10 r w H0) |].
  intros r1 w1 (H1 & Ha1 & Hs1). cbn beta.
  rewrite scanLoop_step by reflexivity. apply post_bind.
  eapply post_mono; [exact (scanStage_spec f 10 _ r1 w1 H1) |].
  intros r2 w2 (H2 & Ha2 & Hs2). cbn beta.
  rewrite scanLoop_step by reflexivity. apply post_bind.
  eapply post_mono; [exact (scanStage_spec f _ _ r2 w2 H2) |].
  intros r3 w3 (H3 & Ha3 & Hs3). cbn beta.
  rewrite scanLoop_step by reflexivity. apply post_bind.
  eapply post_mono; [exact (scanStage_spec f _ _ r3 w3 H3) |].
  intros r4 w4 (H4 & Ha4 & Hs4). cbn beta.
  rewrite scanLoop_step by reflexivity. apply post_bind.
  eapply post_mono; [exact (scanStage_spec f _ _ r4 w4 H4) |].
  intros r5 w5 (H5 & Ha5 & Hs5). cbn beta.
  rewrite scanLoop_stop by reflexivity. apply post_ret.
  exists r1, r2, r3, r4. split_and!; try done.
  - rewrite Ha5, Ha4, Ha3, Ha2, Ha1. by rewrite <- !app_assoc.
  - congruence.
Qed.


Lemma generateRecommendations_keeps r :
  riskScore (generateRecommendations r) = riskScore r ∧
  overallThreat (generateRecommendations r) = overallThreat r ∧
  scanProgress (generateRecommendations r) = scanProgress r ∧
  status (generateRecommendations r) = status r.
Proof.
  unfold generateRecommendations.
  destruct (overallThreat r) eqn:E; cbn; rewrite ?E; done.
Qed.

(** The classification step of [calculateFinalRisk] on a scored result. *)
Lemma threatLevel_of_score score r :
  let r' :=
    if (80 <=? score)%Z then setOverallThreat CRITICAL (setRiskScore score r)
    else if (60 <=? score)%Z then setOverallThreat MALICIOUS (setRiskScore score r)
    else if (30 <=? score)%Z then setOverallThreat SUSPICIOUS (setRiskScore score r)
    else setOverallThreat CLEAN (setRiskScore score r) in
  riskScore r' = score ∧ overallThreat r' = classify score ∧
  scanProgress r' = scanProgress r ∧ status r' = status r.
Proof.
  unfold classify.
  destruct (Z.leb_spec 80 score); [by rewrite decide_True by done |].
  rewrite decide_False by lia.
  destruct (Z.leb_spec 60 score); [by rewrite decide_True by done |].
  rewrite decide_False by lia.
  destruct (Z.leb_spec 30 score); [by rewrite decide_True by done |].
  by rewrite decide_False by lia.
Qed.

Lemma calculateFinalRisk_spec r :
  let score :=
    Z.min (mathRound (fst (fold_left riskStep (allDetections r) (0%Q, CLEAN))))
      100 in
  riskScore (calculateFinalRisk r) = score ∧
  overallThreat (calculateFinalRisk r) = classify score ∧
  scanProgress (calculateFinalRisk r) = scanProgress r ∧
  status (calculateFinalRisk r) = status r.
Proof.
  unfold calculateFinalRisk.
  destruct (fold_left riskStep (allDetections r) (0%Q, CLEAN)) as [q m].
  cbn [fst]. cbn zeta.
  match goal with |- riskScore (generateRecommendations ?x) = _ ∧ _ =>
    destruct (generateRecommendations_keeps x) as (-> & -> & -> & ->) end.
  cbn [riskScore setRiskScore].
  apply threatLevel_of_score.
Qed.

Lemma riskStep_nonneg l q m :
  Forall confidenceOK l → (0 <= q)%Q →
  (0 <= fst (fold_left riskStep l (q, m)))%Q.
Proof.
  revert q m. induction l as [| d l IH]; intros q m Hl Hq; [done |].
  apply Forall_cons in Hl as [Hd Hl]. cbn [fold_left].
  unfold riskStep at 2. apply IH; [done |].
  apply Qle_trans with (q + 0)%Q; [rewrite Qplus_0_r; done |].
  apply Qplus_le_r. apply Qmult_le_0_compat.
  - change 0%Q with (inject_Z 0). rewrite <- Zle_Qle.
    by destruct (DetectionResult.severity d).
  - apply Qle_shift_div_l; [done |]. rewrite Qmult_0_l.
    change 0%Q with (inject_Z 0). by rewrite <- Zle_Qle.
Qed.

Lemma mathRound_nonneg x : (0 <= x)%Q → (0 <= mathRound x)%Z.
Proof.
  intros Hx. unfold mathRound. change 0%Z with (Qfloor 0).
  apply Qfloor_resp_le. lra.
Qed.

Lemma classify_monotone a b :
  (a <= b)%Z → (severityRank (classify a) <= severityRank (classify b))%nat.
Proof.
  intros Hab. unfold classify.
  repeat case_decide; cbn [severityRank]; lia.
Qed.

(** One run of [analyzeFile]: seven calls of the listeners, the first six
    on the result while it is being scanned, the last on the result the
    method returns, which is [calculateFinalRisk] of the sixth, marked
    completed. *)
Lemma analyzeFile_run f w :
  post (analyzeFile f) w (fun r' w' =>
    ∃ r0 r1 r2 r3 r4 r5 stamp,
      scanning f 0 r0 ∧ scanning f 10 r1 ∧ scanning f 30 r2 ∧
      scanning f 50 r3 ∧ scanning f 70 r4 ∧ scanning f 90 r5 ∧
      r' = setEndTime stamp (setStatus COMPLETED (calculateFinalRisk r5)) ∧
      analysisUpdates w' =
        (analysisUpdates w ++ [r0; r1; r2; r3; r4; r5; r'])%list ∧
      sessionUpdates w' = sessionUpdates w).
Proof.
  unfold analyzeFile.
  apply post_bind, post_dateNow. cbn beta.
  apply post_bind, post_mathRandom. cbn beta.
  apply post_bind, post_dateNow. cbn beta.
  apply post_bind, post_mathRandom. cbn beta.
  cbn zeta. cbn [clock randoms drawn].
  set (r0 := mk _ _ _ _ _ _ _ _ _ _ _ _).
  assert (scanning f 0 r0) as H0.
  { unfold scanning, r0. cbn. split_and!; done. }
  apply post_bind, post_notifyListeners. cbn beta.
  set (w0 := mkWorld _ _ _ _ _ _ _ _).
  apply post_bind. eapply post_mono; [exact (scanLoop_spec f 0 r0 w0 H0) |].
  intros r5 w5 (r1 & r2 & r3 & r4 & H1 & H2 & H3 & H4 & H5 & Hau & Hsu).
  cbn beta zeta.
  apply post_bind, post_dateNow. cbn beta.
  apply post_bind, post_notifyListeners. cbn beta.
  apply post_ret.
  exists r0, r1, r2, r3, r4, r5, (clock w5).
  split_and!; try done.
  cbn [analysisUpdates]. rewrite Hau. unfold w0. cbn [analysisUpdates].
  by rewrite <- !app_assoc.
Qed.


Lemma analyzeFile_sessionUpdates f w :
  sessionUpdates (snd (analyzeFile f w)) = sessionUpdates w.
Proof.
  destruct (analyzeFile_run f w) as (?&?&?&?&?&?&?&?&?&?&?&?&?&?&?&?). done.
Qed.

(** C2.  The result [analyzeFile] returns carries an integer risk score
    between 0 and 100, and its classification is the function [classify] of
    that score, which has the breakpoints 80, 60 and 30 and is monotone for
    the severity scale.  The same holds of [calculateFinalRisk] on any
    result, but for the lower bound of the score. *)
Theorem analyzeFile_classification f w :
  let r := fst (analyzeFile f w) in
  (0 <= riskScore r <= 100)%Z ∧
  overallThreat r = classify (riskScore r) ∧
  (∀ a b : Z, (a <= b)%Z →
     (severityRank (classify a) <= severityRank (classify b))%nat) ∧
  (∀ r0, (riskScore (calculateFinalRisk r0) <= 100)%Z ∧
         overallThreat (calculateFinalRisk r0)
           = classify (riskScore (calculateFinalRisk r0))).
Proof.
  intros r.
  destruct (analyzeFile_run f w)
    as (r0 & r1 & r2 & r3 & r4 & r5 & stamp & _ & _ & _ & _ & _ & H5 & Hr & _).
  fold r in Hr.
  destruct H5 as (_ & _ & _ & _ & _ & Hconf).
  destruct (calculateFinalRisk_spec r5) as (Hscore & Hthreat & _).
  assert (riskScore r = riskScore (calculateFinalRisk r5)) as Hrs by (by rewrite Hr).
  assert (overallThreat r = overallThreat (calculateFinalRisk r5)) as Hot
    by (by rewrite Hr).
  split_and!.
  - rewrite Hrs, Hscore. apply Z.min_glb; [| done].
    apply mathRound_nonneg, riskStep_nonneg; done.
  - rewrite Hrs, Hscore. apply Z.le_min_r.
  - by rewrite Hot, Hrs, Hthreat, Hscore.
  - apply classify_monotone.
  - intros r'. destruct (calculateFinalRisk_spec r') as (Hs' & Ht' & _).
    split; [rewrite Hs'; apply Z.le_min_r | by rewrite Ht', Hs'].
Qed.

(** C5.  The listeners of one [analyzeFile] see the progress values
    0, 10, 30, 50, 70, 90 and, on the completed result, 90 again: the
    sequence never decreases, the score and the classification are set only
    on the last of the seven, and no published value is 100. *)
Theorem analyzeFile_progress_trace f w :
  ∃ trace,
    analysisUpdates (snd (analyzeFile f w)) = (analysisUpdates w ++ trace)%list ∧
    map scanProgress trace = [0; 10; 30; 50; 70; 90; 90]%Z ∧
    map status trace =
      [SCANNING; SCANNING; SCANNING; SCANNING; SCANNING; SCANNING; COMPLETED] ∧
    last trace = Some (fst (analyzeFile f w)) ∧
    Forall (fun r => riskScore r = 0%Z ∧ overallThreat r = CLEAN) (take 6 trace).
Proof.
  destruct (analyzeFile_run f w)
    as (r0 & r1 & r2 & r3 & r4 & r5 & stamp & H0 & H1 & H2 & H3 & H4 & H5
        & Hr & Hau & _).
  exists [r0; r1; r2; r3; r4; r5; fst (analyzeFile f w)].
  destruct (calculateFinalRisk_spec r5) as (_ & _ & Hp & _).
  destruct H0 as (_ & ? & ? & ? & ? & _), H1 as (_ & ? & ? & ? & ? & _),
    H2 as (_ & ? & ? & ? & ? & _), H3 as (_ & ? & ? & ? & ? & _),
    H4 as (_ & ? & ? & ? & ? & _), H5 as (_ & ? & ? & ? & ? & _).
  assert (scanProgress (fst (analyzeFile f w)) = 90%Z) as Hlastp.
  { rewrite Hr. cbn [scanProgress setEndTime setStatus]. congruence. }
  assert (status (fst (analyzeFile f w)) = COMPLETED) as Hlasts.
  { rewrite Hr. reflexivity. }
  split_and!; [exact Hau | | | reflexivity |].
  - cbn [map]. congruence.
  - cbn [map]. congruence.
  - cbn [take]. repeat (apply Forall_cons; split; [done |]). apply Forall_nil_2.
Qed.

End EngineFacts.

Section SessionFacts.
Import ScanSession.

Lemma recordResult_spec s r :
  id (recordResult s r) = id s ∧
  startTime (recordResult s r) = startTime s ∧
  totalFiles (recordResult s r) = totalFiles s ∧
  files (recordResult s r) = (files s ++ [r])%list ∧
  completedFiles (recordResult s r) = (completedFiles s + 1)%Z ∧
  threatsFound (recordResult s r) = (threatsFound s + countThreats [r])%Z ∧
  cleanFiles (recordResult s r) = (cleanFiles s + countClean [r])%Z.
Proof.
  unfold recordResult, countThreats, countClean. rewrite !filter_cons, !filter_nil.
  destruct (decide (FileAnalysisResult.overallThreat r = CLEAN)) as [Hc | Hc].
  - rewrite bool_decide_eq_false_2 by (intros H; apply H, Hc).
    rewrite decide_False by (intros H; apply H, Hc).
    cbn. split_and!; try done; lia.
  - rewrite bool_decide_eq_true_2 by done. rewrite decide_True by done.
    cbn. split_and!; try done; lia.
Qed.

Lemma countThreats_app l1 l2 :
  countThreats (l1 ++ l2) = (countThreats l1 + countThreats l2)%Z.
Proof. unfold countThreats. rewrite filter_app, length_app. lia. Qed.

Lemma countClean_app l1 l2 :
  countClean (l1 ++ l2) = (countClean l1 + countClean l2)%Z.
Proof. unfold countClean. rewrite filter_app, length_app. lia. Qed.

(** Each result is counted on exactly one side. *)
Lemma countThreats_countClean l :
  (countThreats l + countClean l)%Z = Z.of_nat (length l).
Proof.
  unfold countThreats, countClean. rewrite <- Nat2Z.inj_add. f_equal.
  induction l as [| r l IH]; [done |].
  rewrite !filter_cons.
  destruct (decide (FileAnalysisResult.overallThreat r = CLEAN)) as [Hc | Hc];
    [rewrite decide_False by (intros H; apply H, Hc)
    | rewrite decide_True by done];
    simpl; lia.
Qed.

(** The loop of [analyzeFiles] from a session [s] on: one result and one
    publication per file, the counters moving with the results. *)
Lemma analyzeFiles_loop (P : UploadedFile.t → FileAnalysisResult.t → Prop)
    (todo : list UploadedFile.t) :
  (∀ f w, f ∈ todo → P f (fst (analyzeFile f w))) →
  ∀ s w,
    post (forOf todo (fun session file =>
            result <- analyzeFile file ;;
            let session := recordResult session result in
            notifySessionListeners session ;;;
            ret session) s) w
      (fun s' w' =>
         ∃ rs trace,
           Forall2 P todo rs ∧
           files s' = (files s ++ rs)%list ∧
           totalFiles s' = totalFiles s ∧
           completedFiles s' = (completedFiles s + Z.of_nat (length rs))%Z ∧
           threatsFound s' = (threatsFound s + countThreats rs)%Z ∧
           cleanFiles s' = (cleanFiles s + countClean rs)%Z ∧
           sessionUpdates w' = (sessionUpdates w ++ trace)%list ∧
           last (s :: trace) = Some s' ∧
           Forall (fun x =>
             ∃ k, (1 <= k <= Z.of_nat (length todo))%Z ∧
                  totalFiles x = totalFiles s ∧
                  completedFiles x = (completedFiles s + k)%Z ∧
                  (threatsFound x + cleanFiles x
                   = threatsFound s + cleanFiles s + k)%Z) trace).
Proof.
  induction todo as [| f todo IH]; intros HP s w.
  - apply post_ret. exists [], []. rewrite !app_nil_r.
    split_and!; try done; unfold countThreats, countClean; cbn; lia.
  - cbn [forOf]. apply post_bind, post_bind.
    unfold post at 1.
    set (r := fst (analyzeFile f w)). set (w1 := snd (analyzeFile f w)).
    assert (P f r) as HPr by (apply HP; left).
    assert (sessionUpdates w1 = sessionUpdates w) as Hsu
      by apply analyzeFile_sessionUpdates.
    cbn zeta. apply post_bind. unfold post at 1.
    cbn [notifySessionListeners fst snd]. set (w2 := mkWorld _ _ _ _ _ _ _ _).
    apply post_ret.
    destruct (recordResult_spec s r) as (_ & _ & Ht & Hf & Hc & Hth & Hcl).
    eapply post_mono; [apply IH; intros; apply HP; by right |].
    intros s' w' (rs & trace & HF & Hf' & Ht' & Hc' & Hth' & Hcl' & Hsu' & Hlast & Htr).
    exists (r :: rs), (recordResult s r :: trace).
    split_and!.
    + by apply Forall2_cons.
    + rewrite Hf', Hf, <- app_assoc. done.
    + congruence.
    + rewrite Hc', Hc. cbn [length]. lia.
    + change (r :: rs) with ([r] ++ rs)%list.
      rewrite Hth', Hth, countThreats_app. lia.
    + change (r :: rs) with ([r] ++ rs)%list.
      rewrite Hcl', Hcl, countClean_app. lia.
    + rewrite Hsu'. unfold w2. cbn [sessionUpdates]. rewrite Hsu, <- app_assoc. done.
    + exact Hlast.
    + apply Forall_cons. split.
      * exists 1%Z. pose proof (countThreats_countClean [r]) as Hone.
        cbn [length] in Hone |- *. split_and!; [lia | lia | done | done | lia].
      * eapply Forall_impl; [exact Htr |].
        intros x (k & Hk & Hxt & Hxc & Hxs). exists (k + 1)%Z.
        pose proof (countThreats_countClean [r]) as Hone.
        cbn [length] in Hone |- *. split_and!; [lia | lia | congruence | lia | lia].
Qed.

(** C1.  Every session [analyzeFiles] publishes satisfies
    [threatsFound + cleanFiles ≤ completedFiles ≤ totalFiles], with
    [threatsFound + cleanFiles = completedFiles] where
    [completedFiles = totalFiles]; and the last one published is such a
    terminal state. *)
Theorem analyzeFiles_counters (batch : list UploadedFile.t) w :
  ∃ trace final,
    sessionUpdates (snd (analyzeFiles batch w))
      = (sessionUpdates w ++ trace)%list ∧
    Forall countersOK trace ∧
    last trace = Some final ∧
    completedFiles final = totalFiles final.
Proof.
  unfold analyzeFiles.
  set (body := fun session file => _).
  set (s0 := mk (IdStamp "session" (clock w)) [] (clock w)
               (Z.of_nat (length batch)) 0 0 0).
  set (w0 := snd (notifySessionListeners s0 w)).
  pose proof (analyzeFiles_loop (fun _ _ => True) batch (fun _ _ _ => I) s0 w0)
    as Hloop.
  unfold post in Hloop. fold body in Hloop.
  destruct Hloop as (rs & trace & HF & _ & Ht & Hc & _ & _ & Hsu & Hlast & Htr).
  apply Forall2_length in HF.
  exists (s0 :: trace), (fst (forOf batch body s0 w0)).
  split_and!.
  - change (sessionUpdates (snd (forOf batch body s0 w0))
            = (sessionUpdates w ++ s0 :: trace)%list).
    rewrite Hsu. unfold w0. cbn [notifySessionListeners snd sessionUpdates].
    by rewrite <- app_assoc.
  - apply Forall_cons. split.
    + unfold countersOK, s0. cbn. lia.
    + eapply Forall_impl; [exact Htr |].
      intros x (k & Hk & Hxt & Hxc & Hxs). unfold countersOK.
      rewrite Hxt, Hxc. unfold s0 in *. cbn in *. lia.
  - exact Hlast.
  - rewrite Ht, Hc. unfold s0. cbn. lia.
Qed.


(** The last session [analyzeFiles] publishes holds one result per file of
    the batch, in order, and counts them. *)
Lemma analyzeFiles_results (P : UploadedFile.t → FileAnalysisResult.t → Prop)
    (batch : list UploadedFile.t) w :
  (∀ f w', f ∈ batch → P f (fst (analyzeFile f w'))) →
  ∃ s rs,
    last (sessionUpdates (snd (analyzeFiles batch w))) = Some s ∧
    Forall2 P batch rs ∧
    files s = rs ∧
    totalFiles s = Z.of_nat (length batch) ∧
    completedFiles s = Z.of_nat (length rs) ∧
    threatsFound s = countThreats rs ∧
    cleanFiles s = countClean rs.
Proof.
  intros HP. unfold analyzeFiles.
  set (body := fun session file => _).
  set (s0 := mk (IdStamp "session" (clock w)) [] (clock w)
               (Z.of_nat (length batch)) 0 0 0).
  set (w0 := snd (notifySessionListeners s0 w)).
  pose proof (analyzeFiles_loop P batch HP s0 w0) as Hloop.
  unfold post in Hloop. fold body in Hloop.
  destruct Hloop as (rs & trace & HF & Hf & Ht & Hc & Hth & Hcl & Hsu & Hlast & _).
  exists (fst (forOf batch body s0 w0)), rs.
  assert (last (sessionUpdates (snd (forOf batch body s0 w0)))
          = Some (fst (forOf batch body s0 w0))) as Hfinal.
  { rewrite Hsu. unfold w0. cbn [notifySessionListeners snd sessionUpdates].
    rewrite <- app_assoc. cbn [app]. by rewrite last_app, Hlast. }
  split_and!; [exact Hfinal | exact HF | exact Hf | exact Ht | | |].
  - rewrite Hc. unfold s0. cbn. lia.
  - rewrite Hth. unfold s0. cbn. lia.
  - rewrite Hcl. unfold s0. cbn. lia.
Qed.

End SessionFacts.

Section Scenario.
Import FileAnalysisResult.

(** C7, as the specification states it, fails: when every call of
    [Math.random()] gives 0.95, both documents get the high-entropy and the
    suspicious-strings detection and come out suspicious, and the session
    ends with three threats and no clean file. *)
Lemma scenario_not_as_stated :
  (∀ n : nat, (0 <= randoms unluckyWorld n)%Q ∧ (randoms unluckyWorld n < 1)%Q) ∧
  ¬ scenarioAsStated unluckyWorld.
Proof.
  split; [intros n; split; [discriminate | reflexivity] |].
  intros (s & r1 & r2 & r3 & Hlast & ? & ? & ? & ? & Hthreats & ?).
  vm_compute in Hlast. injection Hlast as Hs. subst s. discriminate Hthreats.
Qed.

(** Symbolic runs of [analyzeFile] on a given file: the record updates and
    the tests on the file are computed, the tests on random draws split the
    run. *)
Ltac tidy :=
  cbn [setStatus setOverallThreat setRiskScore setScanProgress setEndTime
       setDetections setFileProperties setThreatIntelligence
       addMalwareSignature addSuspiciousPattern addFileIntegrity
       addBehaviorAnalysis pushMalwareSignature pushSuspiciousPattern
       pushFileIntegrity pushBehaviorAnalysis setIsEncrypted
       setHasExecutableCode setKnownMalware setFamilyName
       id file status overallThreat riskScore scanProgress startTime endTime
       detections fileProperties recommendations threatIntelligence
       Detections.malwareSignatures Detections.suspiciousPatterns
       Detections.fileIntegrity Detections.behaviorAnalysis
       FileProperties.fileType FileProperties.actualType FileProperties.size
       FileProperties.entropy FileProperties.isEncrypted
       FileProperties.hasExecutableCode FileProperties.suspiciousNames
       ThreatIntelligence.knownMalware ThreatIntelligence.familyName
       ThreatIntelligence.firstSeen ThreatIntelligence.prevalence
       randoms drawn clock item setItemError console analysisUpdates
       sessionUpdates fst snd app].

Ltac run_step :=
  match goal with
    | |- post (bind _ _) _ _ => apply post_bind
    | |- post (ret _) _ _ => apply post_ret; cbn beta
    | |- post (let _ := _ in _) _ _ => cbn zeta; tidy
    | |- post (if ?b then _ else _) _ _ =>
        first
          [ apply post_true; [lazy; reflexivity |]
          | apply post_false; [lazy; reflexivity |]
          | destruct b ]
    | |- post (forOf (_ :: _) _ _) _ _ => apply post_forOf_cons; cbn beta
    | |- post (forOf [] _ _) _ _ => apply post_forOf_nil; cbn beta
    | |- post (forOf maliciousPatterns _ _) _ _ => unfold maliciousPatterns
    | |- post (scanLoop _ _ _) _ _ =>
        first [ rewrite scanLoop_step by reflexivity
              | rewrite scanLoop_stop by reflexivity ]
    | |- post (scanStage _ _) _ _ => unfold scanStage
    | |- post (scanForMalwareSignatures _) _ _ =>
        unfold scanForMalwareSignatures; tidy
    | |- post (scanForSuspiciousPatterns _) _ _ =>
        unfold scanForSuspiciousPatterns; tidy
    | |- post (analyzeFileIntegrity _) _ _ => unfold analyzeFileIntegrity; tidy
    | |- post (performBehaviorAnalysis _) _ _ =>
        unfold performBehaviorAnalysis; tidy
    | |- post dateNow _ _ => apply post_dateNow; cbn beta; tidy
    | |- post mathRandom _ _ => apply post_mathRandom; cbn beta; tidy
    | |- post (delay _) _ _ => apply post_delay; cbn beta; tidy
    | |- post (notifyListeners _) _ _ =>
        apply post_notifyListeners; cbn beta; tidy
    end.

Ltac run := repeat run_step.

Lemma analyzeFile_plain_cases f w :
  f = docPdf ∨ f = noteTxt →
  let r := fst (analyzeFile f w) in
  let integrity := length (Detections.fileIntegrity (detections r)) in
  let behavior := length (Detections.behaviorAnalysis (detections r)) in
  (overallThreat r = SUSPICIOUS ∧ integrity = 1%nat ∧ behavior = 1%nat) ∨
  (overallThreat r = CLEAN ∧ (integrity = 0%nat ∨ behavior = 0%nat)).
Proof.
  intros Hf.
  change (post (analyzeFile f) w (fun r _ =>
    let integrity := length (Detections.fileIntegrity (detections r)) in
    let behavior := length (Detections.behaviorAnalysis (detections r)) in
    (overallThreat r = SUSPICIOUS ∧ integrity = 1%nat ∧ behavior = 1%nat) ∨
    (overallThreat r = CLEAN ∧ (integrity = 0%nat ∨ behavior = 0%nat)))).
  destruct Hf as [-> | ->]; unfold analyzeFile, scanFuel; run; lazy;
    first [ left; repeat split; reflexivity
          | right; split; [reflexivity |];
            first [left; reflexivity | right; reflexivity] ].
Qed.

Lemma analyzeFile_plain f w :
  f = docPdf ∨ f = noteTxt → cleanUnlessBothRandom (fst (analyzeFile f w)).
Proof.
  intros Hf. pose proof (analyzeFile_plain_cases f w Hf) as Hcases.
  cbn zeta in Hcases. unfold cleanUnlessBothRandom. cbn zeta.
  destruct (Detections.fileIntegrity _) as [| d1 l1],
    (Detections.behaviorAnalysis _) as [| d2 l2];
    cbn [length] in Hcases;
    destruct Hcases as [(Ht & Hi & Hb) | (Ht & [Hi | Hb])];
    try discriminate; rewrite Ht;
    (split; [auto | split; [try discriminate; by intros _ | intros [? ?]; done]]).
Qed.

Lemma analyzeFile_backdoorExe w : aboveSuspicious (fst (analyzeFile backdoorExe w)).
Proof.
  change (post (analyzeFile backdoorExe) w (fun r _ => aboveSuspicious r)).
  unfold analyzeFile, scanFuel. run.
  all: lazy.
  all: first [left; reflexivity | right; reflexivity].
Qed.


Lemma countThreats_cons r l :
  countThreats (r :: l) = (flagged r + countThreats l)%Z.
Proof.
  unfold countThreats, flagged. rewrite filter_cons.
  destruct (decide (overallThreat r = CLEAN)) as [Hc | Hc].
  - rewrite decide_False by (intros H; apply H, Hc).
    by rewrite bool_decide_eq_true_2.
  - rewrite decide_True by done. rewrite bool_decide_eq_false_2 by done.
    cbn [length]. lia.
Qed.

Lemma countClean_cons r l :
  countClean (r :: l) = (1 - flagged r + countClean l)%Z.
Proof.
  unfold countClean, flagged. rewrite filter_cons.
  destruct (decide (overallThreat r = CLEAN)) as [Hc | Hc].
  - rewrite bool_decide_eq_true_2 by done. cbn [length]. lia.
  - by rewrite bool_decide_eq_false_2.
Qed.

Lemma aboveSuspicious_flagged r : aboveSuspicious r → flagged r = 1%Z.
Proof. unfold flagged. by intros [-> | ->]. Qed.

(** The counters of a session that ends on two documents and a result
    above suspicious. *)
Lemma scenario_tally (s : ScanSession.t) r1 r2 r3 :
  ScanSession.threatsFound s = countThreats [r1; r2; r3] →
  ScanSession.cleanFiles s = countClean [r1; r2; r3] →
  aboveSuspicious r3 →
  ScanSession.threatsFound s = (1 + flagged r1 + flagged r2)%Z ∧
  ScanSession.cleanFiles s = (2 - flagged r1 - flagged r2)%Z.
Proof.
  intros -> -> H3%aboveSuspicious_flagged.
  rewrite !countThreats_cons, !countClean_cons, H3.
  unfold countThreats, countClean. rewrite !filter_nil. cbn [length]. lia.
Qed.

(** The scenario does come out as the specification states it when no
    random detection fires, as in a run whose draws are all 0. *)
Lemma scenario_as_stated_on_low_draws :
  scenarioAsStated (freshWorld (fun _ => 0%Q)).
Proof.
  unfold scenarioAsStated.
  remember (last (sessionUpdates
                    (snd (analyzeFiles scenarioFiles (freshWorld (fun _ => 0%Q))))))
    as final eqn:Hfinal.
  vm_compute in Hfinal. subst final.
  eexists _, _, _, _. split; [reflexivity |]. split; [reflexivity |].
  cbn. split_and!; try reflexivity. lia.
Qed.

(** C7, as the code has it.  In the scenario [backdoor.exe] always comes out
    malicious or critical; [doc.pdf] and [note.txt] come out clean unless
    the random draws give the file both a high-entropy and a
    suspicious-strings detection, which makes it suspicious; the session
    ends with three files completed, [threatsFound] being 1 plus the number
    of documents that came out suspicious and [cleanFiles] the rest. *)
Theorem scenario_outcome w :
  ∃ s r1 r2 r3,
    last (sessionUpdates (snd (analyzeFiles scenarioFiles w))) = Some s ∧
    ScanSession.files s = [r1; r2; r3] ∧
    cleanUnlessBothRandom r1 ∧
    cleanUnlessBothRandom r2 ∧
    aboveSuspicious r3 ∧
    ScanSession.completedFiles s = 3%Z ∧
    ScanSession.threatsFound s = (1 + flagged r1 + flagged r2)%Z ∧
    ScanSession.cleanFiles s = (2 - flagged r1 - flagged r2)%Z.
Proof.
  set (P := fun (f : UploadedFile.t) (r : t) =>
              (f = docPdf ∨ f = noteTxt → cleanUnlessBothRandom r) ∧
              (f = backdoorExe → aboveSuspicious r)).
  assert (∀ f w', f ∈ scenarioFiles → P f (fst (analyzeFile f w'))) as HP.
  { intros f w' _. split.
    - apply analyzeFile_plain.
    - intros ->. apply analyzeFile_backdoorExe. }
  destruct (analyzeFiles_results P scenarioFiles w HP)
    as (s & rs & Hlast & HF & Hfiles & _ & Hc & Hth & Hcl).
  unfold scenarioFiles in HF.
  apply Forall2_cons_inv_l in HF as (r1 & rs1 & [H1 _] & HF & ->).
  apply Forall2_cons_inv_l in HF as (r2 & rs2 & [H2 _] & HF & ->).
  apply Forall2_cons_inv_l in HF as (r3 & rs3 & [_ H3] & HF & ->).
  apply Forall2_nil_inv_l in HF as ->.
  exists s, r1, r2, r3.
  split; [exact Hlast |]. split; [exact Hfiles |].
  split; [exact (H1 (or_introl eq_refl)) |].
  split; [exact (H2 (or_intror eq_refl)) |].
  split; [exact (H3 eq_refl) |].
  split; [exact Hc |].
  exact (scenario_tally s r1 r2 r3 Hth Hcl (H3 eq_refl)).
Qed.

End Scenario.

Section HistoryFacts.
Import HistoricalScan.

Lemma getHistory_storage w :
  setItemError (snd (getHistory w)) = setItemError w ∧
  item (snd (getHistory w)) = item w.
Proof. unfold getHistory. destruct (item w) eqn:E; simpl; auto. Qed.

(** A write the storage accepts: the method returns and the next
    [getHistory] reads the written list back. *)
Lemma saveHistory_accepted history w :
  setItemError w history = None →
  fst (saveHistory history w) = Returns ∧
  fst (getHistory (snd (saveHistory history w))) = history ∧
  setItemError (snd (saveHistory history w)) = setItemError w.
Proof.
  intros Hok. unfold saveHistory, bind, setItem. rewrite Hok. simpl. auto.
Qed.

(** What [saveHistoricalScan] hands to [saveHistory]. *)
Lemma saveHistoricalScan_unfold session results w :
  ∃ w1, setItemError w1 = setItemError w ∧
    saveHistoricalScan session results w =
      saveHistory
        (take MAX_HISTORY_ITEMS
           (historicalScan session results (clock w) (randoms w (drawn w))
            :: fst (getHistory w))) w1.
Proof.
  unfold saveHistoricalScan, bind, dateNow, mathRandom. cbn [fst snd].
  set (w0 := mkWorld _ _ _ _ _ _ _ _).
  exists (snd (getHistory w0)). split.
  - by destruct (getHistory_storage w0) as [-> _].
  - assert (fst (getHistory w0) = fst (getHistory w)) as ->.
    { unfold getHistory, w0. cbn [item]. by destruct (item w). }
    set (h := _ :: _).
    destruct (Nat.ltb_spec MAX_HISTORY_ITEMS (length h)) as [Hlt | Hge]; [done |].
    by rewrite take_ge.
Qed.


Lemma saveHistoricalScan_stored session results w :
  let entry := historicalScan session results (clock w) (randoms w (drawn w)) in
  let before := fst (getHistory w) in
  setItemError w (take MAX_HISTORY_ITEMS (entry :: before)) = None →
  fst (saveHistoricalScan session results w) = Returns ∧
  fst (getHistory (snd (saveHistoricalScan session results w))) =
    take MAX_HISTORY_ITEMS (entry :: before).
Proof.
  intros entry before Hok.
  destruct (saveHistoricalScan_unfold session results w) as (w1 & Hw1 & ->).
  fold entry before. rewrite <- Hw1 in Hok.
  destruct (saveHistory_accepted _ _ Hok) as (? & ? & _). done.
Qed.

(** C3.  Recording prepends: after a write the storage accepts, the stored
    list is the new entry followed by the previous entries in their order,
    cut to [MAX_HISTORY_ITEMS]; below capacity nothing is dropped; and on a
    store that holds [MAX_HISTORY_ITEMS] entries exactly the last (oldest)
    one is dropped, the size stays [MAX_HISTORY_ITEMS], and the new entry is
    first. *)
Theorem saveHistoricalScan_prepends session results w :
  let entry := historicalScan session results (clock w) (randoms w (drawn w)) in
  let before := fst (getHistory w) in
  let after := fst (getHistory (snd (saveHistoricalScan session results w))) in
  setItemError w (take MAX_HISTORY_ITEMS (entry :: before)) = None →
  after = entry :: take (MAX_HISTORY_ITEMS - 1) before ∧
  ((length before < MAX_HISTORY_ITEMS)%nat → after = entry :: before) ∧
  (∀ kept oldest,
     before = (kept ++ [oldest])%list →
     length before = MAX_HISTORY_ITEMS →
     after = entry :: kept ∧ length after = MAX_HISTORY_ITEMS).
Proof.
  intros entry before after Hok.
  destruct (saveHistoricalScan_stored session results w Hok) as [_ Hafter].
  fold entry before after in Hafter.
  assert (after = entry :: take (MAX_HISTORY_ITEMS - 1) before) as Heq.
  { rewrite Hafter. reflexivity. }
  split_and!; [done | |].
  - intros Hlt. rewrite Heq, take_ge; [done | unfold MAX_HISTORY_ITEMS in *; lia].
  - intros kept oldest Hsplit Hlen. rewrite Heq.
    assert (length kept = (MAX_HISTORY_ITEMS - 1)%nat) as Hkept.
    { rewrite Hsplit, length_app in Hlen. simpl in Hlen.
      unfold MAX_HISTORY_ITEMS in *. lia. }
    rewrite Hsplit, <- Hkept, take_app_length. split; [done |].
    simpl. rewrite Hkept. reflexivity.
Qed.

Lemma countThreats_spec outcomes :
  countThreats outcomes = countOutcomes (fun c => negb (isClean c)) outcomes.
Proof.
  unfold countThreats. induction outcomes as [| o rest IH]; [done |].
  rewrite filter_cons. cbn [countOutcomes]. rewrite <- IH.
  destruct (FileAnalysisResult.overallThreat o) eqn:E;
    (rewrite decide_True by done) || (rewrite decide_False by (intros H; by apply H));
    cbn [isClean negb length]; lia.
Qed.

Lemma countClean_spec outcomes :
  countClean outcomes = countOutcomes isClean outcomes.
Proof.
  unfold countClean. induction outcomes as [| o rest IH]; [done |].
  rewrite filter_cons. cbn [countOutcomes]. rewrite <- IH.
  destruct (FileAnalysisResult.overallThreat o) eqn:E;
    (rewrite decide_True by done) || (rewrite decide_False by done);
    cbn [isClean length]; lia.
Qed.

Lemma riskSum_fold outcomes acc :
  fold_left (fun sum r => (sum + FileAnalysisResult.riskScore r)%Z) outcomes acc
  = (acc + riskSum outcomes)%Z.
Proof.
  revert acc. induction outcomes as [| o rest IH]; intros acc; simpl.
  - lia.
  - rewrite IH. lia.
Qed.

Lemma mathRound_nearest x : roundedTo x (mathRound x).
Proof.
  unfold roundedTo, mathRound.
  pose proof (Qfloor_le (x + (1 # 2))) as Hle.
  pose proof (Qlt_floor (x + (1 # 2))) as Hlt.
  rewrite inject_Z_plus in Hlt. change (inject_Z 1) with 1%Q in Hlt.
  generalize dependent (inject_Z (Qfloor (x + (1 # 2)))). intros n Hle Hlt.
  split; lra.
Qed.

Lemma averageRisk_spec outcomes :
  outcomes ≠ [] → roundedTo (meanRisk outcomes) (averageRisk outcomes).
Proof.
  intros Hne. unfold averageRisk, meanRisk.
  destruct outcomes as [| o rest]; [done |].
  cbn [length Nat.ltb Nat.leb]. rewrite riskSum_fold, Z.add_0_l.
  apply mathRound_nearest.
Qed.

(** C10.  In the entry [saveHistoricalScan] builds and hands to
    [saveHistory], the three counters are computed from the results handed
    in and not from the session: [totalFiles] is the length of the list,
    [threatsFound] the number of results that are not clean, [cleanFiles]
    the number of clean ones, so that [totalFiles] is the sum of the two,
    each result counted on exactly one side; another session with the same
    results gives the same three. *)
Theorem historicalScan_total_partition session results now salt :
  let entry := historicalScan session results now salt in
  totalFiles entry = Z.of_nat (length results) ∧
  threatsFound entry = countOutcomes (fun c => negb (isClean c)) results ∧
  cleanFiles entry = countOutcomes isClean results ∧
  totalFiles entry = (threatsFound entry + cleanFiles entry)%Z ∧
  HistoricalScan.results entry = map stripContent results ∧
  (∀ session',
     let entry' := historicalScan session' results now salt in
     totalFiles entry' = totalFiles entry ∧
     threatsFound entry' = threatsFound entry ∧
     cleanFiles entry' = cleanFiles entry) ∧
  (∀ w, ∃ w1 rest,
     saveHistoricalScan session results w =
       saveHistory
         (historicalScan session results (clock w) (randoms w (drawn w))
          :: rest) w1).
Proof.
  intros entry. subst entry.
  cbn [historicalScan totalFiles threatsFound cleanFiles HistoricalScan.results].
  split_and!.
  - reflexivity.
  - apply countThreats_spec.
  - apply countClean_spec.
  - symmetry. apply countThreats_countClean.
  - reflexivity.
  - intros session'. cbn zeta. done.
  - intros w.
    destruct (saveHistoricalScan_unfold session results w) as (w1 & _ & ->).
    exists w1, (take (MAX_HISTORY_ITEMS - 1) (fst (getHistory w))).
    reflexivity.
Qed.

(** C6.  After a recording the storage accepts, the first listed entry is
    the one of this session and its statistics are those recomputed from
    the outcomes: [threatsFound] counts the outcomes that are not clean,
    [cleanFiles] the clean ones, and [avgRiskScore] is the mean of the risk
    scores rounded to the nearest integer (0 when there is no outcome). *)
Theorem record_then_list_statistics session outcomes w :
  let entry := historicalScan session outcomes (clock w) (randoms w (drawn w)) in
  setItemError w (take MAX_HISTORY_ITEMS (entry :: fst (getHistory w))) = None →
  ∃ e rest,
    fst (getHistory (snd (saveHistoricalScan session outcomes w))) = e :: rest ∧
    sessionId e = ScanSession.id session ∧
    results e = map stripContent outcomes ∧
    threatsFound e = countOutcomes (fun c => negb (isClean c)) outcomes ∧
    cleanFiles e = countOutcomes isClean outcomes ∧
    (outcomes ≠ [] → roundedTo (meanRisk outcomes) (avgRiskScore e)) ∧
    (outcomes = [] → avgRiskScore e = 0%Z).
Proof.
  intros entry Hok.
  destruct (saveHistoricalScan_stored session outcomes w Hok) as [_ Hafter].
  fold entry in Hafter.
  exists entry, (take (MAX_HISTORY_ITEMS - 1) (fst (getHistory w))).
  split; [exact Hafter |].
  unfold entry. cbn [historicalScan sessionId results threatsFound cleanFiles avgRiskScore].
  split_and!; [done | done | apply countThreats_spec | apply countClean_spec
              | apply averageRisk_spec | by intros ->].
Qed.

(** C9.  With ["ALL"] the filter is [getHistory] itself; with any other
    level it returns, in stored order, exactly the entries that have a
    result of that level. *)
Theorem filterHistoryByThreatLevel_spec w :
  filterHistoryByThreatLevel "ALL" w = getHistory w ∧
  ∀ level, level ≠ "ALL" →
    let listed := fst (getHistory w) in
    let found := fst (filterHistoryByThreatLevel level w) in
    found =
      filter (fun scan =>
                Exists (fun r =>
                  threatName (FileAnalysisResult.overallThreat r) = level)
                  (results scan))
        listed ∧
    found `sublist_of` listed ∧
    (∀ scan, scan ∈ found ↔
       scan ∈ listed ∧
       ∃ r, r ∈ results scan ∧
            threatName (FileAnalysisResult.overallThreat r) = level).
Proof.
  split.
  - unfold filterHistoryByThreatLevel, bind, ret. cbn [String.eqb Ascii.eqb Bool.eqb].
    by destruct (getHistory w).
  - intros level Hlevel listed found.
    assert (found =
      filter (fun scan => Exists (fun result =>
                threatName (FileAnalysisResult.overallThreat result) = level)
                (results scan)) listed) as Hfound.
    { unfold found, filterHistoryByThreatLevel, bind, ret.
      apply String.eqb_neq in Hlevel. rewrite Hlevel. reflexivity. }
    split_and!.
    + exact Hfound.
    + rewrite Hfound. apply sublist_filter.
    + intros scan. rewrite Hfound, list_elem_of_filter, Exists_exists. tauto.
Qed.


Lemma addTagsToScan_found scanId newTags w index scan :
  list_find (fun s => id s = scanId) (fst (getHistory w)) = Some (index, scan) →
  ∃ w1, setItemError w1 = setItemError w ∧
    addTagsToScan scanId newTags w =
      saveHistory
        (<[index := setTags (setOf (tags scan ++ newTags)) scan]>
           (fst (getHistory w))) w1.
Proof.
  intros Hfind. exists (snd (getHistory w)). split.
  - by destruct (getHistory_storage w) as [-> _].
  - unfold addTagsToScan, bind. cbn zeta. rewrite Hfind. reflexivity.
Qed.

Lemma setTags_twice v scan : setTags v (setTags v scan) = setTags v scan.
Proof. reflexivity. Qed.

(** C8.  For an id the history has and a write the storage accepts,
    [addTagsToScan] replaces the tags of the (first) entry with that id by
    the union of its tags and the given ones, each tag once: the entry then
    listed at that index carries exactly these tags and is otherwise the
    entry found, and every other entry is as before; calling it again with
    the same tags leaves the stored history as it is. *)
Theorem addTagsToScan_union scanId newTags w index scan :
  let history := fst (getHistory w) in
  let merged := setOf (tags scan ++ newTags) in
  let w1 := snd (addTagsToScan scanId newTags w) in
  list_find (fun s => id s = scanId) history = Some (index, scan) →
  setItemError w (<[index := setTags merged scan]> history) = None →
  fst (getHistory w1) = <[index := setTags merged scan]> history ∧
  (∃ stored,
     fst (getHistory w1) !! index = Some stored ∧
     tags stored = merged ∧
     (∀ tag, tag ∈ tags stored ↔ tag ∈ tags scan ∨ tag ∈ newTags) ∧
     NoDup (tags stored) ∧
     id stored = scanId ∧
     sessionId stored = sessionId scan ∧
     timestamp stored = timestamp scan ∧
     totalFiles stored = totalFiles scan ∧
     threatsFound stored = threatsFound scan ∧
     cleanFiles stored = cleanFiles scan ∧
     avgRiskScore stored = avgRiskScore scan ∧
     duration stored = duration scan ∧
     results stored = results scan ∧
     notes stored = notes scan) ∧
  length (fst (getHistory w1)) = length history ∧
  (∀ j, j ≠ index → fst (getHistory w1) !! j = history !! j) ∧
  (∀ tag, tag ∈ merged ↔ tag ∈ tags scan ∨ tag ∈ newTags) ∧
  NoDup merged ∧
  fst (getHistory (snd (addTagsToScan scanId newTags w1))) = fst (getHistory w1).
Proof.
  intros history merged w1 Hfind Hok.
  destruct (addTagsToScan_found scanId newTags w index scan Hfind)
    as (w0 & Hw0 & Hrun).
  fold history merged in Hrun.
  assert (setItemError w0 (<[index := setTags merged scan]> history) = None)
    as Hok0 by (by rewrite Hw0).
  destruct (saveHistory_accepted _ _ Hok0) as (_ & Hread & Hsame).
  rewrite <- Hrun in Hread, Hsame. fold w1 in Hread, Hsame.
  assert (∀ tag, tag ∈ merged ↔ tag ∈ tags scan ∨ tag ∈ newTags) as Hunion.
  { intros tag. unfold merged. rewrite setOf_elem, elem_of_app. tauto. }
  pose proof (setOf_NoDup (tags scan ++ newTags)) as Hnd. fold merged in Hnd.
  pose proof Hfind as Hfind0.
  apply list_find_Some in Hfind as (Hat & Hid & Hbefore).
  split; [exact Hread |]. split.
  { exists (setTags merged scan). split.
    - rewrite Hread. apply list_lookup_insert_eq. by eapply lookup_lt_Some.
    - cbn [tags setTags id sessionId timestamp totalFiles threatsFound
           cleanFiles avgRiskScore duration results notes].
      split_and!; try reflexivity; [exact Hunion | exact Hnd | exact Hid]. }
  split; [by rewrite Hread, length_insert |].
  split; [intros j Hj; by rewrite Hread, list_lookup_insert_ne |].
  split; [exact Hunion |]. split; [exact Hnd |].
  (* the second call finds the same entry, now carrying [merged] *)
  assert (list_find (fun s => id s = scanId) (fst (getHistory w1))
          = Some (index, setTags merged scan)) as Hfind1.
  { rewrite Hread. apply list_find_Some. split_and!.
    - apply list_lookup_insert_eq. by eapply lookup_lt_Some.
    - exact Hid.
    - intros j y Hj Hlt. rewrite list_lookup_insert_ne in Hj by lia.
      by eapply Hbefore. }
  destruct (addTagsToScan_found scanId newTags w1 index _ Hfind1)
    as (w2 & Hw2 & ->).
  cbn [tags setTags]. fold merged. unfold merged at 1.
  rewrite setOf_merge_again. fold merged.
  rewrite setTags_twice, Hread, list_insert_insert_eq.
  assert (setItemError w2 (<[index := setTags merged scan]> history) = None)
    as Hok2 by (by rewrite Hw2, Hsame, Hw0).
  by destruct (saveHistory_accepted _ _ Hok2) as (_ & -> & _).
Qed.


(** On a write refused for lack of space the first half of the list is
    written in a second attempt, outside any [try]. *)
Lemma saveHistory_quota_retry history w error :
  setItemError w history = Some error →
  errorName error = "QuotaExceededError" →
  saveHistory history w =
    setItem (take (length history / 2) history)
      (snd (consoleError "Error saving scan history:" w)).
Proof.
  intros Hfail Hname.
  assert (setItem history w = (Throws error, w)) as Hfirst.
  { unfold setItem. by rewrite Hfail. }
  unfold saveHistory, bind. rewrite Hfirst. cbn [fst snd].
  rewrite Hname, String.eqb_refl. reflexivity.
Qed.

(** C4.  With the storage quota used up so far that half of the history
    does not fit either, the second [setItem] throws and nothing catches
    it: [saveHistory], and with it [saveHistoricalScan], ends by throwing
    [QuotaExceededError] to its caller. *)
Theorem saveHistory_retry_failure_propagates :
  fst (saveHistory [testScan; olderScan] (fullWorld NoItem))
    = Throws (mkError "QuotaExceededError") ∧
  fst (saveHistoricalScan testSession testResults
         (fullWorld (ItemDoc [olderScan])))
    = Throws (mkError "QuotaExceededError").
Proof. split; vm_compute; reflexivity. Qed.

(** C3 on a store that holds 999 copies of the test entry and one older
    entry behind them: recording once more drops the older entry. *)
Lemma saveHistoricalScan_prepends_witness :
  let w := roomyWorld (ItemDoc (replicate 999 testScan ++ [olderScan])) in
  let entry := historicalScan testSession testResults (clock w)
                 (randoms w (drawn w)) in
  let after := fst (getHistory (snd (saveHistoricalScan testSession testResults w))) in
  setItemError w (take MAX_HISTORY_ITEMS (entry :: fst (getHistory w))) = None ∧
  after = entry :: replicate 999 testScan ∧
  length after = MAX_HISTORY_ITEMS.
Proof.
  intros w entry after. split; [reflexivity |].
  destruct (saveHistoricalScan_prepends testSession testResults w eq_refl)
    as (_ & _ & Hfull).
  apply (Hfull (replicate 999 testScan) olderScan); reflexivity.
Defined.

(** C6 on the test data: one threat, one clean file, mean score 100/2. *)
Lemma record_then_list_statistics_witness :
  let w := roomyWorld NoItem in
  setItemError w
    (take MAX_HISTORY_ITEMS
       (historicalScan testSession testResults (clock w) (randoms w (drawn w))
        :: fst (getHistory w))) = None ∧
  ∃ e rest,
    fst (getHistory (snd (saveHistoricalScan testSession testResults w)))
      = e :: rest ∧
    sessionId e = IdLit "test_session" ∧
    results e = map stripContent testResults ∧
    threatsFound e = 1%Z ∧
    cleanFiles e = 1%Z ∧
    roundedTo (100 # 2) (avgRiskScore e).
Proof.
  intros w. split; [reflexivity |].
  destruct (record_then_list_statistics testSession testResults w eq_refl)
    as (e & rest & H1 & H2 & H3 & H4 & H5 & H6 & _).
  exists e, rest. split_and!; [exact H1 | exact H2 | exact H3 | exact H4
                              | exact H5 | apply H6; discriminate].
Defined.

(** C9 for the level ["MALICIOUS"] on a store of two entries. *)
Lemma filterHistoryByThreatLevel_spec_witness :
  let w := roomyWorld (ItemDoc [olderScan; testScan]) in
  "MALICIOUS" ≠ "ALL" ∧
  fst (filterHistoryByThreatLevel "MALICIOUS" w) `sublist_of` fst (getHistory w) ∧
  (testScan ∈ fst (filterHistoryByThreatLevel "MALICIOUS" w) ↔
   testScan ∈ fst (getHistory w) ∧
   ∃ r, r ∈ results testScan ∧
        threatName (FileAnalysisResult.overallThreat r) = "MALICIOUS").
Proof.
  intros w.
  assert ("MALICIOUS" ≠ "ALL") as Hne by discriminate.
  split; [exact Hne |].
  destruct (filterHistoryByThreatLevel_spec w) as [_ Hlevel].
  destruct (Hlevel "MALICIOUS" Hne) as (_ & Hsub & Hmem).
  split; [exact Hsub | exact (Hmem testScan)].
Defined.

(** C8 on the test entry and the tag ["incident-42"], which the entry
    does not have: the stored entry has it, after its earlier tags. *)
Lemma addTagsToScan_union_witness :
  let w := roomyWorld (ItemDoc [testScan; olderScan]) in
  let scanId := IdSalted "hist" testTime (1 # 2) in
  let merged := setOf (tags testScan ++ ["incident-42"]) in
  let w1 := snd (addTagsToScan scanId ["incident-42"] w) in
  list_find (fun s => id s = scanId) (fst (getHistory w)) = Some (0%nat, testScan) ∧
  setItemError w (<[0%nat := setTags merged testScan]> (fst (getHistory w))) = None ∧
  fst (getHistory w1) = [setTags merged testScan; olderScan] ∧
  (∃ stored,
     fst (getHistory w1) !! 0%nat = Some stored ∧
     tags stored = (tags testScan ++ ["incident-42"])%list ∧
     "incident-42" ∈ tags stored ∧
     "incident-42" ∉ tags testScan) ∧
  NoDup merged ∧
  fst (getHistory (snd (addTagsToScan scanId ["incident-42"] w1)))
    = fst (getHistory w1).
Proof.
  intros w scanId merged w1.
  assert (list_find (fun s => id s = scanId) (fst (getHistory w))
          = Some (0%nat, testScan)) as Hfind by (vm_compute; reflexivity).
  split; [exact Hfind |]. split; [reflexivity |].
  destruct (addTagsToScan_union scanId ["incident-42"] w 0%nat testScan
              Hfind eq_refl)
    as (H1 & (stored & Hat & Htags & Hunion & _) & _ & _ & _ & H3 & H4).
  assert ("incident-42" ∉ tags testScan) as Hfresh.
  { intros Hin. apply (bool_decide_pack _) in Hin. vm_compute in Hin.
    contradiction. }
  split_and!; [exact H1 | | exact H3 | exact H4].
  exists stored. split_and!; [exact Hat | | | exact Hfresh].
  - rewrite Htags. vm_compute. reflexivity.
  - apply Hunion. right. left.
Defined.

End HistoryFacts.

(* ================================================================== *)
(** ** The history store: writes, queries and statistics *)
(* ================================================================== *)

Section StoreFacts.
Import HistoricalScan.

Lemma getHistory_value w : fst (getHistory w) = storedHistory w.
Proof. unfold getHistory, storedHistory. by destruct (item w). Qed.

Lemma storedHistory_getHistory w :
  storedHistory (snd (getHistory w)) = storedHistory w.
Proof.
  unfold storedHistory. by destruct (getHistory_storage w) as [_ ->].
Qed.

(** What [setItem] leaves in the store. *)
Lemma setItem_stored history w :
  storedHistory (snd (setItem history w)) =
    match setItemError w history with
    | None => history
    | Some _ => storedHistory w
    end.
Proof. unfold setItem. by destruct (setItemError w history). Qed.

Lemma consoleError_stored msg w :
  storedHistory (snd (consoleError msg w)) = storedHistory w.
Proof. reflexivity. Qed.

(** What [saveHistory] leaves in the store: the list, its newer half, or
    what was there. *)
Lemma saveHistory_stored history w :
  storedHistory (snd (saveHistory history w)) =
    match setItemError w history with
    | None => history
    | Some error =>
        if String.eqb (errorName error) "QuotaExceededError" then
          match setItemError w (take (length history / 2) history) with
          | None => take (length history / 2) history
          | Some _ => storedHistory w
          end
        else storedHistory w
    end.
Proof.
  unfold saveHistory, bind, setItem.
  destruct (setItemError w history) as [error |] eqn:E1; [| done].
  cbn [fst snd].
  destruct (String.eqb (errorName error) "QuotaExceededError"); [| done].
  cbn [consoleError fst snd setItemError].
  by destruct (setItemError w (take (length history / 2) history)).
Qed.

Lemma saveHistory_stored_cases history w :
  storedHistory (snd (saveHistory history w)) = history ∨
  storedHistory (snd (saveHistory history w))
    = take (length history / 2) history ∨
  storedHistory (snd (saveHistory history w)) = storedHistory w.
Proof.
  rewrite saveHistory_stored.
  destruct (setItemError w history) as [error |]; [| auto].
  destruct (String.eqb _ _); [| auto].
  destruct (setItemError w _); auto.
Qed.


Lemma countThreats_stripContent results :
  countThreats (map stripContent results) = countThreats results.
Proof.
  unfold countThreats. f_equal.
  induction results as [| r rest IH]; [done |].
  cbn [map]. rewrite !filter_cons.
  change (FileAnalysisResult.overallThreat (stripContent r))
    with (FileAnalysisResult.overallThreat r).
  destruct (decide (FileAnalysisResult.overallThreat r ≠ CLEAN));
    cbn [length]; by rewrite IH.
Qed.

Lemma countClean_stripContent results :
  countClean (map stripContent results) = countClean results.
Proof.
  unfold countClean. f_equal.
  induction results as [| r rest IH]; [done |].
  cbn [map]. rewrite !filter_cons.
  change (FileAnalysisResult.overallThreat (stripContent r))
    with (FileAnalysisResult.overallThreat r).
  destruct (decide (FileAnalysisResult.overallThreat r = CLEAN));
    cbn [length]; by rewrite IH.
Qed.

Lemma riskFold_stripContent results acc :
  fold_left (fun sum r => (sum + FileAnalysisResult.riskScore r)%Z)
    (map stripContent results) acc
  = fold_left (fun sum r => (sum + FileAnalysisResult.riskScore r)%Z)
      results acc.
Proof.
  revert acc. induction results as [| r rest IH]; intros acc; [done |].
  cbn [map fold_left]. by rewrite IH.
Qed.

Lemma averageRisk_stripContent results :
  averageRisk (map stripContent results) = averageRisk results.
Proof.
  unfold averageRisk. by rewrite riskFold_stripContent, length_map.
Qed.

Lemma historicalScan_consistent session results now salt :
  entryConsistent (historicalScan session results now salt).
Proof.
  unfold entryConsistent, historicalScan. cbn [totalFiles threatsFound
    HistoricalScan.results cleanFiles avgRiskScore].
  by rewrite length_map, countThreats_stripContent, countClean_stripContent,
    averageRisk_stripContent.
Qed.

Lemma setTags_consistent v scan :
  entryConsistent scan → entryConsistent (setTags v scan).
Proof. by intros H. Qed.

Lemma setNotes_consistent v scan :
  entryConsistent scan → entryConsistent (setNotes v scan).
Proof. by intros H. Qed.

Lemma storeOK_take n history :
  Forall entryConsistent history → (length history <= MAX_HISTORY_ITEMS)%nat →
  Forall entryConsistent (take n history) ∧
  (length (take n history) <= MAX_HISTORY_ITEMS)%nat.
Proof.
  intros Hall Hlen. split; [by apply Forall_take |].
  rewrite length_take. lia.
Qed.

(** [saveHistory] of a consistent list of at most 1000 entries keeps the
    store consistent, whatever the storage does with the writes. *)
Lemma saveHistory_storeOK history w :
  storeOK w →
  Forall entryConsistent history → (length history <= MAX_HISTORY_ITEMS)%nat →
  storeOK (snd (saveHistory history w)).
Proof.
  intros Hw Hall Hlen. unfold storeOK.
  destruct (saveHistory_stored_cases history w) as [-> | [-> | ->]];
    [done | by apply storeOK_take | done].
Qed.

Lemma storeOK_getHistory w : storeOK w → storeOK (snd (getHistory w)).
Proof. unfold storeOK. by rewrite storedHistory_getHistory. Qed.

Lemma list_find_elem {A} (P : A → Prop) `{∀ x, Decision (P x)} l i x :
  list_find P l = Some (i, x) → l !! i = Some x.
Proof. intros Hf. by apply list_find_Some in Hf as (? & _). Qed.

Lemma mathRandom_stored w : storedHistory (snd (mathRandom w)) = storedHistory w.
Proof. reflexivity. Qed.

Lemma beforeWrite_stored w : storedHistory (beforeWrite w) = storedHistory w.
Proof. unfold beforeWrite. by rewrite storedHistory_getHistory. Qed.

Lemma beforeWrite_setItemError w : setItemError (beforeWrite w) = setItemError w.
Proof.
  unfold beforeWrite. by destruct (getHistory_storage (snd (mathRandom w))) as [-> _].
Qed.

Lemma saveHistoricalScan_run session results w :
  saveHistoricalScan session results w =
    saveHistory
      (take MAX_HISTORY_ITEMS
         (historicalScan session results (clock w) (randoms w (drawn w))
          :: storedHistory w))
      (beforeWrite w).
Proof.
  unfold saveHistoricalScan, bind, dateNow. cbn [fst snd].
  change (fst (mathRandom w)) with (randoms w (drawn w)).
  rewrite getHistory_value, mathRandom_stored.
  set (h := _ :: storedHistory w).
  destruct (MAX_HISTORY_ITEMS <? length h)%nat eqn:E; [done |].
  apply Nat.ltb_ge in E. by rewrite take_ge.
Qed.

Lemma saveHistoricalScan_storeOK session results w :
  storeOK w → storeOK (snd (saveHistoricalScan session results w)).
Proof.
  intros Hw. rewrite saveHistoricalScan_run.
  assert (storeOK (beforeWrite w)) as Hb.
  { unfold storeOK. by rewrite beforeWrite_stored. }
  destruct Hw as [Hall Hlen].
  apply saveHistory_storeOK; [done | |].
  - apply Forall_take, Forall_cons. split; [apply historicalScan_consistent | done].
  - rewrite length_take. lia.
Qed.

Lemma deleteHistoricalScan_run scanId w :
  deleteHistoricalScan scanId w =
    saveHistory (filter (fun scan => id scan ≠ scanId) (storedHistory w))
      (snd (getHistory w)).
Proof. unfold deleteHistoricalScan, bind. by rewrite getHistory_value. Qed.

Lemma Forall_filter_keep {A} (P Q : A → Prop) `{∀ x, Decision (P x)} l :
  Forall Q l → Forall Q (filter P l).
Proof.
  rewrite !Forall_forall. intros Hall x Hx.
  apply list_elem_of_filter in Hx as [_ Hx]. by apply Hall.
Qed.

Lemma deleteHistoricalScan_storeOK scanId w :
  storeOK w → storeOK (snd (deleteHistoricalScan scanId w)).
Proof.
  intros Hw. rewrite deleteHistoricalScan_run.
  pose proof (storeOK_getHistory w Hw) as Hg. destruct Hw as [Hall Hlen].
  apply saveHistory_storeOK; [done | by apply Forall_filter_keep |].
  pose proof (length_filter (fun scan => id scan ≠ scanId) (storedHistory w)).
  lia.
Qed.

Lemma addNotesToScan_run scanId text w :
  addNotesToScan scanId text w =
    match list_find (fun scan => id scan = scanId) (storedHistory w) with
    | Some (scanIndex, scan) =>
        saveHistory (<[scanIndex := setNotes text scan]> (storedHistory w))
          (snd (getHistory w))
    | None => (Returns, snd (getHistory w))
    end.
Proof.
  unfold addNotesToScan, bind. rewrite getHistory_value.
  by destruct (list_find _ _) as [[i scan] |].
Qed.

Lemma addTagsToScan_run scanId newTags w :
  addTagsToScan scanId newTags w =
    match list_find (fun scan => id scan = scanId) (storedHistory w) with
    | Some (scanIndex, scan) =>
        saveHistory
          (<[scanIndex := setTags (setOf (tags scan ++ newTags)) scan]>
             (storedHistory w))
          (snd (getHistory w))
    | None => (Returns, snd (getHistory w))
    end.
Proof.
  unfold addTagsToScan, bind. rewrite getHistory_value.
  by destruct (list_find _ _) as [[i scan] |].
Qed.

Lemma storeOK_insert i scan scan' history :
  history !! i = Some scan →
  (entryConsistent scan → entryConsistent scan') →
  Forall entryConsistent history → (length history <= MAX_HISTORY_ITEMS)%nat →
  Forall entryConsistent (<[i := scan']> history) ∧
  (length (<[i := scan']> history) <= MAX_HISTORY_ITEMS)%nat.
Proof.
  intros Hi Himp Hall Hlen. rewrite length_insert. split; [| done].
  apply Forall_insert; [done |].
  apply Himp. by eapply Forall_lookup_1 in Hall.
Qed.

Lemma addNotesToScan_storeOK scanId text w :
  storeOK w → storeOK (snd (addNotesToScan scanId text w)).
Proof.
  intros Hw. rewrite addNotesToScan_run.
  pose proof (storeOK_getHistory w Hw) as Hg. destruct Hw as [Hall Hlen].
  destruct (list_find _ _) as [[i scan] |] eqn:Hf; [| done].
  apply list_find_elem in Hf.
  destruct (storeOK_insert i scan (setNotes text scan) _ Hf
              (setNotes_consistent text scan) Hall Hlen).
  by apply saveHistory_storeOK.
Qed.

Lemma addTagsToScan_storeOK scanId newTags w :
  storeOK w → storeOK (snd (addTagsToScan scanId newTags w)).
Proof.
  intros Hw. rewrite addTagsToScan_run.
  pose proof (storeOK_getHistory w Hw) as Hg. destruct Hw as [Hall Hlen].
  destruct (list_find _ _) as [[i scan] |] eqn:Hf; [| done].
  apply list_find_elem in Hf.
  destruct (storeOK_insert i scan (setTags (setOf (tags scan ++ newTags)) scan)
              _ Hf (setTags_consistent _ scan) Hall Hlen).
  by apply saveHistory_storeOK.
Qed.

Lemma clearAllHistory_storeOK w : storeOK (snd (clearAllHistory w)).
Proof. split; [constructor | cbn; lia]. Qed.

Lemma runCall_storeOK c w : storeOK w → storeOK (snd (runCall c w)).
Proof.
  intros Hw. destruct c; cbn [runCall]; unfold bind, ret; cbn [fst snd].
  - by apply saveHistoricalScan_storeOK.
  - by apply deleteHistoricalScan_storeOK.
  - apply clearAllHistory_storeOK.
  - by apply addNotesToScan_storeOK.
  - by apply addTagsToScan_storeOK.
Qed.

(** X1.  Every sequence of writing calls keeps the store consistent: from
    a store of at most 1000 entries whose counters agree with the results
    they keep, recording, deleting, clearing, annotating and tagging leave
    such a store, whatever the storage does with the writes. *)
Theorem history_store_invariant (cs : list HistoryCall) (w : World) :
  storeOK w → storeOK (snd (runCalls cs w)).
Proof.
  unfold runCalls. revert w.
  induction cs as [| c cs IH]; intros w Hw; [done |].
  cbn [forOf]. unfold bind.
  pose proof (runCall_storeOK c w Hw) as Hc.
  destruct (runCall c w) as [[] w']. by apply IH.
Qed.

End StoreFacts.

Section StoreWrites.
Import HistoricalScan.

Lemma saveHistory_setItemError history w :
  setItemError (snd (saveHistory history w)) = setItemError w.
Proof.
  unfold saveHistory, bind, setItem.
  destruct (setItemError w history) as [error |] eqn:E1; [| done].
  cbn [fst snd].
  destruct (String.eqb (errorName error) "QuotaExceededError"); [| done].
  cbn [consoleError fst snd setItemError].
  by destruct (setItemError w (take (length history / 2) history)).
Qed.

(** The outcome of [saveHistory]: it throws only what the second write
    throws. *)
Lemma saveHistory_outcome history w :
  fst (saveHistory history w) =
    match setItemError w history with
    | None => Returns
    | Some error =>
        if String.eqb (errorName error) "QuotaExceededError" then
          match setItemError w (take (length history / 2) history) with
          | None => Returns
          | Some error' => Throws error'
          end
        else Returns
    end.
Proof.
  unfold saveHistory, bind, setItem.
  destruct (setItemError w history) as [error |] eqn:E1; [| done].
  cbn [fst snd].
  destruct (String.eqb (errorName error) "QuotaExceededError"); [| done].
  cbn [consoleError fst snd setItemError].
  by destruct (setItemError w (take (length history / 2) history)).
Qed.

Lemma saveHistory_console history w :
  console (snd (saveHistory history w)) =
    match setItemError w history with
    | None => console w
    | Some _ => (console w ++ ["Error saving scan history:"])%list
    end.
Proof.
  unfold saveHistory, bind, setItem.
  destruct (setItemError w history) as [error |] eqn:E1; [| done].
  cbn [fst snd].
  destruct (String.eqb (errorName error) "QuotaExceededError"); [| done].
  cbn [consoleError fst snd setItemError].
  by destruct (setItemError w (take (length history / 2) history)).
Qed.

Lemma eqb_name_false name :
  name ≠ "QuotaExceededError" → String.eqb name "QuotaExceededError" = false.
Proof. intros Hne. by apply String.eqb_neq. Qed.

Lemma beforeWrite_console w :
  console (beforeWrite w) =
    (console w ++ match item w with
                  | BadItem => ["Error loading scan history:"]
                  | NoItem | ItemDoc _ => []
                  end)%list.
Proof.
  unfold beforeWrite, getHistory, mathRandom. cbn [snd item].
  destruct (item w); cbn; by rewrite ?app_nil_r.
Qed.

Lemma beforeWrite_item w : item (beforeWrite w) = item w.
Proof.
  unfold beforeWrite.
  by destruct (getHistory_storage (snd (mathRandom w))) as [_ ->].
Qed.

(** A write refused for another reason than the quota leaves one line on
    the console and nothing else. *)
Lemma saveHistory_swallowed history w error :
  setItemError w history = Some error →
  errorName error ≠ "QuotaExceededError" →
  saveHistory history w
  = (Returns, snd (consoleError "Error saving scan history:" w)).
Proof.
  intros Hfail Hname. unfold saveHistory, bind, setItem. rewrite Hfail.
  cbn [fst snd]. by rewrite (eqb_name_false _ Hname).
Qed.

(** X2.  A write refused for another reason than the quota: the recording
    returns as if it had worked, the stored item and the history are what
    they were, and the console gets the line of the failed write, after the
    line of the failed reading when the stored text could not be read;
    no listener is called. *)
Theorem saveHistoricalScan_loses_silently session results w error :
  let entry := historicalScan session results (clock w) (randoms w (drawn w)) in
  setItemError w (take MAX_HISTORY_ITEMS (entry :: fst (getHistory w)))
    = Some error →
  errorName error ≠ "QuotaExceededError" →
  let w1 := snd (saveHistoricalScan session results w) in
  fst (saveHistoricalScan session results w) = Returns ∧
  item w1 = item w ∧
  fst (getHistory w1) = fst (getHistory w) ∧
  console w1 =
    (console w
     ++ match item w with
        | BadItem => ["Error loading scan history:"]
        | NoItem | ItemDoc _ => []
        end
     ++ ["Error saving scan history:"])%list ∧
  analysisUpdates w1 = analysisUpdates w ∧
  sessionUpdates w1 = sessionUpdates w.
Proof.
  intros entry Hfail Hname w1. subst w1.
  rewrite !getHistory_value in *. rewrite saveHistoricalScan_run. fold entry.
  rewrite <- beforeWrite_setItemError in Hfail.
  rewrite (saveHistory_swallowed _ _ _ Hfail Hname).
  cbn [fst snd consoleError]. unfold storedHistory at 1.
  cbn [item console analysisUpdates sessionUpdates].
  rewrite beforeWrite_item, beforeWrite_console, <- app_assoc.
  split_and!; try reflexivity.
  - unfold beforeWrite, getHistory, mathRandom. cbn [snd item].
    by destruct (item w).
  - unfold beforeWrite, getHistory, mathRandom. cbn [snd item].
    by destruct (item w).
Qed.

(** X3.  A write refused for the quota and a second write accepted: the
    history is the newer half of what was to be written, rounded down. *)
Theorem saveHistoricalScan_quota_halves session results w error :
  let entry := historicalScan session results (clock w) (randoms w (drawn w)) in
  let full := take MAX_HISTORY_ITEMS (entry :: fst (getHistory w)) in
  setItemError w full = Some error →
  errorName error = "QuotaExceededError" →
  setItemError w (take (length full / 2) full) = None →
  let w1 := snd (saveHistoricalScan session results w) in
  fst (saveHistoricalScan session results w) = Returns ∧
  fst (getHistory w1) = take (length full / 2) full ∧
  (fst (getHistory w) = [] → fst (getHistory w1) = []) ∧
  (fst (getHistory w) ≠ [] → head (fst (getHistory w1)) = Some entry).
Proof.
  intros entry full.
  assert (full = take MAX_HISTORY_ITEMS (entry :: storedHistory w)) as Hfull.
  { subst full. by rewrite getHistory_value. }
  clearbody full. intros Hfail Hname Hretry w1. subst w1.
  rewrite !getHistory_value. rewrite saveHistoricalScan_run.
  fold entry. rewrite <- Hfull.
  rewrite <- beforeWrite_setItemError in Hfail, Hretry.
  rewrite saveHistory_outcome, saveHistory_stored, Hfail, Hname, Hretry.
  cbn [String.eqb Ascii.eqb Bool.eqb].
  split; [done |]. split; [done |]. split.
  - intros Hnil. subst full. by rewrite Hnil.
  - intros Hne. subst full.
    destruct (storedHistory w) as [| scan rest] eqn:E; [done |].
    unfold MAX_HISTORY_ITEMS.
    change (take 1000 (entry :: scan :: rest))
      with (entry :: take 999 (scan :: rest)).
    cbn [length]. change (take 999 (scan :: rest)) with (scan :: take 998 rest).
    cbn [length].
    destruct (S (S (length (take 998 rest))) / 2)%nat as [| n] eqn:Ediv; [| done].
    apply Nat.div_small_iff in Ediv; lia.
Qed.

(** X4.  A stored text that cannot be read: the next recording the storage
    accepts replaces it by a history of this one entry. *)
Theorem saveHistoricalScan_over_unreadable session results w :
  let entry := historicalScan session results (clock w) (randoms w (drawn w)) in
  item w = BadItem →
  setItemError w [entry] = None →
  let w1 := snd (saveHistoricalScan session results w) in
  fst (getHistory w) = [] ∧
  fst (getHistory w1) = [entry] ∧
  console w1 = (console w ++ ["Error loading scan history:"])%list.
Proof.
  intros entry Hbad Hok w1. subst w1.
  assert (storedHistory w = []) as Hnil by (unfold storedHistory; by rewrite Hbad).
  rewrite !getHistory_value, Hnil. rewrite saveHistoricalScan_run. fold entry.
  rewrite Hnil. change (take MAX_HISTORY_ITEMS [entry]) with [entry].
  rewrite <- beforeWrite_setItemError in Hok.
  rewrite saveHistory_stored, saveHistory_console, Hok.
  split; [done |]. split; [done |].
  unfold beforeWrite, getHistory, mathRandom. cbn [snd item]. by rewrite Hbad.
Qed.

End StoreWrites.

Section StoreEdits.
Import HistoricalScan.

Lemma getHistory_setItemError w :
  setItemError (snd (getHistory w)) = setItemError w.
Proof. by destruct (getHistory_storage w) as [-> _]. Qed.

(** A write the storage accepts is what the next reading gives. *)
Lemma saveHistory_read_back history w :
  setItemError w history = None →
  fst (saveHistory history w) = Returns ∧
  storedHistory (snd (saveHistory history w)) = history.
Proof.
  intros Hok. by rewrite saveHistory_outcome, saveHistory_stored, Hok.
Qed.

Lemma filter_all {A} (P : A → Prop) `{∀ x, Decision (P x)} l :
  Forall P l → filter P l = l.
Proof.
  induction 1 as [| x l Hx _ IH]; [done |].
  by rewrite filter_cons, decide_True, IH.
Qed.

(** X5.  [deleteHistoricalScan] when the storage accepts the write: the
    entries with that id are gone, the others stay in their order; with no
    such entry the listed history is unchanged. *)
Theorem deleteHistoricalScan_spec scanId w :
  setItemError w (filter (fun scan => id scan ≠ scanId) (fst (getHistory w)))
    = None →
  let after := fst (getHistory (snd (deleteHistoricalScan scanId w))) in
  after `sublist_of` fst (getHistory w) ∧
  (∀ scan, scan ∈ after ↔ scan ∈ fst (getHistory w) ∧ id scan ≠ scanId) ∧
  (Forall (fun scan => id scan ≠ scanId) (fst (getHistory w)) →
   after = fst (getHistory w)).
Proof.
  intros Hok after. subst after.
  rewrite !getHistory_value in *. rewrite deleteHistoricalScan_run.
  rewrite <- getHistory_setItemError in Hok.
  destruct (saveHistory_read_back _ _ Hok) as [_ ->].
  split; [apply sublist_filter |]. split.
  - intros scan. rewrite list_elem_of_filter. tauto.
  - apply filter_all.
Qed.

(** X6.  Recording a session and deleting the new entry gives the earlier
    history back, when no earlier entry has the new id and the history was
    below its capacity. *)
Theorem record_then_delete session results w :
  let entry := historicalScan session results (clock w) (randoms w (drawn w)) in
  let before := fst (getHistory w) in
  setItemError w (entry :: before) = None →
  setItemError w before = None →
  Forall (fun scan => id scan ≠ id entry) before →
  (length before < MAX_HISTORY_ITEMS)%nat →
  let w1 := snd (saveHistoricalScan session results w) in
  head (fst (getHistory w1)) = Some entry ∧
  fst (getHistory (snd (deleteHistoricalScan (id entry) w1))) = before.
Proof.
  intros entry before.
  assert (before = storedHistory w) as Hbefore.
  { subst before. apply getHistory_value. }
  clearbody before. subst before.
  intros Hok1 Hok2 Hfresh Hroom w1.
  assert (storedHistory w1 = entry :: storedHistory w
          ∧ setItemError w1 = setItemError w) as [Hw1 He1].
  { subst w1. rewrite saveHistoricalScan_run. fold entry.
    rewrite take_ge by (cbn [length]; lia).
    rewrite saveHistory_setItemError, beforeWrite_setItemError.
    rewrite <- beforeWrite_setItemError in Hok1.
    by destruct (saveHistory_read_back _ _ Hok1) as [_ ->]. }
  rewrite !getHistory_value, Hw1. split; [done |].
  rewrite deleteHistoricalScan_run, Hw1.
  rewrite filter_cons, decide_False by (intros Hne; by apply Hne).
  rewrite (filter_all _ _ Hfresh).
  rewrite <- He1, <- getHistory_setItemError in Hok2.
  by destruct (saveHistory_read_back _ _ Hok2) as [_ ->].
Qed.

Lemma list_find_insert_same {A} (P : A → Prop) `{∀ x, Decision (P x)}
  (l : list A) i x y :
  list_find P l = Some (i, x) → P y →
  list_find P (<[i := y]> l) = Some (i, y).
Proof.
  intros Hf Hy. apply list_find_Some in Hf as (Hi & Hx & Hbefore).
  apply list_find_Some. split_and!.
  - rewrite list_lookup_insert_eq; [done |]. by eapply lookup_lt_Some.
  - done.
  - intros j z Hj Hlt. rewrite list_lookup_insert_ne in Hj by lia.
    by eapply Hbefore.
Qed.

(** X7.  [addNotesToScan] when the storage accepts the write: the first
    entry with the id gets the notes and keeps its other fields, every
    other entry is as before; with no such entry nothing is written. *)
Theorem addNotesToScan_spec scanId text w :
  let before := fst (getHistory w) in
  let after := fst (getHistory (snd (addNotesToScan scanId text w))) in
  match list_find (fun scan => id scan = scanId) before with
  | Some (index, scan) =>
      setItemError w (<[index := setNotes text scan]> before) = None →
      length after = length before ∧
      after !! index = Some (setNotes text scan) ∧
      notes (setNotes text scan) = Some text ∧
      tags (setNotes text scan) = tags scan ∧
      results (setNotes text scan) = results scan ∧
      (∀ j, j ≠ index → after !! j = before !! j)
  | None =>
      after = before ∧ item (snd (addNotesToScan scanId text w)) = item w
  end.
Proof.
  intros before after. subst before after.
  rewrite !getHistory_value. rewrite addNotesToScan_run.
  destruct (list_find _ _) as [[index scan] |] eqn:Hfind.
  - intros Hok. rewrite <- getHistory_setItemError in Hok.
    destruct (saveHistory_read_back _ _ Hok) as [_ ->].
    apply list_find_elem in Hfind.
    rewrite length_insert. split; [done |]. split.
    + rewrite list_lookup_insert_eq; [done |]. by eapply lookup_lt_Some.
    + split_and!; try done. intros j Hj. by rewrite list_lookup_insert_ne.
  - cbn [snd]. rewrite storedHistory_getHistory.
    by destruct (getHistory_storage w) as [_ ->].
Qed.

(** X8.  Notes and tags are independent: on a storage that accepts every
    write, adding notes and then tags to an entry leaves the same history
    as adding the tags and then the notes. *)
Theorem addNotes_addTags_commute scanId text newTags w :
  (∀ history, setItemError w history = None) →
  fst (getHistory (snd (addTagsToScan scanId newTags
                          (snd (addNotesToScan scanId text w)))))
  = fst (getHistory (snd (addNotesToScan scanId text
                            (snd (addTagsToScan scanId newTags w))))).
Proof.
  intros Hok. rewrite !getHistory_value.
  assert (∀ w' history, setItemError w' = setItemError w →
            storedHistory (snd (saveHistory history w')) = history
            ∧ setItemError (snd (saveHistory history w')) = setItemError w)
    as Hsave.
  { intros w' history He. rewrite saveHistory_setItemError, He. split; [| done].
    apply saveHistory_read_back. by rewrite He. }
  pose proof (getHistory_setItemError w) as Hg.
  rewrite (addNotesToScan_run scanId text w), (addTagsToScan_run scanId newTags w).
  destruct (list_find _ (storedHistory w)) as [[index scan] |] eqn:Hfind.
  - destruct (Hsave (snd (getHistory w))
                (<[index := setNotes text scan]> (storedHistory w)) Hg)
      as [Hn Hne].
    destruct (Hsave (snd (getHistory w))
                (<[index := setTags (setOf (tags scan ++ newTags)) scan]>
                   (storedHistory w)) Hg) as [Ht Hte].
    rewrite addTagsToScan_run, addNotesToScan_run, Hn, Ht.
    rewrite (list_find_insert_same _ _ _ _ (setNotes text scan) Hfind)
      by (apply list_find_Some in Hfind as (_ & Hid & _); exact Hid).
    rewrite (list_find_insert_same _ _ _ _
               (setTags (setOf (tags scan ++ newTags)) scan) Hfind)
      by (apply list_find_Some in Hfind as (_ & Hid & _); exact Hid).
    destruct (Hsave (snd (getHistory (snd (saveHistory
                (<[index := setNotes text scan]> (storedHistory w))
                (snd (getHistory w))))))
              (<[index := setTags (setOf (tags (setNotes text scan) ++ newTags))
                            (setNotes text scan)]>
                 (<[index := setNotes text scan]> (storedHistory w))))
      as [-> _]; [by rewrite getHistory_setItemError |].
    destruct (Hsave (snd (getHistory (snd (saveHistory
                (<[index := setTags (setOf (tags scan ++ newTags)) scan]>
                   (storedHistory w))
                (snd (getHistory w))))))
              (<[index := setNotes text
                            (setTags (setOf (tags scan ++ newTags)) scan)]>
                 (<[index := setTags (setOf (tags scan ++ newTags)) scan]>
                    (storedHistory w))))
      as [-> _]; [by rewrite getHistory_setItemError |].
    by rewrite !list_insert_insert_eq.
  - cbn [snd]. rewrite addTagsToScan_run, addNotesToScan_run.
    rewrite !storedHistory_getHistory, Hfind. cbn [snd].
    by rewrite !storedHistory_getHistory.
Qed.

End StoreEdits.

Section SearchFacts.
Import HistoricalScan.

Lemma startsWith_refl s : startsWith s s = true.
Proof. induction s as [| c s IH]; [done |]. cbn. by rewrite Ascii.eqb_refl. Qed.

Lemma startsWith_empty s : startsWith s "" = true.
Proof. by destruct s. Qed.

Lemma includes_refl s : includes s s = true.
Proof. destruct s; cbn [includes]; by rewrite startsWith_refl. Qed.

Lemma includes_empty s : includes s "" = true.
Proof. destruct s; cbn [includes]; by rewrite ?startsWith_empty. Qed.

Lemma lowerAscii_idemp c : lowerAscii (lowerAscii c) = lowerAscii c.
Proof. destruct c as [[] [] [] [] [] [] [] []]; reflexivity. Qed.

Lemma toLowerCase_idemp s : toLowerCase (toLowerCase s) = toLowerCase s.
Proof.
  induction s as [| c s IH]; [done |]. cbn [toLowerCase].
  by rewrite lowerAscii_idemp, IH.
Qed.

Lemma searchHistory_run query w :
  fst (searchHistory query w) =
    filter (fun scan => searchMatches (toLowerCase query) scan = true)
      (storedHistory w).
Proof. unfold searchHistory, bind. by rewrite getHistory_value. Qed.

Lemma existsb_always {A} (f : A → bool) (l : list A) :
  (∀ x, f x = true) → existsb f l = true ↔ l ≠ [].
Proof.
  intros Hf. destruct l as [| x l]; cbn; [split; done |].
  rewrite Hf. split; done.
Qed.

Lemma searchMatches_empty scan :
  searchMatches "" scan = true ↔
  results scan ≠ [] ∨ tags scan ≠ [] ∨ ∃ text, notes scan = Some text ∧ text ≠ "".
Proof.
  unfold searchMatches.
  rewrite !orb_true_iff.
  rewrite (existsb_always _ (results scan))
    by (intros r; by rewrite includes_empty).
  rewrite (existsb_always _ (tags scan))
    by (intros r; by rewrite includes_empty).
  assert (match notes scan with
          | Some text => truthy text && includes (toLowerCase text) ""
          | None => false
          end = true ↔ ∃ text, notes scan = Some text ∧ text ≠ "") as ->; [| tauto].
  destruct (notes scan) as [text |].
  - rewrite includes_empty, andb_true_r. unfold truthy.
    rewrite negb_true_iff, String.eqb_neq. split.
    + intros Hne. by exists text.
    + by intros (t & [= <-] & Hne).
  - split; [done | by intros (t & ? & _)].
Qed.

(** X9.  The empty query lists the scans that have something to look at: a
    result, a tag or notes that are not empty.  A recording of no file
    with no tag and no notes is not listed. *)
Theorem searchHistory_empty_query w scan :
  scan ∈ fst (searchHistory "" w) ↔
  scan ∈ fst (getHistory w) ∧
  (results scan ≠ [] ∨ tags scan ≠ [] ∨
   ∃ text, notes scan = Some text ∧ text ≠ "").
Proof.
  rewrite searchHistory_run, getHistory_value, list_elem_of_filter.
  change (toLowerCase "") with "". rewrite searchMatches_empty. tauto.
Qed.

Lemma existsb_witness {A} (f : A → bool) l x :
  x ∈ l → f x = true → existsb f l = true.
Proof.
  intros Hin Hf. apply existsb_exists. exists x. split; [| done].
  by apply list_elem_of_In.
Qed.

(** X10.  Searching for the name of a threat level, in whatever case, lists
    at least the scans that the filter by that level lists. *)
Theorem search_covers_threat_filter level query w scan :
  toLowerCase query = toLowerCase (threatName level) →
  scan ∈ fst (filterHistoryByThreatLevel (threatName level) w) →
  scan ∈ fst (searchHistory query w).
Proof.
  intros Hq. rewrite searchHistory_run, Hq.
  unfold filterHistoryByThreatLevel, bind. rewrite getHistory_value.
  assert (String.eqb (threatName level) "ALL" = false) as ->
    by (by destruct level).
  cbn [ret fst snd]. rewrite !list_elem_of_filter.
  intros [Hex Hin]. split; [| done].
  apply Exists_exists in Hex as (r & Hr & Hlevel).
  unfold searchMatches. rewrite !orb_true_iff. left. left.
  apply (existsb_witness _ _ r Hr). rewrite Hlevel, includes_refl.
  apply orb_true_r.
Qed.

End SearchFacts.

Section SearchFacts2.
Import HistoricalScan.

(** X11.  After a recording the storage accepts, a search for the name of
    one of the recorded files, in whatever case, lists the new entry
    first. *)
Theorem record_then_search session results w r query :
  let entry := historicalScan session results (clock w) (randoms w (drawn w)) in
  setItemError w (take MAX_HISTORY_ITEMS (entry :: fst (getHistory w))) = None →
  r ∈ results →
  toLowerCase query
    = toLowerCase (UploadedFile.name (FileAnalysisResult.file r)) →
  head (fst (searchHistory query (snd (saveHistoricalScan session results w))))
    = Some entry.
Proof.
  intros entry Hok Hr Hq.
  rewrite getHistory_value in Hok.
  rewrite searchHistory_run, Hq, saveHistoricalScan_run. fold entry.
  rewrite <- beforeWrite_setItemError in Hok.
  destruct (saveHistory_read_back _ _ Hok) as [_ ->].
  unfold MAX_HISTORY_ITEMS.
  change (take 1000 (entry :: storedHistory w))
    with (entry :: take 999 (storedHistory w)).
  rewrite filter_cons, decide_True; [done |].
  unfold searchMatches. rewrite !orb_true_iff. left. left.
  apply (existsb_witness _ _ (stripContent r)).
  - subst entry. cbn [historicalScan HistoricalScan.results].
    apply list_elem_of_fmap. by exists r.
  - change (UploadedFile.name (FileAnalysisResult.file (stripContent r)))
      with (UploadedFile.name (FileAnalysisResult.file r)).
    by rewrite includes_refl.
Qed.

Lemma filterHistoryByDateRange_run startDate endDate w :
  fst (filterHistoryByDateRange startDate endDate w) =
    filter (fun scan =>
              (startDate <= timestamp scan)%Z ∧ (timestamp scan <= endDate)%Z)
      (storedHistory w).
Proof. unfold filterHistoryByDateRange, bind. by rewrite getHistory_value. Qed.

(** X12.  [filterHistoryByDateRange] lists, in their order, the scans whose
    session started within the two dates, both included; when the end is
    before the start it lists nothing. *)
Theorem filterHistoryByDateRange_spec startDate endDate w :
  let listed := fst (filterHistoryByDateRange startDate endDate w) in
  listed `sublist_of` fst (getHistory w) ∧
  (∀ scan, scan ∈ listed ↔
     scan ∈ fst (getHistory w) ∧
     (startDate <= timestamp scan <= endDate)%Z) ∧
  ((endDate < startDate)%Z → listed = []).
Proof.
  intros listed. subst listed.
  rewrite filterHistoryByDateRange_run, getHistory_value.
  split; [apply sublist_filter |]. split.
  - intros scan. rewrite list_elem_of_filter. tauto.
  - intros Hinv. induction (storedHistory w) as [| scan rest IH]; [done |].
    rewrite filter_cons, decide_False by lia. exact IH.
Qed.

End SearchFacts2.

Section StatsFacts.
Import HistoricalScan.
Variable startOfDay : Z → Z.

Lemma getHistoryStats_scanFrequency w :
  ScanHistoryStats.scanFrequency (fst (getHistoryStats startOfDay w)) =
    let today := startOfDay (clock w) in
    ScanFrequency.mk (scansSince today (storedHistory w))
      (scansSince (today - 7 * dayMs) (storedHistory w))
      (scansSince (today - 30 * dayMs) (storedHistory w)).
Proof.
  unfold getHistoryStats, bind, dateNow. cbn [fst snd].
  rewrite getHistory_value.
  assert (clock (snd (getHistory w)) = clock w) as ->.
  { unfold getHistory. by destruct (item w). }
  cbn zeta. by destruct (fold_left weightedStep _ _).
Qed.

Lemma getHistoryStats_totalScans w :
  ScanHistoryStats.totalScans (fst (getHistoryStats startOfDay w))
  = Z.of_nat (length (storedHistory w)).
Proof.
  unfold getHistoryStats, bind, dateNow. cbn [fst snd].
  rewrite getHistory_value. cbn zeta. by destruct (fold_left weightedStep _ _).
Qed.

Lemma getHistoryStats_mostDangerousFile w :
  ScanHistoryStats.mostDangerousFile (fst (getHistoryStats startOfDay w))
  = fst (findMostDangerous (storedHistory w)).
Proof.
  unfold getHistoryStats, bind, dateNow. cbn [fst snd].
  rewrite getHistory_value. cbn zeta. by destruct (fold_left weightedStep _ _).
Qed.

Lemma getHistoryStats_totals w :
  ScanHistoryStats.totalFilesScanned (fst (getHistoryStats startOfDay w))
  = fold_left (fun sum scan => (sum + totalFiles scan)%Z) (storedHistory w) 0%Z
  ∧ ScanHistoryStats.totalThreatsFound (fst (getHistoryStats startOfDay w))
  = fold_left (fun sum scan => (sum + threatsFound scan)%Z) (storedHistory w) 0%Z.
Proof.
  unfold getHistoryStats, bind, dateNow. cbn [fst snd].
  rewrite getHistory_value. cbn zeta. by destruct (fold_left weightedStep _ _).
Qed.

Lemma getHistoryStats_avgRiskScore w :
  ScanHistoryStats.avgRiskScore (fst (getHistoryStats startOfDay w))
  = let sums := fold_left weightedStep (storedHistory w) (0%Z, 0%Z) in
    if (0 <? snd sums)%Z
    then mathRound (inject_Z (fst sums) / inject_Z (snd sums))
    else 0%Z.
Proof.
  unfold getHistoryStats, bind, dateNow. cbn [fst snd].
  rewrite getHistory_value. cbn zeta. by destruct (fold_left weightedStep _ _).
Qed.

Lemma scansSince_mono since1 since2 history :
  (since1 <= since2)%Z →
  (0 <= scansSince since2 history <= scansSince since1 history)%Z ∧
  (scansSince since1 history <= Z.of_nat (length history))%Z.
Proof.
  intros Hle. unfold scansSince.
  induction history as [| scan rest IH]; [cbn; lia |].
  rewrite !filter_cons.
  destruct (decide (since2 <= timestamp scan)%Z) as [H2 | H2].
  - rewrite decide_True by lia. cbn [length]. lia.
  - destruct (decide (since1 <= timestamp scan)%Z); cbn [length]; lia.
Qed.

(** X13.  The three frequencies of [getHistoryStats] are nested: the scans
    of today are among those of the week, those among the ones of the
    month, and those among all scans, whatever the time zone. *)
Theorem getHistoryStats_frequency_nested w :
  let stats := fst (getHistoryStats startOfDay w) in
  let f := ScanHistoryStats.scanFrequency stats in
  (0 <= ScanFrequency.today f <= ScanFrequency.thisWeek f)%Z ∧
  (ScanFrequency.thisWeek f <= ScanFrequency.thisMonth f)%Z ∧
  (ScanFrequency.thisMonth f <= ScanHistoryStats.totalScans stats)%Z.
Proof.
  intros stats f. subst f stats.
  rewrite getHistoryStats_scanFrequency, getHistoryStats_totalScans.
  cbn zeta. cbn [ScanFrequency.today ScanFrequency.thisWeek ScanFrequency.thisMonth].
  set (today := startOfDay (clock w)).
  assert (0 < dayMs)%Z as Hday by done.
  destruct (scansSince_mono (today - 7 * dayMs) today (storedHistory w))
    as [H1 _]; [lia |].
  destruct (scansSince_mono (today - 30 * dayMs) (today - 7 * dayMs)
              (storedHistory w)) as [H2 H3]; [lia |].
  lia.
Qed.


Lemma scoresAtMost_mono bound bound' history :
  (bound <= bound')%Z → scoresAtMost bound history → scoresAtMost bound' history.
Proof.
  intros Hle Hall. unfold scoresAtMost.
  eapply Forall_impl; [exact Hall |]. intros scan Hscan.
  eapply Forall_impl; [exact Hscan |]. intros r. cbn beta. lia.
Qed.

(** The inner loop over the results of [scan]: [done] are the results
    already looked at, [todo] those still to come. *)
Lemma dangerStep_fold scan seen todo acc :
  (∀ r, r ∈ todo → r ∈ results scan) →
  scoresAtMost (snd acc) seen →
  match fst acc with
  | None => snd acc = 0%Z
  | Some f =>
      MostDangerousFile.riskScore f = snd acc ∧ (0 < snd acc)%Z ∧
      ∃ scan' result,
        scan' ∈ (seen ++ [scan])%list ∧ result ∈ results scan' ∧
        MostDangerousFile.name f
          = UploadedFile.name (FileAnalysisResult.file result) ∧
        MostDangerousFile.riskScore f = FileAnalysisResult.riskScore result ∧
        MostDangerousFile.timestamp f = timestamp scan'
  end →
  let acc' := fold_left (dangerStep (timestamp scan)) todo acc in
  (snd acc <= snd acc')%Z ∧
  Forall (fun r => (FileAnalysisResult.riskScore r <= snd acc')%Z) todo ∧
  match fst acc' with
  | None => snd acc' = 0%Z
  | Some f =>
      MostDangerousFile.riskScore f = snd acc' ∧ (0 < snd acc')%Z ∧
      ∃ scan' result,
        scan' ∈ (seen ++ [scan])%list ∧ result ∈ results scan' ∧
        MostDangerousFile.name f
          = UploadedFile.name (FileAnalysisResult.file result) ∧
        MostDangerousFile.riskScore f = FileAnalysisResult.riskScore result ∧
        MostDangerousFile.timestamp f = timestamp scan'
  end.
Proof.
  revert acc. induction todo as [| r todo IH]; intros acc Hsub Hseen Hacc.
  - cbn. split; [lia |]. split; [constructor | done].
  - cbn [fold_left].
    assert (∀ r', r' ∈ todo → r' ∈ results scan) as Hsub'.
    { intros r' Hr'. apply Hsub. by right. }
    set (acc1 := dangerStep (timestamp scan) acc r).
    assert ((snd acc <= snd acc1)%Z ∧
            (FileAnalysisResult.riskScore r <= snd acc1)%Z ∧
            match fst acc1 with
            | None => snd acc1 = 0%Z
            | Some f =>
                MostDangerousFile.riskScore f = snd acc1 ∧ (0 < snd acc1)%Z ∧
                ∃ scan' result,
                  scan' ∈ (seen ++ [scan])%list ∧ result ∈ results scan' ∧
                  MostDangerousFile.name f
                    = UploadedFile.name (FileAnalysisResult.file result) ∧
                  MostDangerousFile.riskScore f
                    = FileAnalysisResult.riskScore result ∧
                  MostDangerousFile.timestamp f = timestamp scan'
            end) as (Hle1 & Hr1 & Hacc1).
    { subst acc1. destruct acc as [m mx]. cbn [fst snd] in *.
      unfold dangerStep.
      destruct (mx <? FileAnalysisResult.riskScore r)%Z eqn:E.
      - apply Z.ltb_lt in E.
        cbn [fst snd MostDangerousFile.riskScore MostDangerousFile.name
             MostDangerousFile.timestamp].
        split; [lia |]. split; [lia |]. split; [done |]. split.
        { destruct m as [f |]; lia. }
        exists scan, r. split_and!; try done.
        + apply elem_of_app. right. by left.
        + apply Hsub. by left.
      - apply Z.ltb_ge in E. cbn [fst snd]. split; [lia |]. split; [lia |].
        exact Hacc. }
    destruct (IH acc1 Hsub') as (Hle & Hall & Hres).
    + eapply scoresAtMost_mono; [exact Hle1 | exact Hseen].
    + exact Hacc1.
    + split; [lia |]. split; [| exact Hres].
      constructor; [lia | exact Hall].
Qed.

Lemma findMostDangerous_fold history seen acc :
  dangerInv seen acc →
  dangerInv (seen ++ history)%list
    (fold_left
       (fun acc scan => fold_left (dangerStep (timestamp scan)) (results scan) acc)
       history acc).
Proof.
  revert seen acc. induction history as [| scan rest IH]; intros seen acc Hinv.
  - by rewrite app_nil_r.
  - cbn [fold_left]. rewrite (cons_middle scan seen rest), app_assoc.
    apply IH. destruct Hinv as [Hseen Hacc].
    destruct (dangerStep_fold scan seen (results scan) acc) as (Hle & Hall & Hres).
    + done.
    + done.
    + destruct (fst acc) as [f |]; [| done].
      destruct Hacc as (H1 & H2 & scan' & r & Hin & Hrest).
      split; [done |]. split; [done |]. exists scan', r.
      split; [| done]. apply elem_of_app. by left.
    + split; [| exact Hres].
      apply Forall_app. split.
      * eapply scoresAtMost_mono; [exact Hle | exact Hseen].
      * constructor; [exact Hall | constructor].
Qed.

(** X14.  The most dangerous file of [getHistoryStats]: there is none
    exactly when no stored result has a score above 0; otherwise it is a
    stored result with the highest score of all, dated by its scan. *)
Theorem getHistoryStats_mostDangerous w :
  let history := fst (getHistory w) in
  match ScanHistoryStats.mostDangerousFile (fst (getHistoryStats startOfDay w))
  with
  | None => scoresAtMost 0 history
  | Some f =>
      (0 < MostDangerousFile.riskScore f)%Z ∧
      scoresAtMost (MostDangerousFile.riskScore f) history ∧
      ∃ scan result,
        scan ∈ history ∧ result ∈ results scan ∧
        MostDangerousFile.name f
          = UploadedFile.name (FileAnalysisResult.file result) ∧
        MostDangerousFile.riskScore f = FileAnalysisResult.riskScore result ∧
        MostDangerousFile.timestamp f = timestamp scan
  end.
Proof.
  intros history. subst history.
  rewrite getHistoryStats_mostDangerousFile, getHistory_value.
  destruct (findMostDangerous_fold (storedHistory w) [] (None, 0%Z))
    as [Hall Hres].
  { split; [constructor | done]. }
  rewrite app_nil_l in Hall, Hres. fold (findMostDangerous (storedHistory w)) in *.
  destruct (fst (findMostDangerous (storedHistory w))) as [f |].
  - destruct Hres as (Hscore & Hpos & Hex). rewrite <- Hscore in Hpos, Hall.
    split; [exact Hpos |]. split; [exact Hall |]. exact Hex.
  - by rewrite Hres in Hall.
Qed.


Lemma totalFiles_fold history acc :
  Forall entryConsistent history →
  fold_left (fun sum scan => (sum + totalFiles scan)%Z) history acc
  = (acc + Z.of_nat (length (concat (map results history))))%Z.
Proof.
  intros Hall. revert acc.
  induction Hall as [| scan rest Hscan _ IH]; intros acc; [cbn; lia |].
  cbn [fold_left map concat]. rewrite IH, length_app.
  destruct Hscan as (-> & _). lia.
Qed.

Lemma threatsFound_fold history acc :
  Forall entryConsistent history →
  fold_left (fun sum scan => (sum + threatsFound scan)%Z) history acc
  = (acc + countThreats (concat (map results history)))%Z.
Proof.
  intros Hall. revert acc.
  induction Hall as [| scan rest Hscan _ IH]; intros acc;
    [cbn [fold_left map concat]; unfold countThreats; cbn; lia |].
  cbn [fold_left map concat]. rewrite IH, countThreats_app.
  destruct Hscan as (_ & -> & _). lia.
Qed.

(** X15.  On a history whose entries are consistent, the totals of
    [getHistoryStats] are those of the stored results taken together: so
    many files, so many of them not clean. *)
Theorem getHistoryStats_totals_of_results w :
  Forall entryConsistent (fst (getHistory w)) →
  let stats := fst (getHistoryStats startOfDay w) in
  let stored := concat (map results (fst (getHistory w))) in
  ScanHistoryStats.totalFilesScanned stats = Z.of_nat (length stored) ∧
  ScanHistoryStats.totalThreatsFound stats = countThreats stored ∧
  (0 <= ScanHistoryStats.totalThreatsFound stats
     <= ScanHistoryStats.totalFilesScanned stats)%Z.
Proof.
  rewrite getHistory_value. intros Hall stats stored. subst stats stored.
  destruct (getHistoryStats_totals w) as [-> ->].
  rewrite totalFiles_fold, threatsFound_fold by done.
  split; [lia |]. split; [lia |].
  pose proof (countThreats_countClean (concat (map results (storedHistory w)))).
  unfold countThreats, countClean in *. lia.
Qed.

Lemma weightedStep_fold lo hi history acc :
  Forall (fun scan => (0 <= totalFiles scan)%Z ∧
                      (lo <= avgRiskScore scan <= hi)%Z) history →
  (0 <= snd acc)%Z → (lo * snd acc <= fst acc <= hi * snd acc)%Z →
  let sums := fold_left weightedStep history acc in
  (0 <= snd sums)%Z ∧ (lo * snd sums <= fst sums <= hi * snd sums)%Z.
Proof.
  intros Hall. revert acc.
  induction Hall as [| scan rest Hscan _ IH]; intros acc Hn Hs; [done |].
  cbn [fold_left]. apply IH; destruct acc as [s n]; cbn [weightedStep fst snd] in *.
  - lia.
  - nia.
Qed.

Lemma mathRound_between lo hi x :
  (inject_Z lo <= x)%Q → (x <= inject_Z hi)%Q →
  (lo <= mathRound x <= hi)%Z.
Proof.
  intros Hlo Hhi. unfold mathRound. split.
  - rewrite <- (Qfloor_Z lo). apply Qfloor_resp_le. lra.
  - apply Z.lt_succ_r. rewrite Zlt_Qlt.
    eapply Qle_lt_trans; [apply Qfloor_le |].
    unfold Z.succ. rewrite inject_Z_plus. change (inject_Z 1) with 1%Q. lra.
Qed.

(** X16.  The average of [getHistoryStats] stays within the bounds of the
    averages of the entries: with every entry between [lo] and [hi], and 0
    between them for the history without a file, so is the overall one. *)
Theorem getHistoryStats_average_bounds lo hi w :
  (lo <= 0 <= hi)%Z →
  Forall (fun scan => (0 <= totalFiles scan)%Z ∧
                      (lo <= avgRiskScore scan <= hi)%Z)
    (fst (getHistory w)) →
  (lo <= ScanHistoryStats.avgRiskScore (fst (getHistoryStats startOfDay w))
      <= hi)%Z.
Proof.
  rewrite getHistory_value. intros H0 Hall.
  rewrite getHistoryStats_avgRiskScore. cbn zeta.
  destruct (weightedStep_fold lo hi (storedHistory w) (0%Z, 0%Z) Hall)
    as (Hn & Hs); [cbn; lia | cbn; lia |].
  destruct (fold_left weightedStep (storedHistory w) (0%Z, 0%Z)) as [s n].
  cbn [fst snd] in *.
  destruct (0 <? n)%Z eqn:E; [| lia]. apply Z.ltb_lt in E.
  assert (0 < inject_Z n)%Q as Hpos by (change 0%Q with (inject_Z 0); by rewrite <- Zlt_Qlt).
  apply mathRound_between.
  - apply Qle_shift_div_l; [done |].
    rewrite <- inject_Z_mult, <- Zle_Qle. lia.
  - apply Qle_shift_div_r; [done |].
    rewrite <- inject_Z_mult, <- Zle_Qle. lia.
Qed.

End StatsFacts.

Section TagFacts.
Import HistoricalScan.

Lemma setAdd_if_elem (b : bool) x s y :
  y ∈ (if b then setAdd x s else s) ↔ (b = true ∧ y = x) ∨ y ∈ s.
Proof. destruct b; rewrite ?setAdd_elem; intuition discriminate. Qed.

Lemma autoTagsOf_elem tags result y :
  y ∈ autoTagsOf tags result ↔ y ∈ tags ∨ y ∈ autoTagsOf [] result.
Proof.
  unfold autoTagsOf. cbn zeta. rewrite !setAdd_if_elem, !setAdd_elem.
  destruct (toLowerCase <$> pop _) as [ext |];
    rewrite ?setAdd_if_elem, ?setAdd_elem, ?elem_of_nil; tauto.
Qed.

Lemma autoTagsOf_NoDup tags result :
  NoDup tags → NoDup (autoTagsOf tags result).
Proof.
  intros Hnd. unfold autoTagsOf. cbn zeta.
  destruct (toLowerCase <$> pop _) as [ext |];
    [destruct (truthy ext) |];
    destruct (0 <? length (Detections.malwareSignatures _))%nat;
    destruct (0 <? length (Detections.suspiciousPatterns _))%nat;
    destruct (0 <? length (Detections.fileIntegrity _))%nat;
    destruct (0 <? length (Detections.behaviorAnalysis _))%nat;
    repeat apply setAdd_NoDup; exact Hnd.
Qed.

Lemma autoTags_fold_elem results tags y :
  y ∈ fold_left autoTagsOf results tags ↔
  y ∈ tags ∨ ∃ r, r ∈ results ∧ y ∈ autoTagsOf [] r.
Proof.
  revert tags. induction results as [| r rest IH]; intros tags.
  - cbn. split; [auto | intros [H | (r & Hr & _)]; [done | by inversion Hr]].
  - cbn [fold_left]. rewrite IH, autoTagsOf_elem. split.
    + intros [[H | H] | (r' & Hr' & H)]; [by left | | ].
      * right. exists r. split; [by left | done].
      * right. exists r'. split; [by right | done].
    + intros [H | (r' & Hr' & H)]; [by left; left |].
      apply elem_of_cons in Hr' as [-> | Hr'].
      * left. by right.
      * right. by exists r'.
Qed.

Lemma autoTags_fold_NoDup results tags :
  NoDup tags → NoDup (fold_left autoTagsOf results tags).
Proof.
  revert tags. induction results as [| r rest IH]; intros tags Hnd; [done |].
  cbn [fold_left]. by apply IH, autoTagsOf_NoDup.
Qed.

(** The automatic tags of a batch are the tags of its results taken
    one by one, each tag once. *)
Lemma generateAutoTags_union results :
  NoDup (generateAutoTags results) ∧
  ∀ tag, tag ∈ generateAutoTags results ↔
         ∃ r, r ∈ results ∧ tag ∈ generateAutoTags [r].
Proof.
  unfold generateAutoTags. split; [apply autoTags_fold_NoDup; constructor |].
  intros tag. rewrite autoTags_fold_elem, elem_of_nil. cbn [fold_left]. tauto.
Qed.


Lemma riskTag_not_malware score : riskTag score ≠ "malware-detected".
Proof.
  unfold riskTag.
  destruct (80 <=? score)%Z; [done |].
  destruct (60 <=? score)%Z; [done |].
  by destruct (30 <=? score)%Z.
Qed.

Lemma levelTag_not_malware level :
  toLowerCase (threatName level) ≠ "malware-detected".
Proof. by destruct level. Qed.

Lemma autoTagsOf_malware result :
  "malware-detected" ∈ autoTagsOf [] result ↔
  Detections.malwareSignatures (FileAnalysisResult.detections result) ≠ [].
Proof.
  unfold autoTagsOf. cbn zeta.
  pose proof (riskTag_not_malware (FileAnalysisResult.riskScore result)) as Hr.
  pose proof (levelTag_not_malware (FileAnalysisResult.overallThreat result))
    as Hl.
  assert (Detections.malwareSignatures (FileAnalysisResult.detections result)
            ≠ [] ↔
          (0 <? length (Detections.malwareSignatures
                          (FileAnalysisResult.detections result)))%nat = true)
    as ->.
  { destruct (Detections.malwareSignatures _); cbn; split; done. }
  rewrite !setAdd_if_elem, setAdd_elem.
  destruct (toLowerCase <$> pop _) as [ext |];
    rewrite ?setAdd_if_elem, ?setAdd_elem, ?elem_of_nil;
    cbn [String.append]; intuition (try discriminate; try congruence).
Qed.

Lemma autoTagsOf_level result :
  toLowerCase (threatName (FileAnalysisResult.overallThreat result))
    ∈ autoTagsOf [] result
  ∧ riskTag (FileAnalysisResult.riskScore result) ∈ autoTagsOf [] result.
Proof.
  unfold autoTagsOf. cbn zeta. rewrite !setAdd_if_elem, !setAdd_elem.
  destruct (toLowerCase <$> pop _) as [ext |];
    rewrite ?setAdd_if_elem, ?setAdd_elem; tauto.
Qed.

(** X17.  The automatic tags name the classification and the risk band of
    every result, and carry ["malware-detected"] exactly when some result
    has a malware-signature detection. *)
Theorem generateAutoTags_contents results :
  (∀ r, r ∈ results →
     toLowerCase (threatName (FileAnalysisResult.overallThreat r))
       ∈ generateAutoTags results ∧
     riskTag (FileAnalysisResult.riskScore r) ∈ generateAutoTags results) ∧
  ("malware-detected" ∈ generateAutoTags results ↔
   Exists (fun r =>
     Detections.malwareSignatures (FileAnalysisResult.detections r) ≠ [])
     results) ∧
  (generateAutoTags results = [] ↔ results = []).
Proof.
  unfold generateAutoTags. split; [| split].
  - intros r Hr. rewrite !autoTags_fold_elem.
    destruct (autoTagsOf_level r). split; right; by exists r.
  - rewrite autoTags_fold_elem, elem_of_nil, Exists_exists.
    split.
    + intros [[] | (r & Hr & Htag)]. exists r. split; [done |].
      by apply autoTagsOf_malware.
    + intros (r & Hr & Hm). right. exists r. split; [done |].
      by apply autoTagsOf_malware.
  - split; [| by intros ->].
    destruct results as [| r rest]; [done |]. intros Hnil. exfalso.
    destruct (autoTagsOf_level r) as [Hl _].
    assert (toLowerCase (threatName (FileAnalysisResult.overallThreat r))
            ∈ fold_left autoTagsOf (r :: rest) []) as Hin.
    { apply autoTags_fold_elem. right. exists r. split; [by left | done]. }
    rewrite Hnil in Hin. by apply elem_of_nil in Hin.
Qed.

End TagFacts.

Section StoreWitnesses.
Import HistoricalScan.

(** The invariant on a browser whose quota is used up, for a recording,
    a tagging and a deletion. *)
Lemma history_store_invariant_witness :
  let w := fullWorld (ItemDoc [olderScan]) in
  let cs := [CallSave testSession testResults;
             CallAddTags (id olderScan) ["reviewed"];
             CallDelete (id olderScan)] in
  storeOK w ∧ storeOK (snd (runCalls cs w)).
Proof.
  intros w cs.
  assert (storeOK w) as Hw.
  { split; [| cbn; unfold MAX_HISTORY_ITEMS; lia].
    constructor; [apply historicalScan_consistent | constructor]. }
  split; [exact Hw | exact (history_store_invariant cs w Hw)].
Defined.

(** A recording on a browser that refuses the write with a
    [SecurityError], over a stored text that cannot be read: two lines on
    the console. *)
Lemma saveHistoricalScan_loses_silently_witness :
  let w := lockedWorld BadItem in
  let w1 := snd (saveHistoricalScan testSession testResults w) in
  setItemError w (take MAX_HISTORY_ITEMS (testScan :: fst (getHistory w)))
    = Some (mkError "SecurityError") ∧
  "SecurityError" ≠ "QuotaExceededError" ∧
  fst (saveHistoricalScan testSession testResults w) = Returns ∧
  item w1 = BadItem ∧
  fst (getHistory w1) = [] ∧
  console w1 = ["Error loading scan history:"; "Error saving scan history:"].
Proof.
  intros w.
  assert ("SecurityError" ≠ "QuotaExceededError") as Hname by discriminate.
  split; [reflexivity |]. split; [exact Hname |].
  destruct (saveHistoricalScan_loses_silently testSession testResults w
              (mkError "SecurityError") eq_refl Hname)
    as (H1 & H2 & H3 & H4 & _).
  split_and!; [exact H1 | exact H2 | exact H3 | exact H4].
Defined.

(** The first recording on a browser whose quota is used up: nothing is
    kept of it. *)
Lemma saveHistoricalScan_quota_halves_witness :
  let w := fullWorld NoItem in
  let w1 := snd (saveHistoricalScan testSession testResults w) in
  setItemError w [testScan] = Some (mkError "QuotaExceededError") ∧
  setItemError w [] = None ∧
  fst (saveHistoricalScan testSession testResults w) = Returns ∧
  fst (getHistory w1) = [].
Proof.
  intros w. split; [reflexivity |]. split; [reflexivity |].
  destruct (saveHistoricalScan_quota_halves testSession testResults w
              (mkError "QuotaExceededError") eq_refl eq_refl eq_refl)
    as (H1 & _ & H3 & _).
  split; [exact H1 | exact (H3 eq_refl)].
Defined.

(** A recording over a stored text that cannot be read. *)
Lemma saveHistoricalScan_over_unreadable_witness :
  let w := roomyWorld BadItem in
  let w1 := snd (saveHistoricalScan testSession testResults w) in
  item w = BadItem ∧
  setItemError w [testScan] = None ∧
  fst (getHistory w) = [] ∧
  fst (getHistory w1) = [testScan] ∧
  console w1 = ["Error loading scan history:"].
Proof.
  intros w. split; [reflexivity |]. split; [reflexivity |].
  exact (saveHistoricalScan_over_unreadable testSession testResults w
           eq_refl eq_refl).
Defined.

(** Deleting the test entry from a history of two. *)
Lemma deleteHistoricalScan_spec_witness :
  let w := roomyWorld (ItemDoc [testScan; olderScan]) in
  let after := fst (getHistory (snd (deleteHistoricalScan (id testScan) w))) in
  setItemError w
    (filter (fun scan => id scan ≠ id testScan) (fst (getHistory w))) = None ∧
  after `sublist_of` [testScan; olderScan] ∧
  (olderScan ∈ after ↔
   olderScan ∈ [testScan; olderScan] ∧ id olderScan ≠ id testScan).
Proof.
  intros w. split; [reflexivity |].
  destruct (deleteHistoricalScan_spec (id testScan) w eq_refl) as (H1 & H2 & _).
  split; [exact H1 | exact (H2 olderScan)].
Defined.

(** Recording the test session over a history of one entry, then deleting
    the new entry. *)
Lemma record_then_delete_witness :
  let w := roomyWorld (ItemDoc [olderScan]) in
  let w1 := snd (saveHistoricalScan testSession testResults w) in
  setItemError w [testScan; olderScan] = None ∧
  setItemError w [olderScan] = None ∧
  Forall (fun scan => id scan ≠ id testScan) [olderScan] ∧
  (length [olderScan] < MAX_HISTORY_ITEMS)%nat ∧
  head (fst (getHistory w1)) = Some testScan ∧
  fst (getHistory (snd (deleteHistoricalScan (id testScan) w1))) = [olderScan].
Proof.
  intros w.
  assert (Forall (fun scan => id scan ≠ id testScan) [olderScan]) as Hfresh.
  { constructor; [discriminate | constructor]. }
  assert (length [olderScan] < MAX_HISTORY_ITEMS)%nat as Hroom.
  { unfold MAX_HISTORY_ITEMS. cbn [length]. lia. }
  split; [reflexivity |]. split; [reflexivity |].
  split; [exact Hfresh |]. split; [exact Hroom |].
  exact (record_then_delete testSession testResults w eq_refl eq_refl
           Hfresh Hroom).
Defined.

(** Notes and tags on the test entry, in both orders. *)
Lemma addNotes_addTags_commute_witness :
  let w := roomyWorld (ItemDoc [testScan; olderScan]) in
  (∀ history, setItemError w history = None) ∧
  fst (getHistory (snd (addTagsToScan (id testScan) ["reviewed"]
                          (snd (addNotesToScan (id testScan) "seen" w)))))
  = fst (getHistory (snd (addNotesToScan (id testScan) "seen"
                            (snd (addTagsToScan (id testScan) ["reviewed"] w))))).
Proof.
  intros w. split; [reflexivity |].
  exact (addNotes_addTags_commute (id testScan) "seen" ["reviewed"] w
           (fun _ => eq_refl)).
Defined.

(** The test entry, listed under ["MALICIOUS"], is found by the query
    ["Malicious"]. *)
Lemma search_covers_threat_filter_witness :
  let w := roomyWorld (ItemDoc [olderScan; testScan]) in
  toLowerCase "Malicious" = toLowerCase (threatName MALICIOUS) ∧
  testScan ∈ fst (filterHistoryByThreatLevel (threatName MALICIOUS) w) ∧
  testScan ∈ fst (searchHistory "Malicious" w).
Proof.
  intros w.
  assert (testScan ∈ fst (filterHistoryByThreatLevel (threatName MALICIOUS) w))
    as Hin.
  { change (fst (filterHistoryByThreatLevel (threatName MALICIOUS) w))
      with (filter (fun scan =>
              Exists (fun result =>
                threatName (FileAnalysisResult.overallThreat result)
                  = "MALICIOUS") (results scan)) [olderScan; testScan]).
    apply list_elem_of_filter. split.
    - apply Exists_cons_tl, Exists_cons_hd. reflexivity.
    - right. left. }
  split; [reflexivity |]. split; [exact Hin |].
  exact (search_covers_threat_filter MALICIOUS "Malicious" w testScan
           eq_refl Hin).
Defined.

(** The test session once recorded is found under the name of its first
    file in capitals. *)
Lemma record_then_search_witness :
  let w := roomyWorld (ItemDoc [olderScan]) in
  setItemError w (take MAX_HISTORY_ITEMS (testScan :: fst (getHistory w)))
    = None ∧
  head (fst (searchHistory "DOCUMENT.PDF"
               (snd (saveHistoricalScan testSession testResults w))))
    = Some testScan.
Proof.
  intros w. split; [reflexivity |].
  destruct testResults as [| r rest] eqn:E; [discriminate E |].
  rewrite <- E.
  refine (record_then_search testSession testResults w r "DOCUMENT.PDF"
            eq_refl _ _).
  - rewrite E. left.
  - injection E as <- _. reflexivity.
Defined.

(** The statistics of a history of two consistent entries, the day being
    that of Greenwich. *)
Lemma getHistoryStats_totals_of_results_witness :
  let w := roomyWorld (ItemDoc [testScan; olderScan]) in
  let stats := fst (getHistoryStats (fun now => (now / dayMs * dayMs)%Z) w) in
  Forall entryConsistent (fst (getHistory w)) ∧
  ScanHistoryStats.totalFilesScanned stats = 2%Z ∧
  ScanHistoryStats.totalThreatsFound stats = 1%Z.
Proof.
  intros w.
  assert (Forall entryConsistent (fst (getHistory w))) as Hall.
  { repeat constructor; apply historicalScan_consistent. }
  split; [exact Hall |].
  destruct (getHistoryStats_totals_of_results
              (fun now => (now / dayMs * dayMs)%Z) w Hall) as (H1 & H2 & _).
  split; [exact H1 | exact H2].
Defined.

Lemma getHistoryStats_average_bounds_witness :
  let w := roomyWorld (ItemDoc [testScan; olderScan]) in
  let stats := fst (getHistoryStats (fun now => (now / dayMs * dayMs)%Z) w) in
  (0 <= 0 <= 100)%Z ∧
  Forall (fun scan => (0 <= totalFiles scan)%Z ∧
                      (0 <= avgRiskScore scan <= 100)%Z)
    (fst (getHistory w)) ∧
  (0 <= ScanHistoryStats.avgRiskScore stats <= 100)%Z.
Proof.
  intros w.
  assert (0 <= 0 <= 100)%Z as H0 by lia.
  assert (Forall (fun scan => (0 <= totalFiles scan)%Z ∧
                              (0 <= avgRiskScore scan <= 100)%Z)
            (fst (getHistory w))) as Hall.
  { repeat constructor; vm_compute; discriminate. }
  split; [exact H0 |]. split; [exact Hall |].
  exact (getHistoryStats_average_bounds (fun now => (now / dayMs * dayMs)%Z)
           0 100 w H0 Hall).
Defined.

End StoreWitnesses.

(* ================================================================== *)
(** ** The engine: what the stages establish and keep *)
(* ================================================================== *)

Section StageFacts.
Import FileAnalysisResult.

Lemma post_conj {A : Type} (m : M A) w (P Q : A → World → Prop) :
  post m w P → post m w Q → post m w (fun a w' => P a w' ∧ Q a w').
Proof. unfold post. auto. Qed.

Ltac steps :=
  repeat match goal with
    | |- post (bind _ _) _ _ => apply post_bind
    | |- post (ret _) _ _ => apply post_ret
    | |- post (let _ := _ in _) _ _ => cbn zeta
    | |- post (if ?b then _ else _) _ _ => destruct b
    | |- post dateNow _ _ => apply post_dateNow; cbn beta
    | |- post mathRandom _ _ => apply post_mathRandom; cbn beta
    | |- post (delay _) _ _ => apply post_delay; cbn beta
    | |- post (notifyListeners _) _ _ => apply post_notifyListeners; cbn beta
    end.

Section Generic.
Variable I : t → Prop.
Hypothesis HI : StageInvariant I.

Ltac inv_leaf :=
  repeat first
    [ assumption
    | apply (inv_malwareSignature I HI)
    | apply (inv_suspiciousPattern I HI)
    | apply (inv_fileIntegrity I HI)
    | apply (inv_behaviorAnalysis I HI)
    | apply (inv_hasExecutableCode I HI)
    | apply (inv_isEncrypted I HI)
    | apply (inv_scanProgress I HI) ].

(** The statements of [scanForMalwareSignatures] after the test of the
    hash. *)
Lemma scanForMalwareSignatures_inv (I0 : t → Prop) r w :
  (∀ now r, I0 r →
     arrayIncludes maliciousHashes (UploadedFile.hash (file r)) = true →
     I (flagKnownMalware now r)) →
  (∀ r, I0 r →
     arrayIncludes maliciousHashes (UploadedFile.hash (file r)) = false →
     I r) →
  I0 r → post (scanForMalwareSignatures r) w (fun r' _ => I r').
Proof.
  intros Hknown Hunknown H0. unfold scanForMalwareSignatures. cbn zeta.
  apply post_bind.
  apply (post_mono _ _ (fun r1 _ => I r1)).
  { destruct (arrayIncludes maliciousHashes _) eqn:E.
    - apply post_bind, post_dateNow. cbn beta. apply post_ret.
      by apply (Hknown (clock w) r).
    - apply post_ret. by apply Hunknown. }
  intros r1 w1 H1. cbn beta. apply post_bind.
  apply (post_mono _ _ (fun r2 _ => I r2)).
  { apply (post_forOf _ _ (fun r2 _ => I r2)); [| exact H1].
    intros s x w' Hs. steps; inv_leaf. }
  intros r2 w2 H2. cbn beta. steps; inv_leaf.
Qed.

Lemma scanForSuspiciousPatterns_inv r w :
  I r → post (scanForSuspiciousPatterns r) w (fun r' _ => I r').
Proof.
  intros H0. unfold scanForSuspiciousPatterns. cbn zeta.
  apply post_bind. apply (post_mono _ _ (fun r1 _ => I r1)); [steps; inv_leaf |].
  intros r1 w1 H1. cbn beta.
  apply post_bind. apply (post_mono _ _ (fun r1 _ => I r1)); [steps; inv_leaf |].
  intros r2 w2 H2. cbn beta.
  apply post_bind. apply (post_mono _ _ (fun r1 _ => I r1)); [steps; inv_leaf |].
  intros r3 w3 H3. cbn beta. steps; inv_leaf.
Qed.

Lemma analyzeFileIntegrity_inv r w :
  I r → post (analyzeFileIntegrity r) w (fun r' _ => I r').
Proof.
  intros H0. unfold analyzeFileIntegrity. cbn zeta.
  apply post_bind. apply (post_mono _ _ (fun r1 _ => I r1)); [steps; inv_leaf |].
  intros r1 w1 H1. cbn beta. steps; inv_leaf.
Qed.

Lemma performBehaviorAnalysis_inv r w :
  I r → post (performBehaviorAnalysis r) w (fun r' _ => I r').
Proof.
  intros H0. unfold performBehaviorAnalysis. cbn zeta.
  apply post_bind. apply (post_mono _ _ (fun r1 _ => I r1)); [steps; inv_leaf |].
  intros r1 w1 H1. cbn beta. steps; inv_leaf.
Qed.

Lemma scanStage_inv p r w :
  (p =? 30)%Z = false →
  I r → post (scanStage p r) w (fun r' _ => I r').
Proof.
  intros Hp H0. unfold scanStage. apply post_bind, post_delay. cbn beta zeta.
  apply post_bind. rewrite Hp.
  apply (post_mono _ _ (fun r1 _ => I r1)).
  - destruct (p =? 50)%Z; [apply scanForSuspiciousPatterns_inv; inv_leaf |].
    destruct (p =? 70)%Z; [apply analyzeFileIntegrity_inv; inv_leaf |].
    destruct (p =? 90)%Z; [apply performBehaviorAnalysis_inv; inv_leaf |].
    apply post_ret. inv_leaf.
  - intros r1 w1 H1. cbn beta. steps. exact H1.
Qed.

Variable I0 : t → Prop.
Hypothesis I0_progress : ∀ p r, I0 r → I0 (setScanProgress p r).
Hypothesis I0_signatures : ∀ r w,
  I0 r → post (scanForMalwareSignatures r) w (fun r' _ => I r').

Lemma scanLoop_inv r w :
  I0 r → post (scanLoop scanFuel 10 r) w (fun r5 _ => I r5).
Proof.
  intros H0. unfold scanFuel.
  (* progress 10: no stage *)
  rewrite scanLoop_step by reflexivity. apply post_bind.
  apply (post_mono _ _ (fun r1 _ => I0 r1)).
  { unfold scanStage. apply post_bind, post_delay. cbn beta zeta.
    apply post_bind, post_ret, post_bind, post_notifyListeners, post_ret.
    by apply I0_progress. }
  intros r1 w1 H1. cbn beta.
  (* progress 30: the signatures *)
  rewrite scanLoop_step by reflexivity. apply post_bind.
  apply (post_mono _ _ (fun r2 _ => I r2)).
  { unfold scanStage. apply post_bind, post_delay. cbn beta zeta.
    apply post_bind.
    apply (post_mono _ _ (fun r2 _ => I r2)).
    - apply I0_signatures. by apply I0_progress.
    - intros r2 w2 H2. cbn beta. steps. exact H2. }
  intros r2 w2 H2. cbn beta.
  rewrite scanLoop_step by reflexivity. apply post_bind.
  eapply post_mono; [by apply scanStage_inv |].
  intros r3 w3 H3. cbn beta.
  rewrite scanLoop_step by reflexivity. apply post_bind.
  eapply post_mono; [by apply scanStage_inv |].
  intros r4 w4 H4. cbn beta.
  rewrite scanLoop_step by reflexivity. apply post_bind.
  eapply post_mono; [by apply scanStage_inv |].
  intros r5 w5 H5. cbn beta.
  rewrite scanLoop_stop by reflexivity. by apply post_ret.
Qed.

(** [analyzeFile] under an invariant: the result is [calculateFinalRisk]
    of a scanned result that has the invariant, marked completed. *)
Lemma analyzeFile_inv f w :
  (∀ ident startTime entropy, I0 (initialResult f ident startTime entropy)) →
  ∃ r5 stamp,
    I r5 ∧ scanning f 90 r5 ∧
    fst (analyzeFile f w)
      = setEndTime stamp (setStatus COMPLETED (calculateFinalRisk r5)).
Proof.
  intros Hinit.
  change (post (analyzeFile f) w (fun r' _ =>
    ∃ r5 stamp, I r5 ∧ scanning f 90 r5 ∧
      r' = setEndTime stamp (setStatus COMPLETED (calculateFinalRisk r5)))).
  unfold analyzeFile.
  apply post_bind, post_dateNow. cbn beta.
  apply post_bind, post_mathRandom. cbn beta.
  apply post_bind, post_dateNow. cbn beta.
  apply post_bind, post_mathRandom. cbn beta.
  cbn zeta. cbn [clock randoms drawn].
  set (r0 := mk _ _ _ _ _ _ _ _ _ _ _ _).
  assert (I0 r0) as H0 by apply Hinit.
  assert (scanning f 0 r0) as Hs0.
  { unfold scanning, r0. cbn. split_and!; done. }
  apply post_bind, post_notifyListeners. cbn beta.
  set (w0 := mkWorld _ _ _ _ _ _ _ _).
  apply post_bind.
  eapply post_mono;
    [exact (post_conj _ _ _ _ (scanLoop_spec f 0 r0 w0 Hs0)
              (scanLoop_inv r0 w0 H0)) |].
  intros r5 w5 [(r1 & r2 & r3 & r4 & _ & _ & _ & _ & Hs5 & _) H5].
  cbn beta zeta.
  apply post_bind, post_dateNow. cbn beta.
  apply post_bind, post_notifyListeners. cbn beta.
  apply post_ret. by exists r5, (clock w5).
Qed.

End Generic.
End StageFacts.

Section RiskFacts.
Import FileAnalysisResult.

Lemma detectionRisk_nonneg d : confidenceOK d → (0 <= detectionRisk d)%Q.
Proof.
  intros Hd. unfold detectionRisk. apply Qmult_le_0_compat.
  - change 0%Q with (inject_Z 0). rewrite <- Zle_Qle.
    by destruct (DetectionResult.severity d).
  - apply Qle_shift_div_l; [done |]. rewrite Qmult_0_l.
    change 0%Q with (inject_Z 0). by rewrite <- Zle_Qle.
Qed.

Lemma riskStep_fst q m d : fst (riskStep (q, m) d) = (q + detectionRisk d)%Q.
Proof. reflexivity. Qed.

(** The running score only grows over detections of confidence from 0. *)
Lemma riskFold_grows l q m :
  Forall confidenceOK l → (q <= fst (fold_left riskStep l (q, m)))%Q.
Proof.
  revert q m. induction l as [| d l IH]; intros q m Hl; [apply Qle_refl |].
  apply Forall_cons in Hl as [Hd Hl]. cbn [fold_left].
  destruct (riskStep (q, m) d) as [q' m'] eqn:E.
  assert (q' = (q + detectionRisk d)%Q) as ->.
  { by rewrite <- (riskStep_fst q m d), E. }
  eapply Qle_trans; [| apply IH; exact Hl].
  pose proof (detectionRisk_nonneg d Hd). lra.
Qed.

(** Each detection is in the sum with its own summand. *)
Lemma riskFold_member l q m d :
  Forall confidenceOK l → d ∈ l →
  (q + detectionRisk d <= fst (fold_left riskStep l (q, m)))%Q.
Proof.
  revert q m. induction l as [| x l IH]; intros q m Hl Hin;
    [by apply elem_of_nil in Hin |].
  apply Forall_cons in Hl as [Hx Hl]. cbn [fold_left].
  destruct (riskStep (q, m) x) as [q' m'] eqn:E.
  assert (q' = (q + detectionRisk x)%Q) as ->.
  { by rewrite <- (riskStep_fst q m x), E. }
  apply elem_of_cons in Hin as [-> | Hin].
  - apply riskFold_grows, Hl.
  - eapply Qle_trans; [| apply IH; [exact Hl | exact Hin]].
    pose proof (detectionRisk_nonneg x Hx). lra.
Qed.

Lemma mathRound_lower n x :
  (inject_Z n - (1 # 2) <= x)%Q → (n <= mathRound x)%Z.
Proof.
  intros Hx. unfold mathRound. rewrite <- (Qfloor_Z n).
  apply Qfloor_resp_le. lra.
Qed.

(** What [calculateFinalRisk] leaves alone. *)
Lemma calculateFinalRisk_frame r :
  file (calculateFinalRisk r) = file r ∧
  detections (calculateFinalRisk r) = detections r ∧
  fileProperties (calculateFinalRisk r) = fileProperties r ∧
  threatIntelligence (calculateFinalRisk r) = threatIntelligence r.
Proof.
  unfold calculateFinalRisk.
  destruct (fold_left riskStep (allDetections r) (0%Q, CLEAN)) as [q m].
  cbn zeta. unfold generateRecommendations.
  repeat match goal with
         | |- context [if ?b then _ else _] => destruct b
         end; cbn; done.
Qed.

(** A detection of summand at least [n - 1/2] among those of [r] puts
    the score of [calculateFinalRisk r] at [n] or above, up to the cap. *)
Lemma calculateFinalRisk_floor n d r :
  Forall confidenceOK (allDetections r) → d ∈ allDetections r →
  (inject_Z n - (1 # 2) <= detectionRisk d)%Q →
  (Z.min n 100 <= riskScore (calculateFinalRisk r))%Z.
Proof.
  intros Hall Hin Hd.
  destruct (calculateFinalRisk_spec r) as (-> & _).
  apply Z.min_le_compat_r, mathRound_lower.
  pose proof (riskFold_member _ 0%Q CLEAN d Hall Hin). lra.
Qed.

End RiskFacts.

Section VerdictFacts.
Import FileAnalysisResult.

Lemma hasSignature_stage category severity confidence :
  StageInvariant (hasSignature category severity confidence).
Proof.
  split; try (intros; assumption); intros d r (d0 & Hin & H).
  exists d0. split; [| exact H]. cbn. apply elem_of_app. by left.
Qed.

Lemma flaggedKnown_stage : StageInvariant flaggedKnown.
Proof. split; intros; assumption. Qed.

Lemma StageInvariant_and (I J : t → Prop) :
  StageInvariant I → StageInvariant J → StageInvariant (fun r => I r ∧ J r).
Proof.
  intros [] []. split; intros; split; destruct_and?; auto.
Qed.

Lemma hasSignature_allDetections category severity confidence r :
  hasSignature category severity confidence r →
  ∃ d, d ∈ allDetections r ∧
       detectionRisk d
       = (inject_Z (severityScore severity) * (inject_Z confidence / 100))%Q.
Proof.
  intros (d & Hin & _ & Hs & Hc). exists d. split.
  - unfold allDetections. apply elem_of_app. by left.
  - unfold detectionRisk. by rewrite Hs, Hc.
Qed.

(** X18.  A file whose hash is one of the known malicious hashes comes back
    flagged as known malware of the family Generic.Malware, with a score
    of 78 or more, classified malicious or critical. *)
Theorem analyzeFile_known_hash f w :
  arrayIncludes maliciousHashes (UploadedFile.hash f) = true →
  let r := fst (analyzeFile f w) in
  flaggedKnown r ∧
  hasSignature "Known Malware Hash" SevCRITICAL 98 r ∧
  (78 <= riskScore r <= 100)%Z ∧
  (overallThreat r = MALICIOUS ∨ overallThreat r = CRITICAL).
Proof.
  intros Hknown r.
  set (I := fun r => flaggedKnown r ∧
                     hasSignature "Known Malware Hash" SevCRITICAL 98 r).
  assert (StageInvariant I) as HI
    by (apply StageInvariant_and;
        [apply flaggedKnown_stage | apply hasSignature_stage]).
  destruct (analyzeFile_inv I HI (fun r => file r = f)) with (f := f) (w := w)
    as (r5 & stamp & [Hflag Hsig] & Hscan & Hr).
  - intros p r0 H0. exact H0.
  - intros r0 w0 H0.
    apply (scanForMalwareSignatures_inv I HI (fun r => file r = f)); [| | done].
    + intros now r1 H1 _. split; [split; reflexivity |].
      eexists. split; [cbn; apply elem_of_app; right; left |].
      split_and!; reflexivity.
    + intros r1 H1 Hno. rewrite H1, Hknown in Hno. discriminate.
  - reflexivity.
  - fold r in Hr.
    destruct (calculateFinalRisk_frame r5) as (_ & Hd & _ & Hti).
    destruct (calculateFinalRisk_spec r5) as (Hscore & Hthreat & _).
    destruct Hscan as (_ & _ & _ & _ & _ & Hconf).
    destruct (hasSignature_allDetections _ _ _ _ Hsig) as (d & Hin & Hrisk).
    assert (78 <= riskScore (calculateFinalRisk r5))%Z as Hlow.
    { apply (calculateFinalRisk_floor 78 d r5 Hconf Hin).
      rewrite Hrisk. vm_compute. discriminate. }
    assert (riskScore r = riskScore (calculateFinalRisk r5)) as Hrs
      by (by rewrite Hr).
    assert (overallThreat r = overallThreat (calculateFinalRisk r5)) as Hot
      by (by rewrite Hr).
    split_and!.
    + unfold flaggedKnown. rewrite Hr. cbn [threatIntelligence setEndTime setStatus].
      by rewrite Hti.
    + unfold hasSignature. rewrite Hr. cbn [detections setEndTime setStatus].
      by rewrite Hd.
    + lia.
    + rewrite Hrs, Hscore. apply Z.le_min_r.
    + rewrite Hot, Hthreat. rewrite Hscore in Hlow. unfold classify.
      repeat case_decide; auto; lia.
Qed.


Ltac steps :=
  repeat match goal with
    | |- post (bind _ _) _ _ => apply post_bind
    | |- post (ret _) _ _ => apply post_ret
    | |- post (let _ := _ in _) _ _ => cbn zeta
    | |- post (if ?b then _ else _) _ _ => destruct b
    | |- post dateNow _ _ => apply post_dateNow; cbn beta
    | |- post mathRandom _ _ => apply post_mathRandom; cbn beta
    | |- post (delay _) _ _ => apply post_delay; cbn beta
    | |- post (notifyListeners _) _ _ => apply post_notifyListeners; cbn beta
    end.

(** The loop over the malicious patterns, on a name that contains one of
    them. *)
Lemma patternLoop_finds (fileName name pattern : string) (l : list string) r w :
  pattern ∈ l → includes fileName pattern = true →
  post
    (forOf l (fun result pattern =>
       if includes fileName pattern then
         now <- dateNow ;;
         salt <- mathRandom ;;
         ret (addMalwareSignature
                (DetectionResult.mk (IdSalted "sig" now salt)
                   "Malicious Filename Pattern" SevHIGH
                   ("Filename contains suspicious pattern: " ++ pattern)
                   ("Filename: " ++ name) 85) result)
       else ret result) r) w
    (fun r' _ => hasSignature "Malicious Filename Pattern" SevHIGH 85 r').
Proof.
  intros Hin Hinc. revert r w.
  induction l as [| x l IH]; intros r w; [by apply elem_of_nil in Hin |].
  apply post_forOf_cons. cbn beta.
  destruct (decide (x = pattern)) as [-> | Hne].
  - rewrite Hinc. apply post_bind, post_dateNow. cbn beta.
    apply post_bind, post_mathRandom. cbn beta. apply post_ret.
    apply (post_forOf l _
             (fun r' _ => hasSignature "Malicious Filename Pattern" SevHIGH 85 r')).
    + intros s y w' Hs. steps; [| exact Hs].
      by apply (inv_malwareSignature _ (hasSignature_stage _ _ _)).
    + eexists. split; [cbn; apply elem_of_app; right; left |].
      split_and!; reflexivity.
  - apply elem_of_cons in Hin as [-> | Hin]; [done |].
    destruct (includes fileName x); steps; by apply IH.
Qed.

(** X19.  A file whose name contains one of the malicious patterns, in
    whatever case, gets the detection for it and a score of 43 or more: it
    is never classified clean. *)
Theorem analyzeFile_malicious_name f w pattern :
  pattern ∈ maliciousPatterns →
  includes (toLowerCase (UploadedFile.name f)) pattern = true →
  let r := fst (analyzeFile f w) in
  hasSignature "Malicious Filename Pattern" SevHIGH 85 r ∧
  (43 <= riskScore r <= 100)%Z ∧
  overallThreat r ≠ CLEAN.
Proof.
  intros Hpat Hinc r.
  set (I := hasSignature "Malicious Filename Pattern" SevHIGH 85).
  assert (StageInvariant I) as HI by apply hasSignature_stage.
  destruct (analyzeFile_inv I HI (fun r => file r = f)) with (f := f) (w := w)
    as (r5 & stamp & Hsig & Hscan & Hr).
  - intros p r0 H0. exact H0.
  - intros r0 w0 H0. unfold scanForMalwareSignatures. cbn zeta.
    rewrite H0. apply post_bind.
    apply (post_mono _ _ (fun r1 _ => True)); [by steps |].
    intros r1 w1 _. cbn beta. apply post_bind.
    eapply post_mono; [exact (patternLoop_finds _ _ pattern _ r1 w1 Hpat Hinc) |].
    intros r2 w2 H2. cbn beta. steps; try exact H2;
      apply (inv_malwareSignature _ HI) || apply (inv_hasExecutableCode _ HI);
      try exact H2; by apply (inv_hasExecutableCode _ HI).
  - reflexivity.
  - fold r in Hr.
    destruct (calculateFinalRisk_frame r5) as (_ & Hd & _ & _).
    destruct (calculateFinalRisk_spec r5) as (Hscore & Hthreat & _).
    destruct Hscan as (_ & _ & _ & _ & _ & Hconf).
    destruct (hasSignature_allDetections _ _ _ _ Hsig) as (d & Hin & Hrisk).
    assert (43 <= riskScore (calculateFinalRisk r5))%Z as Hlow.
    { apply (calculateFinalRisk_floor 43 d r5 Hconf Hin).
      rewrite Hrisk. vm_compute. discriminate. }
    assert (riskScore r = riskScore (calculateFinalRisk r5)) as Hrs
      by (by rewrite Hr).
    assert (overallThreat r = overallThreat (calculateFinalRisk r5)) as Hot
      by (by rewrite Hr).
    split_and!.
    + unfold I, hasSignature. rewrite Hr. cbn [detections setEndTime setStatus].
      by rewrite Hd.
    + lia.
    + rewrite Hrs, Hscore. apply Z.le_min_r.
    + rewrite Hot, Hthreat. rewrite Hscore in Hlow. unfold classify.
      repeat case_decide; try done; lia.
Qed.

Lemma knownFree_stage :
  StageInvariant (fun r =>
    threatIntelligence r = ThreatIntelligence.mk false None None COMMON).
Proof. split; intros; assumption. Qed.

(** A file whose hash is none of the known malicious hashes is never
    flagged as known malware: the threat intelligence of its result is
    what every scan starts from. *)
Lemma analyzeFile_unknown_hash f w :
  arrayIncludes maliciousHashes (UploadedFile.hash f) = false →
  threatIntelligence (fst (analyzeFile f w))
    = ThreatIntelligence.mk false None None COMMON.
Proof.
  intros Hunknown.
  set (I := fun r =>
    threatIntelligence r = ThreatIntelligence.mk false None None COMMON).
  destruct (analyzeFile_inv I knownFree_stage (fun r => file r = f ∧ I r))
    with (f := f) (w := w) as (r5 & stamp & H5 & _ & ->).
  - intros p r0 H0. exact H0.
  - intros r0 w0 [Hf H0].
    apply (scanForMalwareSignatures_inv I knownFree_stage
             (fun r => file r = f ∧ I r)); [| | done].
    + intros now r1 [H1 _] Hyes. rewrite H1, Hunknown in Hyes. discriminate.
    + intros r1 [_ H1] _. exact H1.
  - intros. split; reflexivity.
  - destruct (calculateFinalRisk_frame r5) as (_ & _ & _ & Hti).
    cbn [threatIntelligence setEndTime setStatus]. by rewrite Hti.
Qed.

End VerdictFacts.

Section ShapeFacts.
Import FileAnalysisResult.

Lemma describes_stage f : StageInvariant (describes f).
Proof. split; intros; assumption. Qed.

Lemma calculateFinalRisk_advice r r' :
  recommendations r = [] → recommendations r' = [] →
  overallThreat (calculateFinalRisk r) = overallThreat (calculateFinalRisk r') →
  recommendations (calculateFinalRisk r)
    = recommendations (calculateFinalRisk r').
Proof.
  intros Hr Hr'. unfold calculateFinalRisk.
  destruct (fold_left riskStep (allDetections r) (0%Q, CLEAN)) as [q m].
  destruct (fold_left riskStep (allDetections r') (0%Q, CLEAN)) as [q' m'].
  cbn zeta. unfold generateRecommendations.
  repeat match goal with
         | |- context [if ?b then _ else _] => destruct b
         end; cbn; rewrite ?Hr, ?Hr'; intros; done.
Qed.

Lemma calculateFinalRisk_advice_length r :
  recommendations r = [] →
  length (recommendations (calculateFinalRisk r))
    = if decide (overallThreat (calculateFinalRisk r) = CLEAN) then 3%nat
      else 4%nat.
Proof.
  intros Hr. unfold calculateFinalRisk.
  destruct (fold_left riskStep (allDetections r) (0%Q, CLEAN)) as [q m].
  cbn zeta. unfold generateRecommendations.
  repeat match goal with
         | |- context [if ?b then _ else _] => destruct b
         end; cbn; rewrite ?Hr; done.
Qed.

Lemma analyzeFile_describes f w :
  ∃ r5 stamp,
    describes f r5 ∧
    fst (analyzeFile f w)
      = setEndTime stamp (setStatus COMPLETED (calculateFinalRisk r5)).
Proof.
  destruct (analyzeFile_inv (describes f) (describes_stage f) (describes f))
    with (f := f) (w := w) as (r5 & stamp & H5 & _ & Hr).
  - intros p r0 H0. exact H0.
  - intros r0 w0 H0.
    apply (scanForMalwareSignatures_inv _ (describes_stage f) (describes f));
      [| | done].
    + intros now r1 H1 _. exact H1.
    + intros r1 H1 _. exact H1.
  - intros. by split_and!.
  - by exists r5, stamp.
Qed.

(** X20.  The result of [analyzeFile] is completed, has an end time, still
    names the file it was given with its size and the type its name
    stands for, and carries three recommendations when clean and four
    otherwise; two files of the same classification get the same
    recommendations. *)
Theorem analyzeFile_result_shape f w :
  let r := fst (analyzeFile f w) in
  file r = f ∧ status r = COMPLETED ∧ is_Some (endTime r) ∧
  FileProperties.size (fileProperties r) = UploadedFile.size f ∧
  FileProperties.actualType (fileProperties r)
    = detectFileType (UploadedFile.name f) ∧
  length (recommendations r)
    = (if decide (overallThreat r = CLEAN) then 3%nat else 4%nat) ∧
  ∀ f' w',
    overallThreat (fst (analyzeFile f' w')) = overallThreat r →
    recommendations (fst (analyzeFile f' w')) = recommendations r.
Proof.
  intros r. subst r.
  destruct (analyzeFile_describes f w)
    as (r5 & stamp & (Hf & Hsize & Htype & Hrec) & ->).
  destruct (calculateFinalRisk_frame r5) as (Hfile & _ & Hprops & _).
  cbn [file status endTime fileProperties recommendations overallThreat
       setEndTime setStatus].
  rewrite Hfile, Hprops.
  split_and!; try done.
  - by apply calculateFinalRisk_advice_length.
  - intros f' w'.
    destruct (analyzeFile_describes f' w')
      as (r5' & stamp' & (_ & _ & _ & Hrec') & ->).
    cbn [recommendations overallThreat setEndTime setStatus].
    by apply calculateFinalRisk_advice.
Qed.

Lemma riskFold_total l q m :
  (fst (fold_left riskStep l (q, m)) == q + riskTotal l)%Q.
Proof.
  revert q m. induction l as [| d l IH]; intros q m.
  - change (riskTotal []) with 0%Q. cbn [fold_left fst]. lra.
  - change (riskTotal (d :: l)) with (detectionRisk d + riskTotal l)%Q.
    cbn [fold_left].
    destruct (riskStep (q, m) d) as [q' m'] eqn:E.
    assert (q' = (q + detectionRisk d)%Q) as ->.
    { by rewrite <- (riskStep_fst q m d), E. }
    rewrite IH. lra.
Qed.

Lemma riskTotal_app l1 l2 :
  (riskTotal (l1 ++ l2) == riskTotal l1 + riskTotal l2)%Q.
Proof.
  induction l1 as [| d l1 IH];
    [change (riskTotal []) with 0%Q; cbn [app]; lra |].
  change (riskTotal ((d :: l1) ++ l2))
    with (detectionRisk d + riskTotal (l1 ++ l2))%Q.
  change (riskTotal (d :: l1)) with (detectionRisk d + riskTotal l1)%Q.
  rewrite IH. lra.
Qed.

Lemma mathRound_mono x y : (x <= y)%Q → (mathRound x <= mathRound y)%Z.
Proof. intros Hxy. unfold mathRound. apply Qfloor_resp_le. lra. Qed.

(** The verdict moves with the total of the summands. *)
Lemma calculateFinalRisk_by_total r r' :
  (riskTotal (allDetections r) <= riskTotal (allDetections r'))%Q →
  (riskScore (calculateFinalRisk r) <= riskScore (calculateFinalRisk r'))%Z ∧
  (severityRank (overallThreat (calculateFinalRisk r))
   <= severityRank (overallThreat (calculateFinalRisk r')))%nat.
Proof.
  intros Hle.
  destruct (calculateFinalRisk_spec r) as (Hs & Ht & _).
  destruct (calculateFinalRisk_spec r') as (Hs' & Ht' & _).
  assert (riskScore (calculateFinalRisk r) <= riskScore (calculateFinalRisk r'))%Z
    as Hscore.
  { rewrite Hs, Hs'. apply Z.min_le_compat_r, mathRound_mono.
    rewrite !riskFold_total. lra. }
  split; [exact Hscore |].
  rewrite Ht, Ht', <- Hs, <- Hs'. by apply classify_monotone.
Qed.

(** X21.  One more detection of confidence from 0, whatever its stage,
    never lowers the score that [calculateFinalRisk] gives, nor the
    classification. *)
Theorem calculateFinalRisk_more_detections d r :
  confidenceOK d →
  Forall (fun add : DetectionResult.t → t → t =>
    (riskScore (calculateFinalRisk r)
       <= riskScore (calculateFinalRisk (add d r)))%Z ∧
    (severityRank (overallThreat (calculateFinalRisk r))
       <= severityRank (overallThreat (calculateFinalRisk (add d r))))%nat)
    [addMalwareSignature; addSuspiciousPattern; addFileIntegrity;
     addBehaviorAnalysis].
Proof.
  intros Hd. pose proof (detectionRisk_nonneg d Hd) as Hpos.
  repeat apply Forall_cons_2; [| | | | apply Forall_nil_2];
    apply calculateFinalRisk_by_total; unfold allDetections; cbn;
    rewrite !riskTotal_app; cbn [riskTotal fold_right]; lra.
Qed.

End ShapeFacts.

Section BatchFacts.
Import ScanSession.

Lemma analyzeFile_analysisUpdates f w :
  length (analysisUpdates (snd (analyzeFile f w)))
  = (length (analysisUpdates w) + 7)%nat.
Proof.
  destruct (analyzeFile_run f w)
    as (r0 & r1 & r2 & r3 & r4 & r5 & stamp & _ & _ & _ & _ & _ & _ & _ & Hau & _).
  unfold post in Hau. rewrite Hau, length_app. reflexivity.
Qed.

(** The calls of the listeners over the loop of [analyzeFiles]. *)
Lemma analyzeFiles_loop_calls (todo : list UploadedFile.t) s w :
  post (forOf todo (fun session file =>
          result <- analyzeFile file ;;
          let session := recordResult session result in
          notifySessionListeners session ;;;
          ret session) s) w
    (fun _ w' =>
       length (sessionUpdates w')
         = (length (sessionUpdates w) + length todo)%nat ∧
       length (analysisUpdates w')
         = (length (analysisUpdates w) + 7 * length todo)%nat).
Proof.
  revert s w. induction todo as [| f todo IH]; intros s w.
  - apply post_ret. cbn [length]. lia.
  - cbn [forOf]. apply post_bind, post_bind.
    unfold post at 1.
    pose proof (analyzeFile_sessionUpdates f w) as Hsu.
    pose proof (analyzeFile_analysisUpdates f w) as Hau.
    set (r := fst (analyzeFile f w)) in *.
    set (w1 := snd (analyzeFile f w)) in *.
    cbn zeta. apply post_bind. unfold post at 1.
    cbn [notifySessionListeners fst snd]. set (w2 := mkWorld _ _ _ _ _ _ _ _).
    apply post_ret.
    eapply post_mono; [apply IH |].
    intros s' w' [H1 H2]. cbn beta. rewrite H1, H2. unfold w2.
    cbn [sessionUpdates analysisUpdates length].
    rewrite length_app, Hsu, Hau. cbn [length]. lia.
Qed.


Lemma analyzeFile_file_completed f w :
  FileAnalysisResult.file (fst (analyzeFile f w)) = f ∧
  FileAnalysisResult.status (fst (analyzeFile f w)) = COMPLETED.
Proof.
  destruct (analyzeFile_describes f w) as (r5 & stamp & (Hf & _) & ->).
  destruct (calculateFinalRisk_frame r5) as (Hfile & _).
  cbn [FileAnalysisResult.file FileAnalysisResult.status setEndTime setStatus].
  by rewrite Hfile.
Qed.

(** X22.  [analyzeFiles] ends on a session that holds one completed result
    per file of the batch, in the order of the batch; the session
    listeners are called once at the start and once per file, the
    analysis listeners seven times per file. *)
Theorem analyzeFiles_submission_order (batch : list UploadedFile.t) w :
  let w' := snd (analyzeFiles batch w) in
  ∃ s,
    last (sessionUpdates w') = Some s ∧
    map FileAnalysisResult.file (files s) = batch ∧
    Forall (fun r => FileAnalysisResult.status r = COMPLETED) (files s) ∧
    length (sessionUpdates w')
      = (length (sessionUpdates w) + 1 + length batch)%nat ∧
    length (analysisUpdates w')
      = (length (analysisUpdates w) + 7 * length batch)%nat.
Proof.
  intros w'.
  destruct (analyzeFiles_results
              (fun f r => FileAnalysisResult.file r = f ∧
                          FileAnalysisResult.status r = COMPLETED) batch w)
    as (s & rs & Hlast & HF & Hfiles & _).
  { intros f w0 _. apply analyzeFile_file_completed. }
  exists s. split; [exact Hlast |]. rewrite Hfiles.
  split; [| split].
  - clear Hfiles Hlast. induction HF as [| f r batch rs [Hf _] _ IH]; [done |].
    cbn [map]. by rewrite Hf, IH.
  - clear Hfiles Hlast. induction HF as [| f r batch rs [_ Hs] _ IH];
      constructor; done.
  - subst w'. unfold analyzeFiles, bind. cbn [dateNow fst snd ret].
    match goal with
    | |- context [forOf batch ?body ?s0 ?w0] =>
        pose proof (analyzeFiles_loop_calls batch s0 w0) as Hcalls
    end.
    unfold post in Hcalls. destruct Hcalls as [H1 H2].
    cbn [notifySessionListeners snd sessionUpdates analysisUpdates] in H1, H2.
    rewrite length_app in H1. cbn [length] in H1.
    split; [exact H1 | exact H2].
Qed.

(** X23.  The counters of the last session [analyzeFiles] publishes are the
    statistics [saveHistoricalScan] computes again from its results: an
    entry made of that session and its files has the same number of
    files, of threats and of clean files. *)
Theorem session_counters_match_history (batch : list UploadedFile.t) w now salt :
  ∃ s,
    last (sessionUpdates (snd (analyzeFiles batch w))) = Some s ∧
    let entry := historicalScan s (files s) now salt in
    HistoricalScan.totalFiles entry = totalFiles s ∧
    HistoricalScan.totalFiles entry = completedFiles s ∧
    HistoricalScan.threatsFound entry = threatsFound s ∧
    HistoricalScan.cleanFiles entry = cleanFiles s.
Proof.
  destruct (analyzeFiles_results (fun _ _ => True) batch w)
    as (s & rs & Hlast & HF & Hfiles & Ht & Hc & Hth & Hcl).
  { done. }
  exists s. split; [exact Hlast |].
  apply Forall2_length in HF.
  cbn [historicalScan HistoricalScan.totalFiles HistoricalScan.threatsFound
       HistoricalScan.cleanFiles].
  rewrite Hfiles, Ht, Hc, Hth, Hcl, HF. done.
Qed.

End BatchFacts.

Section HashFacts.

Lemma length_append s1 s2 :
  String.length (s1 ++ s2) = (String.length s1 + String.length s2)%nat.
Proof.
  induction s1 as [| c s1 IH]; [done |].
  change (S (String.length (s1 ++ s2)) = S (String.length s1 + String.length s2)).
  by rewrite IH.
Qed.

Lemma allHex_append s1 s2 : allHex (s1 ++ s2) = allHex s1 && allHex s2.
Proof.
  induction s1 as [| c s1 IH]; [done |].
  change (bool_decide (c ∈ list_ascii_of_string "0123456789abcdef")
          && allHex (s1 ++ s2)
          = bool_decide (c ∈ list_ascii_of_string "0123456789abcdef")
            && allHex s1 && allHex s2).
  rewrite IH. by rewrite andb_assoc.
Qed.

Lemma hexByte_format byte :
  String.length (padStart 2 (toString16 byte)) = 2%nat ∧
  allHex (padStart 2 (toString16 byte)) = true.
Proof. destruct byte; vm_compute; done. Qed.

Lemma hexFold_format l acc :
  let hash :=
    fold_left (fun hash byte => hash ++ padStart 2 (toString16 byte)) l acc in
  String.length hash = (String.length acc + 2 * length l)%nat ∧
  (allHex acc = true → allHex hash = true).
Proof.
  revert acc. induction l as [| b l IH]; intros acc; cbn [fold_left length].
  - split; [lia | done].
  - destruct (IH (acc ++ padStart 2 (toString16 b))) as [Hlen Hhex].
    destruct (hexByte_format b) as [H2 Hh].
    split.
    + rewrite Hlen, length_append, H2. lia.
    + intros Hacc. apply Hhex. by rewrite allHex_append, Hacc, Hh.
Qed.

Lemma substring_prefix_format n s :
  String.length (substring 0 n s) = Nat.min n (String.length s) ∧
  (allHex s = true → allHex (substring 0 n s) = true).
Proof.
  revert s. induction n as [| n IH]; intros s.
  - destruct s; cbn; split; done.
  - destruct s as [| c s]; [cbn; split; done |].
    cbn [substring String.length allHex]. destruct (IH s) as [Hlen Hhex].
    split; [by rewrite Hlen |].
    intros [Hc Hs]%andb_true_iff. by rewrite Hc, Hhex.
Qed.

Lemma eqb_length_false s1 s2 :
  String.length s1 ≠ String.length s2 → String.eqb s1 s2 = false.
Proof. intros Hne. apply String.eqb_neq. by intros ->. Qed.

Lemma eqb_allHex_false s1 s2 :
  allHex s1 = true → allHex s2 = false → String.eqb s1 s2 = false.
Proof. intros H1 H2. apply String.eqb_neq. intros ->. congruence. Qed.

Lemma generateFileHash_length buffer :
  String.length (generateFileHash buffer)
    = (2 * Nat.min (length buffer) 8)%nat ∧
  allHex (generateFileHash buffer) = true.
Proof.
  unfold generateFileHash. cbn zeta.
  set (l := take (Nat.min (length buffer) 32) buffer).
  destruct (hexFold_format l "") as [Hlen Hhex].
  destruct (substring_prefix_format 16
              (fold_left (fun hash byte => hash ++ padStart 2 (toString16 byte))
                 l "")) as [Hlen' Hhex'].
  split; [| by apply Hhex', Hhex].
  rewrite Hlen', Hlen. subst l. rewrite length_take. cbn [String.length]. lia.
Qed.

(** X24.  The hash the upload pages compute is the lower-case hexadecimal
    notation of at most eight bytes: two digits for each of the first
    eight bytes of the content.  None of the known malicious hashes of
    the engine has that form. *)
Theorem generateFileHash_format buffer :
  String.length (generateFileHash buffer)
    = (2 * Nat.min (length buffer) 8)%nat ∧
  allHex (generateFileHash buffer) = true ∧
  arrayIncludes maliciousHashes (generateFileHash buffer) = false.
Proof.
  destruct (generateFileHash_length buffer) as [Hlen Hhex].
  split; [exact Hlen |]. split; [exact Hhex |].
  unfold arrayIncludes, maliciousHashes. cbn [existsb].
  rewrite (eqb_length_false _ "a1b2c3d4e5f6789")
    by (rewrite Hlen; cbn [String.length]; lia).
  rewrite !(eqb_allHex_false _ _ Hhex) by reflexivity.
  reflexivity.
Qed.

End HashFacts.

Section UploadFacts.
Import FileAnalysisResult.

Lemma toUploadedFile_fields file w :
  let f := fst (toUploadedFile file w) in
  UploadedFile.name f = BrowserFile.name file ∧
  UploadedFile.size f = BrowserFile.size file ∧
  UploadedFile.type f = BrowserFile.type file ∧
  UploadedFile.content f = Some (BrowserFile.buffer file) ∧
  UploadedFile.hash f = generateFileHash (BrowserFile.buffer file).
Proof. cbn. done. Qed.

(** X25.  A file that went through the upload of the pages is never flagged
    as known malware, whatever its content: its hash is none of the known
    malicious hashes, and the threat intelligence of its result is what
    every scan starts from. *)
Theorem uploaded_file_never_known_malware file w w' :
  let f := fst (toUploadedFile file w) in
  let r := fst (analyzeFile f w') in
  UploadedFile.hash f = generateFileHash (BrowserFile.buffer file) ∧
  arrayIncludes maliciousHashes (UploadedFile.hash f) = false ∧
  threatIntelligence r = ThreatIntelligence.mk false None None COMMON ∧
  ¬ flaggedKnown r.
Proof.
  intros f r.
  destruct (toUploadedFile_fields file w) as (_ & _ & _ & _ & Hhash).
  fold f in Hhash.
  assert (arrayIncludes maliciousHashes (UploadedFile.hash f) = false) as Hno.
  { rewrite Hhash.
    destruct (generateFileHash_length (BrowserFile.buffer file)) as [Hlen Hhex].
    unfold arrayIncludes, maliciousHashes. cbn [existsb].
    rewrite (eqb_length_false _ "a1b2c3d4e5f6789")
      by (rewrite Hlen; cbn [String.length]; lia).
    rewrite !(eqb_allHex_false _ _ Hhex) by reflexivity.
    reflexivity. }
  pose proof (analyzeFile_unknown_hash f w' Hno) as Hti. fold r in Hti.
  split_and!; [exact Hhash | exact Hno | exact Hti |].
  intros [Hknown _]. rewrite Hti in Hknown. discriminate.
Qed.

(** The first known malicious hash, on a scan in which every random
    number is 0.95. *)
Lemma analyzeFile_known_hash_witness :
  let r := fst (analyzeFile knownSample unluckyWorld) in
  arrayIncludes maliciousHashes (UploadedFile.hash knownSample) = true ∧
  flaggedKnown r ∧
  (78 <= riskScore r <= 100)%Z ∧
  (overallThreat r = MALICIOUS ∨ overallThreat r = CRITICAL).
Proof.
  intros r. split; [reflexivity |].
  destruct (analyzeFile_known_hash knownSample unluckyWorld eq_refl)
    as (H1 & _ & H3 & H4).
  split; [exact H1 |]. split; [exact H3 | exact H4].
Defined.

(** The file backdoor.exe of the scenario. *)
Lemma analyzeFile_malicious_name_witness :
  let r := fst (analyzeFile backdoorExe unluckyWorld) in
  "backdoor" ∈ maliciousPatterns ∧
  includes (toLowerCase (UploadedFile.name backdoorExe)) "backdoor" = true ∧
  (43 <= riskScore r <= 100)%Z ∧
  overallThreat r ≠ CLEAN.
Proof.
  intros r.
  assert ("backdoor" ∈ maliciousPatterns) as Hin by left.
  split; [exact Hin |]. split; [reflexivity |].
  destruct (analyzeFile_malicious_name backdoorExe unluckyWorld "backdoor"
              Hin eq_refl) as (_ & H2 & H3).
  split; [exact H2 | exact H3].
Defined.

(** A size anomaly of confidence 50 on a result that has no detection
    yet. *)
Lemma calculateFinalRisk_more_detections_witness :
  let d := DetectionResult.mk (IdLit "pat_1") "Size Anomaly" SevLOW
             "File unusually large, may contain hidden payload"
             "Size: 120.0 MB" 50 in
  let r := initialResult docPdf (IdLit "analysis_1") testTime (32 # 10) in
  confidenceOK d ∧
  (riskScore (calculateFinalRisk r)
     <= riskScore (calculateFinalRisk (addSuspiciousPattern d r)))%Z.
Proof.
  intros d r.
  assert (confidenceOK d) as Hd by (unfold confidenceOK; cbn; lia).
  split; [exact Hd |].
  pose proof (calculateFinalRisk_more_detections d r Hd) as Hall.
  apply Forall_cons in Hall as [_ Hall].
  apply Forall_cons in Hall as [[H _] _]. exact H.
Defined.

(** Two scans of the same file from the same state: the same
    classification, the same recommendations. *)
Lemma analyzeFile_result_shape_witness :
  let r := fst (analyzeFile docPdf unluckyWorld) in
  file r = docPdf ∧ status r = COMPLETED ∧
  (overallThreat (fst (analyzeFile docPdf unluckyWorld)) = overallThreat r →
   recommendations (fst (analyzeFile docPdf unluckyWorld)) = recommendations r).
Proof.
  intros r.
  destruct (analyzeFile_result_shape docPdf unluckyWorld)
    as (H1 & H2 & _ & _ & _ & _ & H7).
  split; [exact H1 |]. split; [exact H2 |]. exact (H7 docPdf unluckyWorld).
Defined.

End UploadFacts.

(* ================================================================== *)
(** ** The update simulations *)
(* ================================================================== *)

Section ScoreFacts.
Import ThreatEyeEngine.

Lemma mathRound_inject z : mathRound (inject_Z z) = z.
Proof.
  unfold mathRound. apply Z.le_antisymm.
  - apply Z.lt_succ_r. rewrite Zlt_Qlt.
    eapply Qle_lt_trans; [apply Qfloor_le |].
    unfold Z.succ. rewrite inject_Z_plus. change (inject_Z 1) with 1%Q. lra.
  - rewrite <- (Qfloor_Z z) at 1. apply Qfloor_resp_le. lra.
Qed.

Lemma networkStep_grows acc a :
  (fst acc <= fst (networkStep acc a))%Z ∧
  snd (networkStep acc a) = (snd acc + 1)%Z.
Proof.
  destruct acc as [score total]. unfold networkStep.
  destruct (NetworkActivity.isSuspicious a);
    destruct (find _ _) as [t |]; [destruct (isCritical t) | |
      destruct (isCritical t) |]; cbn [fst snd]; lia.
Qed.

Lemma fileStep_grows acc a :
  (fst acc <= fst (fileStep acc a))%Z ∧
  snd (fileStep acc a) = (snd acc + 1)%Z.
Proof.
  destruct acc as [score total]. unfold fileStep.
  destruct (FileActivity.isSuspicious a);
    destruct (find _ _) as [t |]; [destruct (isCritical t) | |
      destruct (isCritical t) |]; cbn [fst snd]; lia.
Qed.

Lemma processStep_grows acc a :
  (fst acc <= fst (processStep acc a))%Z ∧
  snd (processStep acc a) = (snd acc + 1)%Z.
Proof.
  destruct acc as [score total]. unfold processStep.
  destruct (ProcessActivity.isSuspicious a);
    destruct (ProcessActivity.isHidden a);
    destruct (find _ _) as [t |]; try destruct (isCritical t);
    cbn [fst snd]; lia.
Qed.

Lemma fold_grows {A} (step : Z * Z → A → Z * Z) l acc :
  (∀ acc a, (fst acc <= fst (step acc a))%Z) →
  (fst acc <= fst (fold_left step l acc))%Z.
Proof.
  intros Hstep. revert acc. induction l as [| a l IH]; intros acc; [done |].
  cbn [fold_left]. etrans; [apply Hstep | apply IH].
Qed.

Lemma find_all_false {A} (f : A → bool) l :
  (∀ x, x ∈ l → f x = false) → find f l = None.
Proof.
  induction l as [| x l IH]; intros Hall; [done |].
  cbn [find]. rewrite (Hall x) by left. apply IH. intros y Hy. apply Hall.
  by right.
Qed.

(** No indicator of type [k] has the value of [x]. *)
Lemma valueIs_false t k x :
  noneOf (knownValues k) x → t ∈ threatIntelligence → isType t k = true →
  valueIs t x = false.
Proof.
  intros Hx Hin Hk. destruct x as [s |]; [| done]. unfold valueIs.
  apply String.eqb_neq. intros Heq. apply (Hx s eq_refl).
  unfold knownValues. apply list_elem_of_fmap. exists t. split; [done |].
  by apply list_elem_of_filter.
Qed.

Lemma typed_valueIs_false t k x :
  noneOf (knownValues k) x → t ∈ threatIntelligence →
  isType t k && valueIs t x = false.
Proof.
  intros Hx Hin. destruct (isType t k) eqn:E; [| done].
  by rewrite (valueIs_false t k x).
Qed.

Lemma networkStep_benign acc a :
  benignNetwork a → networkStep acc a = (fst acc, (snd acc + 1)%Z).
Proof.
  intros (Hs & Hip & Hdom). destruct acc as [score total].
  unfold networkStep. rewrite Hs, find_all_false; [done |].
  intros t Ht. by rewrite !typed_valueIs_false.
Qed.

Lemma fileStep_benign acc a :
  benignFile a → fileStep acc a = (fst acc, (snd acc + 1)%Z).
Proof.
  intros (Hs & Hsum). destruct acc as [score total].
  unfold fileStep. rewrite Hs, find_all_false; [done |].
  intros t Ht.
  apply (typed_valueIs_false t IndicatorType.FILE_HASH
           (Some (FileActivity.checksum a))); [| done].
  by intros s [= <-].
Qed.

Lemma processStep_benign acc a :
  benignProcess a → processStep acc a = (fst acc, (snd acc + 1)%Z).
Proof.
  intros (Hs & Hh & Hname). destruct acc as [score total].
  unfold processStep. rewrite Hs, Hh, find_all_false; [done |].
  intros t Ht. by rewrite typed_valueIs_false.
Qed.

Lemma fold_benign {A} (step : Z * Z → A → Z * Z) (P : A → Prop) l acc :
  (∀ acc a, P a → step acc a = (fst acc, (snd acc + 1)%Z)) →
  Forall P l →
  fold_left step l acc = (fst acc, (snd acc + Z.of_nat (length l))%Z).
Proof.
  intros Hstep Hall. revert acc.
  induction Hall as [| a l Ha _ IH]; intros acc.
  - cbn. destruct acc. cbn. f_equal. lia.
  - cbn [fold_left length]. rewrite (Hstep _ _ Ha), IH. cbn [fst snd].
    f_equal. lia.
Qed.

Lemma filter_none {A} (P : A → Prop) `{∀ x, Decision (P x)} l :
  Forall (fun x => ¬ P x) l → filter P l = [].
Proof.
  induction 1 as [| x l Hx _ IH]; [done |].
  by rewrite filter_cons, decide_False.
Qed.

Lemma benign_no_suspicious s :
  benignActivities s →
  suspiciousNetwork s = [] ∧ suspiciousFiles s = [] ∧
  suspiciousProcesses s = [].
Proof.
  intros (Hn & Hf & Hp).
  unfold suspiciousNetwork, suspiciousFiles, suspiciousProcesses.
  split_and!; apply filter_none.
  - eapply Forall_impl; [exact Hn |]. intros a (Ha & _). by rewrite Ha.
  - eapply Forall_impl; [exact Hf |]. intros a (Ha & _). by rewrite Ha.
  - eapply Forall_impl; [exact Hp |]. intros a (Ha & _). by rewrite Ha.
Qed.

Lemma gtQ_zero_ratio q t : (0 < t)%Q → gtQ (inject_Z 0 / q) t = false.
Proof.
  intros Ht. unfold gtQ.
  assert (inject_Z 0 / q == 0)%Q as Hz
    by (unfold Qdiv; change (inject_Z 0) with 0%Q; lra).
  apply negb_false_iff, Qle_bool_iff. rewrite Hz. lra.
Qed.

Lemma calculateRiskScore_benign s :
  benignActivities s → calculateRiskScore s = 0%Z.
Proof.
  intros Hb. destruct (benign_no_suspicious s Hb) as (Hn0 & Hf0 & Hp0).
  destruct Hb as (Hn & Hf & Hp).
  unfold calculateRiskScore. cbn zeta.
  rewrite (fold_benign networkStep benignNetwork _ _ networkStep_benign Hn).
  rewrite (fold_benign fileStep benignFile _ _ fileStep_benign Hf).
  rewrite (fold_benign processStep benignProcess _ _ processStep_benign Hp).
  cbn [fst snd].
  fold (suspiciousNetwork s) (suspiciousFiles s) (suspiciousProcesses s).
  rewrite Hn0, Hf0, Hp0. cbn [length Nat.add Z.of_nat].
  rewrite !gtQ_zero_ratio by done.
  by rewrite mathRound_inject.
Qed.

Lemma calculateRiskScore_bounds s : (0 <= calculateRiskScore s <= 100)%Z.
Proof.
  unfold calculateRiskScore. cbn zeta.
  set (a1 := fold_left networkStep _ _).
  set (a2 := fold_left fileStep _ a1).
  assert (0 <= fst a1)%Z as H1.
  { subst a1. change 0%Z with (fst (0, 0)%Z) at 1.
    apply fold_grows. intros. apply networkStep_grows. }
  assert (0 <= fst a2)%Z as H2.
  { subst a2. etrans; [exact H1 |]. apply fold_grows.
    intros. apply fileStep_grows. }
  assert (0 <= fst (fold_left processStep
                      (Activities.processes (UpdateSimulation.activities s)) a2))%Z
    as H3.
  { etrans; [exact H2 |]. apply fold_grows. intros. apply processStep_grows. }
  destruct (fold_left processStep _ a2) as [score total]. cbn [fst] in H3.
  repeat match goal with
         | |- context [if ?b then _ else _] => destruct b
         end; rewrite mathRound_inject; lia.
Qed.

(** X26.  The risk score of a simulation is between 0 and 100, and it is 0
    when no activity is suspicious or hidden and none matches a threat
    indicator. *)
Theorem calculateRiskScore_range s :
  (0 <= calculateRiskScore s <= 100)%Z ∧
  (benignActivities s → calculateRiskScore s = 0%Z).
Proof.
  split; [apply calculateRiskScore_bounds | apply calculateRiskScore_benign].
Qed.

End ScoreFacts.

Section ResponseFacts.
Import ThreatEyeEngine.

Lemma ltb_length_nonempty {A} (l : list A) :
  (0 <? length l)%nat = true ↔ l ≠ [].
Proof. destruct l; cbn; split; done. Qed.

(** X27.  [detectAnomalies] reports at most one anomaly per kind of
    activity, in the order network, file, process, one for each kind that
    has a suspicious activity; each carries these activities as evidence,
    a score from 25 to 100, and is not blocked.  It reports nothing
    exactly when no activity is suspicious, and changes nothing. *)
Theorem detectAnomalies_spec s w :
  let found := fst (detectAnomalies s w) in
  snd (detectAnomalies s w) = w ∧
  map Anomaly.type found =
    ((if decide (suspiciousNetwork s = []) then [] else [AnomalyType.NETWORK])
     ++ (if decide (suspiciousFiles s = []) then [] else [AnomalyType.FILE])
     ++ (if decide (suspiciousProcesses s = []) then []
         else [AnomalyType.PROCESS]))%list ∧
  Forall (fun a =>
            (25 <= Anomaly.score a <= 100)%Z ∧
            Anomaly.evidence a ≠ [] ∧ Anomaly.isBlocked a = false) found ∧
  (found = [] ↔
   suspiciousNetwork s = [] ∧ suspiciousFiles s = [] ∧
   suspiciousProcesses s = []).
Proof.
  unfold detectAnomalies, bind, dateNow, ret. cbn [fst snd].
  destruct (suspiciousNetwork s) as [| n ns];
    destruct (suspiciousFiles s) as [| f fs];
    destruct (suspiciousProcesses s) as [| p ps];
    cbn [length Nat.ltb Nat.leb fst snd app map];
    (split; [reflexivity |]); (split; [reflexivity |]);
    (split; [repeat (apply Forall_cons; split;
                     [cbn [Anomaly.score Anomaly.evidence Anomaly.isBlocked
                           length map]; split_and!; [lia | lia | done | done] |]);
             apply Forall_nil_2 |]);
    split; (intros H; try done); destruct_and?; done.
Qed.


(** A loop that adds one action of type [kind] per element. *)
Lemma actionLoop_spec {A} (kind : ResponseType.t)
    (body : list ResponseAction.t → A → M (list ResponseAction.t))
    (l : list A) :
  (∀ actions x w,
     post (body actions x) w (fun actions' w' =>
       ∃ action,
         actions' = (actions ++ [action])%list ∧
         ResponseAction.type action = kind ∧
         ResponseAction.success action = true ∧
         drawn w' = S (drawn w))) →
  ∀ actions w,
    Forall (fun a => ResponseAction.success a = true) actions →
    post (forOf l body actions) w (fun actions' w' =>
      map ResponseAction.type actions'
        = (map ResponseAction.type actions ++ replicate (length l) kind)%list ∧
      Forall (fun a => ResponseAction.success a = true) actions' ∧
      drawn w' = (drawn w + length l)%nat).
Proof.
  intros Hbody. induction l as [| x l IH]; intros actions w Hok.
  - apply post_forOf_nil. cbn. rewrite app_nil_r. split_and!; first [done | lia].
  - apply post_forOf_cons. eapply post_mono; [apply Hbody |].
    intros actions' w' (action & -> & Hk & Hs & Hd). cbn beta.
    eapply post_mono; [apply IH |].
    + apply Forall_app. split; [done |]. by constructor.
    + intros actions'' w'' (H1 & H2 & H3). cbn beta.
      split_and!; [| exact H2 | rewrite H3, Hd; cbn [length]; lia].
      rewrite H1, map_app, <- app_assoc. cbn [map app length replicate].
      by rewrite Hk.
Qed.

Lemma triggerAutoResponse_run s w :
  post (triggerAutoResponse s) w (fun actions w' =>
    map ResponseAction.type actions =
      (replicate (length (suspiciousNetwork s)) ResponseType.BLOCK_NETWORK
       ++ replicate (length (suspiciousProcesses s)) ResponseType.KILL_PROCESS
       ++ (if (80 <? UpdateSimulation.riskScore s)%Z
           then [ResponseType.ROLLBACK_UPDATE] else []))%list ∧
    Forall (fun a => ResponseAction.success a = true) actions ∧
    drawn w' = (drawn w + length actions)%nat).
Proof.
  unfold triggerAutoResponse. cbn zeta.
  apply post_bind, post_dateNow. cbn beta.
  apply post_bind.
  eapply post_mono.
  { apply (actionLoop_spec ResponseType.BLOCK_NETWORK); [| constructor].
    intros actions x w0.
    apply post_bind, post_dateNow. cbn beta.
    apply post_bind, post_mathRandom. cbn beta. apply post_ret.
    eexists. split_and!; reflexivity. }
  intros actions1 w1 (H1 & Hok1 & Hd1). cbn beta.
  apply post_bind.
  eapply post_mono.
  { apply (actionLoop_spec ResponseType.KILL_PROCESS); [| exact Hok1].
    intros actions x w0.
    apply post_bind, post_dateNow. cbn beta.
    apply post_bind, post_mathRandom. cbn beta. apply post_ret.
    eexists. split_and!; reflexivity. }
  intros actions2 w2 (H2 & Hok2 & Hd2). cbn beta.
  assert (length actions2 = (length (suspiciousNetwork s)
                             + length (suspiciousProcesses s))%nat) as Hlen.
  { rewrite <- (length_map ResponseAction.type), H2, length_app, H1.
    cbn [map app]. by rewrite !length_replicate. }
  destruct (80 <? UpdateSimulation.riskScore s)%Z.
  - apply post_bind, post_dateNow. cbn beta.
    apply post_bind, post_mathRandom. cbn beta. apply post_ret.
    rewrite map_app, H2, H1, length_app, Hlen.
    cbn [map app length ResponseAction.type drawn].
    split_and!.
    + by rewrite <- app_assoc.
    + apply Forall_app. split; [exact Hok2 |]. by constructor.
    + lia.
  - apply post_ret. rewrite H2, H1, Hd2, Hd1, Hlen, app_nil_r.
    split_and!; [done | exact Hok2 | lia].
Qed.

(** X28.  The actions of [triggerAutoResponse] are one blocked connection
    per suspicious network activity, then one killed process per
    suspicious process, then the rollback when the risk score is above
    80; all are reported as successful.  No file is ever quarantined:
    suspicious file activities trigger no action of their own. *)
Theorem triggerAutoResponse_spec s w :
  let actions := fst (triggerAutoResponse s w) in
  map ResponseAction.type actions =
    (replicate (length (suspiciousNetwork s)) ResponseType.BLOCK_NETWORK
     ++ replicate (length (suspiciousProcesses s)) ResponseType.KILL_PROCESS
     ++ (if (80 <? UpdateSimulation.riskScore s)%Z
         then [ResponseType.ROLLBACK_UPDATE] else []))%list ∧
  Forall (fun a => ResponseAction.success a = true) actions ∧
  (ResponseType.QUARANTINE_FILE ∉ map ResponseAction.type actions) ∧
  drawn (snd (triggerAutoResponse s w)) = (drawn w + length actions)%nat.
Proof.
  intros actions.
  destruct (triggerAutoResponse_run s w) as (Htypes & Hok & Hdrawn).
  fold actions in Htypes, Hok, Hdrawn.
  split; [exact Htypes |]. split; [exact Hok |]. split; [| exact Hdrawn].
  rewrite Htypes, !elem_of_app. intros [H | [H | H]].
  - apply elem_of_replicate in H as [? _]. done.
  - apply elem_of_replicate in H as [? _]. done.
  - destruct (80 <? _)%Z; [| by apply elem_of_nil in H].
    apply list_elem_of_singleton in H. done.
Qed.

End ResponseFacts.

Section EngineRules.
Import ThreatEyeEngine.

Lemma postE_ret {A : Type} (a : A) w (Q : A → EngineWorld → Prop) :
  Q a w → postE (retE a) w Q.
Proof. done. Qed.

Lemma postE_bind {A B : Type} (m : ME A) (k : A → ME B) w
    (Q : B → EngineWorld → Prop) :
  postE m w (fun a w' => postE (k a) w' Q) → postE (bindE m k) w Q.
Proof. done. Qed.

Lemma postE_mono {A : Type} (m : ME A) w (Q Q' : A → EngineWorld → Prop) :
  postE m w Q → (∀ a w', Q a w' → Q' a w') → postE m w Q'.
Proof. unfold postE. auto. Qed.

Lemma postE_liftM {A : Type} (m : M A) w (Q : A → EngineWorld → Prop) :
  post m (browser w) (fun a b => Q a (mkEngineWorld b (updates w))) →
  postE (liftM m) w Q.
Proof. done. Qed.

(** A step of the browser whose outcome does not matter. *)
Lemma postE_liftM_any {A : Type} (m : M A) w (Q : A → EngineWorld → Prop) :
  (∀ a b, Q a (mkEngineWorld b (updates w))) → postE (liftM m) w Q.
Proof. intros HQ. apply postE_liftM. unfold post. apply HQ. Qed.

Lemma postE_notifyListeners update w (Q : unit → EngineWorld → Prop) :
  Q tt (mkEngineWorld (browser w) (updates w ++ [update])) →
  postE (notifyListeners update) w Q.
Proof. done. Qed.

(** The loop rule with a counter: an invariant of the body that counts
    the passes. *)
Lemma postE_forOfE {A B : Type} (l : list B) (body : A → B → ME A)
    (I : nat → A → EngineWorld → Prop) :
  (∀ n s x w, I n s w → postE (body s x) w (I (S n))) →
  ∀ n s w, I n s w → postE (forOfE l body s) w (I (n + length l)%nat).
Proof.
  intros Hbody. induction l as [| x l IH]; intros n s w Hs.
  - cbn [forOfE length]. apply postE_ret. by rewrite Nat.add_0_r.
  - cbn [forOfE length]. apply postE_bind.
    eapply postE_mono; [by apply Hbody |].
    intros s' w' Hs'. cbn beta.
    replace (n + S (length l))%nat with (S n + length l)%nat by lia.
    by apply IH.
Qed.

End EngineRules.

Section SafeFacts.
Import ThreatEyeEngine.
Variable base36 : Q → string.

Lemma pickFrom_elem {A} (l : list A) r x : pickFrom l r = Some x → x ∈ l.
Proof.
  unfold pickFrom. cbn zeta. destruct (_ <? 0)%Z; [done |].
  apply list_elem_of_lookup_2.
Qed.

(** No element of [l] is among the values of the indicators of type
    [k]. *)
Lemma pickFrom_noneOf k (l : list string) r :
  Forall (fun s => s ∉ knownValues k) l → noneOf (knownValues k) (pickFrom l r).
Proof.
  intros Hall s Hs. apply pickFrom_elem in Hs.
  by eapply Forall_forall in Hall.
Qed.

Ltac not_known :=
  repeat (apply Forall_cons; split;
          [ intros Hin; apply (bool_decide_pack _) in Hin; vm_compute in Hin;
            contradiction |]);
  apply Forall_nil_2.

Lemma generateSafeNetworkActivity_benign w :
  post generateSafeNetworkActivity w (fun a _ => benignNetwork a).
Proof.
  unfold generateSafeNetworkActivity. cbn zeta.
  apply post_bind, post_dateNow. cbn beta.
  apply post_bind, post_mathRandom. cbn beta.
  apply post_bind, post_dateNow. cbn beta.
  do 5 (apply post_bind, post_mathRandom; cbn beta).
  apply post_ret. split; [reflexivity |].
  split; apply pickFrom_noneOf; not_known.
Qed.


Hypothesis base36_unknown : ∀ x, base36 x ≠ knownChecksum.

Lemma generateSafeFileActivity_benign w :
  post (generateSafeFileActivity base36) w (fun a _ => benignFile a).
Proof.
  unfold generateSafeFileActivity. cbn zeta.
  apply post_bind, post_dateNow. cbn beta.
  apply post_bind, post_mathRandom. cbn beta.
  apply post_bind, post_dateNow. cbn beta.
  do 4 (apply post_bind, post_mathRandom; cbn beta).
  apply post_ret. split; [reflexivity |].
  cbn [FileActivity.checksum]. intros Hin.
  change (knownValues IndicatorType.FILE_HASH) with [knownChecksum] in Hin.
  apply list_elem_of_singleton in Hin. by apply base36_unknown in Hin.
Qed.

Lemma generateSafeProcessActivity_benign w :
  post generateSafeProcessActivity w (fun a _ => benignProcess a).
Proof.
  unfold generateSafeProcessActivity. cbn zeta.
  apply post_bind, post_dateNow. cbn beta.
  apply post_bind, post_mathRandom. cbn beta.
  apply post_bind, post_dateNow. cbn beta.
  do 5 (apply post_bind, post_mathRandom; cbn beta).
  apply post_ret. split; [reflexivity |]. split; [reflexivity |].
  apply pickFrom_noneOf; not_known.
Qed.

Lemma quietRun_pushNetwork name version a s :
  benignNetwork a → quietRun name version s →
  quietRun name version (pushNetwork a s).
Proof.
  intros Ha (? & ? & ? & ? & ? & Hn & Hf & Hp). split_and!; try done.
  unfold benignActivities. cbn. split_and!; try done.
  apply Forall_app. split; [done |]. by constructor.
Qed.

Lemma quietRun_pushFile name version a s :
  benignFile a → quietRun name version s →
  quietRun name version (pushFile a s).
Proof.
  intros Ha (? & ? & ? & ? & ? & Hn & Hf & Hp). split_and!; try done.
  unfold benignActivities. cbn. split_and!; try done.
  apply Forall_app. split; [done |]. by constructor.
Qed.

Lemma quietRun_pushProcess name version a s :
  benignProcess a → quietRun name version s →
  quietRun name version (pushProcess a s).
Proof.
  intros Ha (? & ? & ? & ? & ? & Hn & Hf & Hp). split_and!; try done.
  unfold benignActivities. cbn. split_and!; try done.
  apply Forall_app. split; [done |]. by constructor.
Qed.

Lemma quietRun_rescored name version s :
  quietRun name version s →
  quietRun name version
    (setSimulationRiskScore (calculateRiskScore s) s).
Proof.
  intros (? & ? & ? & ? & ? & Hb). split_and!; try done.
  cbn. by apply calculateRiskScore_benign.
Qed.

Lemma safePass_quiet name version before n s w :
  quietSoFar name version before n s w →
  postE
    (bindE (liftM (delay 200)) (fun _ =>
     bindE (liftM mathRandom) (fun chance =>
     bindE (if gtQ chance (3 # 10) then
              bindE (liftM generateSafeNetworkActivity) (fun networkActivity =>
              retE (pushNetwork networkActivity s))
            else retE s) (fun simulation =>
     bindE (liftM mathRandom) (fun chance =>
     bindE (if gtQ chance (4 # 10) then
              bindE (liftM (generateSafeFileActivity base36))
                (fun fileActivity => retE (pushFile fileActivity simulation))
            else retE simulation) (fun simulation =>
     bindE (liftM mathRandom) (fun chance =>
     bindE (if gtQ chance (6 # 10) then
              bindE (liftM generateSafeProcessActivity)
                (fun processActivity =>
                   retE (pushProcess processActivity simulation))
            else retE simulation) (fun simulation =>
     bindE (notifyListeners
              (setSimulationRiskScore (calculateRiskScore simulation)
                 simulation)) (fun _ =>
     retE (setSimulationRiskScore (calculateRiskScore simulation)
             simulation))))))))))
    w (quietSoFar name version before (S n)).
Proof.
  intros (Hst & Hq & trace & Hup & Hlen & Hall).
  apply postE_bind, postE_liftM_any. intros [] b0. cbn beta.
  apply postE_bind, postE_liftM_any. intros c1 b1. cbn beta.
  apply postE_bind.
  apply (postE_mono _ _ (fun s1 w1 =>
           UpdateSimulation.status s1 = UpdateStatus.RUNNING ∧
           quietRun name version s1 ∧ updates w1 = updates w)).
  { destruct (gtQ c1 (3 # 10)); [| by apply postE_ret].
    apply postE_bind, postE_liftM.
    eapply post_mono; [apply generateSafeNetworkActivity_benign |].
    intros a b Ha. cbn beta. apply postE_ret.
    split_and!; [exact Hst | by apply quietRun_pushNetwork | done]. }
  intros s1 w1 (Hst1 & Hq1 & Hup1). cbn beta.
  apply postE_bind, postE_liftM_any. intros c2 b2. cbn beta.
  apply postE_bind.
  apply (postE_mono _ _ (fun s2 w2 =>
           UpdateSimulation.status s2 = UpdateStatus.RUNNING ∧
           quietRun name version s2 ∧ updates w2 = updates w)).
  { destruct (gtQ c2 (4 # 10)); [| by apply postE_ret].
    apply postE_bind, postE_liftM.
    eapply post_mono; [apply generateSafeFileActivity_benign |].
    intros a b Ha. cbn beta. apply postE_ret.
    split_and!; [exact Hst1 | by apply quietRun_pushFile | done]. }
  intros s2 w2 (Hst2 & Hq2 & Hup2). cbn beta.
  apply postE_bind, postE_liftM_any. intros c3 b3. cbn beta.
  apply postE_bind.
  apply (postE_mono _ _ (fun s3 w3 =>
           UpdateSimulation.status s3 = UpdateStatus.RUNNING ∧
           quietRun name version s3 ∧ updates w3 = updates w)).
  { destruct (gtQ c3 (6 # 10)); [| by apply postE_ret].
    apply postE_bind, postE_liftM.
    eapply post_mono; [apply generateSafeProcessActivity_benign |].
    intros a b Ha. cbn beta. apply postE_ret.
    split_and!; [exact Hst2 | by apply quietRun_pushProcess | done]. }
  intros s3 w3 (Hst3 & Hq3 & Hup3). cbn beta.
  apply postE_bind, postE_notifyListeners, postE_ret.
  pose proof (quietRun_rescored name version s3 Hq3) as Hq4.
  split_and!; [exact Hst3 | exact Hq4 |].
  exists (trace ++ [setSimulationRiskScore (calculateRiskScore s3) s3])%list.
  cbn [updates]. rewrite Hup3, Hup, length_app, Hlen, <- app_assoc.
  split_and!; [done | cbn [length]; lia |].
  apply Forall_app. split; [done |]. by constructor.
Qed.


(** X29.  A safe update whose random checksums miss the known malware hash
    completes with nothing found: no risk, no anomaly, no action, only
    benign activities.  The listeners are called twelve times, each time
    with such a simulation, the last time with the one returned. *)
Theorem simulateSafeUpdate_outcome name version w :
  let run := simulateSafeUpdate base36 name version w in
  let s := fst run in
  UpdateSimulation.status s = UpdateStatus.COMPLETED ∧
  is_Some (UpdateSimulation.endTime s) ∧
  quietRun name version s ∧
  ∃ trace,
    updates (snd run) = (updates w ++ trace)%list ∧
    length trace = 12%nat ∧
    last trace = Some s ∧
    Forall (quietRun name version) trace.
Proof.
  change (postE (simulateSafeUpdate base36 name version) w (fun s w' =>
    UpdateSimulation.status s = UpdateStatus.COMPLETED ∧
    is_Some (UpdateSimulation.endTime s) ∧
    quietRun name version s ∧
    ∃ trace,
      updates w' = (updates w ++ trace)%list ∧
      length trace = 12%nat ∧
      last trace = Some s ∧
      Forall (quietRun name version) trace)).
  unfold simulateSafeUpdate.
  apply postE_bind, postE_liftM_any. intros now b0. cbn beta.
  apply postE_bind, postE_liftM_any. intros startTime b1. cbn beta zeta.
  set (s0 := UpdateSimulation.mk _ _ _ _ _ _ _ _ _ _ _).
  assert (quietRun name version s0) as Hq0.
  { unfold quietRun, benignActivities, s0. cbn. split_and!; done. }
  apply postE_bind, postE_notifyListeners. cbn [updates browser].
  apply postE_bind.
  eapply postE_mono.
  { apply (postE_forOfE (seq 0 10) _ (quietSoFar name version (updates w))).
    - intros n s x w0 Hs. by apply safePass_quiet.
    - split_and!; [reflexivity | exact Hq0 |].
      exists [s0]. cbn [updates]. split_and!; [done | done |].
      by constructor. }
  intros s1 w1 (Hst & Hq & trace & Hup & Hlen & Hall). cbn beta zeta.
  apply postE_bind, postE_liftM_any. intros endTime b2. cbn beta.
  apply postE_bind, postE_notifyListeners, postE_ret.
  assert (quietRun name version
            (setSimulationEndTime endTime
               (setSimulationStatus UpdateStatus.COMPLETED s1))) as Hq1.
  { destruct Hq as (? & ? & ? & ? & ? & ?). by split_and!. }
  split_and!; [reflexivity | by eexists | exact Hq1 |].
  eexists (trace ++ [_])%list. cbn [updates].
  rewrite Hup, <- app_assoc, length_app, Hlen, last_snoc.
  split_and!; [reflexivity | reflexivity | reflexivity |].
  apply Forall_app. split; [done |]. by constructor.
Qed.

End SafeFacts.

Section MaliciousFacts.
Import ThreatEyeEngine.
Variable base36 : Q → string.

Lemma calculateRiskScore_activities s s' :
  UpdateSimulation.activities s = UpdateSimulation.activities s' →
  calculateRiskScore s = calculateRiskScore s'.
Proof. intros H. unfold calculateRiskScore. by rewrite H. Qed.

Lemma responseTypes_frame s s' :
  UpdateSimulation.activities s = UpdateSimulation.activities s' →
  UpdateSimulation.riskScore s = UpdateSimulation.riskScore s' →
  responseTypes s = responseTypes s'.
Proof.
  intros Ha Hr.
  unfold responseTypes, suspiciousNetwork, suspiciousProcesses.
  by rewrite Ha, Hr.
Qed.

(** The end of a pass, from the scoring on. *)
Lemma maliciousPass_tail s w :
  UpdateSimulation.status s = UpdateStatus.RUNNING →
  UpdateSimulation.actionsTriggered s = [] →
  postE
    (bindE (liftM (detectAnomalies
                     (setSimulationRiskScore (calculateRiskScore s) s)))
       (fun newAnomalies =>
     bindE (if (70 <? UpdateSimulation.riskScore
                        (pushAnomalies newAnomalies
                           (setSimulationRiskScore (calculateRiskScore s) s)))%Z
               && bool_decide
                    (UpdateSimulation.status
                       (pushAnomalies newAnomalies
                          (setSimulationRiskScore (calculateRiskScore s) s))
                     = UpdateStatus.RUNNING) then
              bindE (liftM (triggerAutoResponse
                              (pushAnomalies newAnomalies
                                 (setSimulationRiskScore
                                    (calculateRiskScore s) s))))
                (fun actions =>
                   retE (setSimulationStatus UpdateStatus.BLOCKED
                           (pushActions actions
                              (pushAnomalies newAnomalies
                                 (setSimulationRiskScore
                                    (calculateRiskScore s) s)))))
            else retE (pushAnomalies newAnomalies
                         (setSimulationRiskScore (calculateRiskScore s) s)))
       (fun simulation =>
     bindE (notifyListeners simulation) (fun _ => retE simulation))))
    w (fun s' w' =>
         (unblocked s' ∨ blocked s') ∧ last (updates w') = Some s').
Proof.
  intros Hst Hact.
  apply postE_bind, postE_liftM_any. intros newAnomalies b0. cbn beta.
  set (s1 := pushAnomalies newAnomalies
               (setSimulationRiskScore (calculateRiskScore s) s)).
  assert (UpdateSimulation.riskScore s1 = calculateRiskScore s1) as Hscore.
  { unfold s1. cbn [UpdateSimulation.riskScore pushAnomalies
                    setSimulationRiskScore].
    by apply calculateRiskScore_activities. }
  assert (UpdateSimulation.status s1 = UpdateStatus.RUNNING) as Hst1
    by exact Hst.
  assert (UpdateSimulation.actionsTriggered s1 = []) as Hact1 by exact Hact.
  apply postE_bind.
  apply (postE_mono _ _ (fun s' w' =>
           (unblocked s' ∨ blocked s') ∧
           updates w' = updates {| browser := b0; updates := updates w |})).
  - rewrite Hst1, bool_decide_eq_true_2, andb_true_r by done.
    destruct (70 <? UpdateSimulation.riskScore s1)%Z eqn:E.
    + apply Z.ltb_lt in E.
      apply postE_bind, postE_liftM.
      eapply post_mono; [apply triggerAutoResponse_run |].
      intros actions b1 (Htypes & _ & _). cbn beta. apply postE_ret.
      split; [| reflexivity]. right.
      split_and!; [reflexivity | exact Hscore | exact E |].
      cbn [UpdateSimulation.actionsTriggered setSimulationStatus pushActions].
      rewrite Hact1, app_nil_l, Htypes. by apply responseTypes_frame.
    + apply Z.ltb_ge in E. apply postE_ret. split; [| reflexivity]. left.
      by split_and!.
  - intros s' w' [Hs' Hup]. cbn beta.
    apply postE_bind, postE_notifyListeners, postE_ret.
    split; [exact Hs' |]. cbn [updates]. by rewrite last_snoc.
Qed.


Ltac crunch :=
  repeat match goal with
    | |- postE (bindE _ _) _ _ => apply postE_bind
    | |- postE (retE _) _ _ => apply postE_ret
    | |- postE (liftM _) _ _ => apply postE_liftM_any; intros ? ?; cbn beta
    | |- postE (if ?b then _ else _) _ _ => destruct b
    end.

(** One pass on a simulation that is still running. *)
Lemma maliciousPass_spec i s w :
  UpdateSimulation.status s = UpdateStatus.RUNNING →
  UpdateSimulation.actionsTriggered s = [] →
  postE (maliciousPass base36 i s) w (fun s' w' =>
    (unblocked s' ∨ blocked s') ∧ last (updates w') = Some s').
Proof.
  intros Hst Hact. unfold maliciousPass.
  apply postE_bind, postE_liftM_any. intros [] b0. cbn beta.
  apply postE_bind, postE_liftM_any. intros c1 b1. cbn beta.
  apply postE_bind.
  apply (postE_mono _ _ (fun s1 _ =>
           UpdateSimulation.status s1 = UpdateStatus.RUNNING ∧
           UpdateSimulation.actionsTriggered s1 = [])); [crunch; by split |].
  intros s1 w1 [Hst1 Hact1]. cbn beta.
  apply postE_bind, postE_liftM_any. intros c2 b2. cbn beta.
  apply postE_bind.
  apply (postE_mono _ _ (fun s2 _ =>
           UpdateSimulation.status s2 = UpdateStatus.RUNNING ∧
           UpdateSimulation.actionsTriggered s2 = [])); [crunch; by split |].
  intros s2 w2 [Hst2 Hact2]. cbn beta.
  apply postE_bind, postE_liftM_any. intros c3 b3. cbn beta.
  apply postE_bind.
  apply (postE_mono _ _ (fun s3 _ =>
           UpdateSimulation.status s3 = UpdateStatus.RUNNING ∧
           UpdateSimulation.actionsTriggered s3 = [])); [crunch; by split |].
  intros s3 w3 [Hst3 Hact3]. cbn beta zeta.
  by apply maliciousPass_tail.
Qed.

(** The loop from a simulation that is still running, whatever the
    fuel. *)
Lemma maliciousLoop_spec fuel i s w :
  unblocked s → last (updates w) = Some s →
  postE (maliciousLoop base36 fuel i s) w (fun s' w' =>
    (unblocked s' ∨ blocked s') ∧ last (updates w') = Some s').
Proof.
  revert i s w. induction fuel as [| fuel IH]; intros i s w Hs Hlast.
  - apply postE_ret. by split; [left |].
  - cbn [maliciousLoop]. destruct (i <? 15)%Z; [| apply postE_ret; by split; [left |]].
    apply postE_bind.
    eapply postE_mono;
      [apply maliciousPass_spec; [apply Hs | apply Hs] |].
    intros s1 w1 [[Hun | Hbl] Hlast1]; cbn beta.
    + rewrite bool_decide_eq_false_2
        by (destruct Hun as (-> & _); discriminate).
      by apply IH.
    + rewrite bool_decide_eq_true_2 by apply Hbl.
      apply postE_ret. by split; [right |].
Qed.

(** The loop ends by its own test or by [break] within fifteen passes:
    any fuel from fifteen on gives the same run. *)
Lemma maliciousLoop_fuel n : ∀ fuel i s w,
  (0 <= i)%Z → (Z.to_nat (15 - i) <= n)%nat → (n <= fuel)%nat →
  maliciousLoop base36 fuel i s w = maliciousLoop base36 n i s w.
Proof.
  induction n as [| n IH]; intros fuel i s w Hi Hn Hfuel.
  - assert ((i <? 15)%Z = false) as Hge by (apply Z.ltb_ge; lia).
    destruct fuel; cbn [maliciousLoop]; [done | by rewrite Hge].
  - destruct fuel as [| fuel]; [lia |]. cbn [maliciousLoop].
    destruct (i <? 15)%Z eqn:E; [| done]. apply Z.ltb_lt in E.
    unfold bindE.
    destruct (bool_decide _); [done |].
    apply IH; lia.
Qed.

(** X30.  A malicious update ends completed or blocked, with an end time
    and the score of its activities.  It is blocked exactly when that
    score is above 70, and then it carries the actions of
    [triggerAutoResponse], the rollback among them exactly above 80;
    completed, it carries no action.  The last call of the listeners is on
    the simulation returned. *)
Theorem simulateMaliciousUpdate_outcome name version w :
  let run := simulateMaliciousUpdate base36 name version w in
  let s := fst run in
  (UpdateSimulation.status s = UpdateStatus.COMPLETED ∨
   UpdateSimulation.status s = UpdateStatus.BLOCKED) ∧
  is_Some (UpdateSimulation.endTime s) ∧
  UpdateSimulation.riskScore s = calculateRiskScore s ∧
  (UpdateSimulation.status s = UpdateStatus.BLOCKED ↔
   (70 < UpdateSimulation.riskScore s)%Z) ∧
  (UpdateSimulation.status s = UpdateStatus.COMPLETED →
   UpdateSimulation.actionsTriggered s = []) ∧
  (UpdateSimulation.status s = UpdateStatus.BLOCKED →
   map ResponseAction.type (UpdateSimulation.actionsTriggered s)
     = responseTypes s) ∧
  (ResponseType.ROLLBACK_UPDATE
     ∈ map ResponseAction.type (UpdateSimulation.actionsTriggered s) ↔
   (80 < UpdateSimulation.riskScore s)%Z) ∧
  last (updates (snd run)) = Some s.
Proof.
  assert (postE (simulateMaliciousUpdate base36 name version) w (fun s w' =>
    ((UpdateSimulation.status s = UpdateStatus.COMPLETED ∧
      UpdateSimulation.riskScore s = calculateRiskScore s ∧
      (UpdateSimulation.riskScore s <= 70)%Z ∧
      UpdateSimulation.actionsTriggered s = [])
     ∨ blocked s) ∧
    is_Some (UpdateSimulation.endTime s) ∧
    last (updates w') = Some s)) as Hrun.
  { unfold simulateMaliciousUpdate.
    apply postE_bind, postE_liftM_any. intros now b0. cbn beta.
    apply postE_bind, postE_liftM_any. intros startTime b1. cbn beta zeta.
    set (s0 := UpdateSimulation.mk _ _ _ _ _ _ _ _ _ _ _).
    apply postE_bind, postE_notifyListeners. cbn [updates browser].
    apply postE_bind.
    eapply postE_mono.
    { apply maliciousLoop_spec.
      - unfold unblocked, s0. cbn. split_and!; done.
      - cbn [updates]. by rewrite last_snoc. }
    intros s1 w1 [Hs1 _]. cbn beta zeta.
    apply postE_bind, postE_liftM_any. intros endTime b2. cbn beta.
    apply postE_bind, postE_notifyListeners, postE_ret.
    cbn [updates]. rewrite last_snoc.
    split; [| split; [by eexists | reflexivity]].
    destruct Hs1 as [(Hst & Hsc & Hle & Hact) | (Hst & Hsc & Hgt & Hact)].
    - left. rewrite bool_decide_eq_true_2 by done. by split_and!.
    - right. rewrite bool_decide_eq_false_2 by (rewrite Hst; discriminate).
      by split_and!. }
  intros run s. unfold postE in Hrun. fold run in Hrun. fold s in Hrun.
  destruct Hrun as (Hcases & Hend & Hlast).
  destruct Hcases as [(Hst & Hsc & Hle & Hact) | (Hst & Hsc & Hgt & Hact)].
  - split; [by left |]. split; [exact Hend |]. split; [exact Hsc |].
    split; [rewrite Hst; split; [discriminate | lia] |].
    split; [done |].
    split; [rewrite Hst; discriminate |].
    split; [| exact Hlast].
    rewrite Hact. cbn [map]. split; [by intros ?%elem_of_nil | lia].
  - split; [by right |]. split; [exact Hend |]. split; [exact Hsc |].
    split; [by rewrite Hst |].
    split; [rewrite Hst; discriminate |].
    split; [done |].
    split; [| exact Hlast].
    rewrite Hact. unfold responseTypes. rewrite !elem_of_app.
    destruct (80 <? UpdateSimulation.riskScore s)%Z eqn:E.
    + apply Z.ltb_lt in E. split; [done |]. intros _. right. right. left.
    + apply Z.ltb_ge in E. split; [| lia].
      intros [H | [H | H]].
      * apply elem_of_replicate in H as [? _]. done.
      * apply elem_of_replicate in H as [? _]. done.
      * by apply elem_of_nil in H.
Qed.

End MaliciousFacts.

Section SimulationWitnesses.
Import ThreatEyeEngine.

(** The safe update of the dashboard, on a browser in which every random
    number is 0.95 and prints as twelve digits z. *)
Lemma simulateSafeUpdate_outcome_witness :
  let base36 := fun _ : Q => "zzzzzzzzzzzz" in
  let w := mkEngineWorld unluckyWorld [] in
  let s := fst (simulateSafeUpdate base36 "SecurityPatch" "1.2.3" w) in
  (∀ x, base36 x ≠ knownChecksum) ∧
  UpdateSimulation.status s = UpdateStatus.COMPLETED ∧
  quietRun "SecurityPatch" "1.2.3" s.
Proof.
  intros base36 w s.
  assert (∀ x, base36 x ≠ knownChecksum) as Hbase by (intros x; discriminate).
  split; [exact Hbase |].
  destruct (simulateSafeUpdate_outcome base36 Hbase "SecurityPatch" "1.2.3" w)
    as (H1 & _ & H3 & _).
  split; [exact H1 | exact H3].
Defined.

End SimulationWitnesses.
